(** * Playtime ledger, review store and weighted rating of the game catalogue

    A shallow embedding of the Express/Mongoose controllers
    (productController.js, userController.js), of the review schema
    (models/Product.js) and of the play route (routes/productRoutes.js),
    followed by the properties of the rating aggregation, the review
    life cycle and the deletion clean-up.

    Conventions of the embedding.
    - A MongoDB collection is a finite map from [_id] to document.
    - A JavaScript number is [NaN] or a rational ([Q]), the value of a
      finite double.  The handlers of the first part compute exactly; the
      part on the arithmetic of the engine repeats the code that computes
      with every operation rounded to double precision, and the
      properties of the computed values are stated there.  Equalities that
      involve arithmetic are stated with [==] on [Q].
    - An [_id] is a well-formed ObjectId; the [CastError] that Mongoose
      raises for a malformed one, and the 500 reply that follows, are left
      out.
    - A handler is a state transformer over the database that runs to its
      end or throws; an early [return res...json(..)] is the first branch of
      a conditional, and [try]/[catch] turns a throw into the 500 reply.
    - Requests are handled one at a time: a rating update that the source
      starts without [await] runs to completion right after it is started. *)

From Stdlib Require Import QArith Qround Qabs Qpower Lqa.
From stdpp Require Import base option list gmap strings pretty sorting.

(** ** Numbers *)

(** A number is [NaN] or the rational value of a finite double; the
    infinities and the sign of zero are left out. *)
Inductive number := NaN | Num (q : Q).

Definition Qltb (a b : Q) : bool := negb (Qle_bool b a).

Module JS.
(** [a < b], [a > b], [a <= b]: every comparison with [NaN] is false. *)
Definition lt (a b : number) : bool :=
  match a, b with Num x, Num y => Qltb x y | _, _ => false end.
Definition gt (a b : number) : bool := lt b a.
Definition le (a b : number) : bool :=
  match a, b with Num x, Num y => Qle_bool x y | _, _ => false end.
(** [!a]: [0] and [NaN] are falsy. *)
Definition not (a : number) : bool :=
  match a with NaN => true | Num q => Qeq_bool q 0 end.
(** [a || 0] on numbers. *)
Definition or0 (a : option Q) : Q :=
  match a with
  | Some q => if Qeq_bool q 0 then 0%Q else q
  | None => 0%Q
  end.
End JS.

(** [Array.prototype.find] and [Array.prototype.findIndex]. *)
Definition Array_find {A} (P : A → Prop) `{∀ x, Decision (P x)}
    (l : list A) : option A := snd <$> list_find P l.
Definition Array_findIndex {A} (P : A → Prop) `{∀ x, Decision (P x)}
    (l : list A) : option nat := fst <$> list_find P l.

(** ** Documents *)

Abbreviation ObjectId := string (only parsing).

Module PlayTime.
(** Modelled from the spec: models/User.js is not among the sources.  An
    entry of the playtime ledger records the minutes played per game; the
    controllers read and write its [product] and [time]. *)
Record t := mk { product : ObjectId; time : Q }.
End PlayTime.

Module User.
(** Modelled from the spec: models/User.js is not among the sources.  Of a
    user the embedding keeps the display name and [playTime], the array of
    ledger entries. *)
Record t := mk { name : string; playTime : list PlayTime.t }.
Definition set_playTime (l : list PlayTime.t) (u : t) : t :=
  mk (name u) l.
End User.

Module Review.
(** A review as the controller builds it: [rating] and [comment] are
    [None] when the property is [undefined]. *)
Record t := mk {
  user : ObjectId;
  name : string;
  rating : option number;
  comment : option string }.
Definition set_rating (n : number) (r : t) : t :=
  mk (user r) (name r) (Some n) (comment r).
Definition set_comment (c : string) (r : t) : t :=
  mk (user r) (name r) (rating r) (Some c).
Definition set_name (s : string) (r : t) : t :=
  mk (user r) s (rating r) (comment r).
End Review.

(** Values of the request fields that the schema does not name. *)
Inductive json :=
| JNull
| JBool (b : bool)
| JNumber (q : Q)
| JString (s : string).

Module Product.
Record t := mk {
  user : ObjectId;
  name : string;
  image : string;
  brand : string;
  category : list string;
  description : string;
  reviews : list Review.t;
  rating : Q;
  numReviews : Q;
  disableRating : bool;
  disableCommenting : bool;
  (** [strict: false]: fields beyond the schema are stored as they come. *)
  extra : gmap string json }.
Definition set_reviews (l : list Review.t) (p : t) : t :=
  mk (user p) (name p) (image p) (brand p) (category p) (description p)
     l (rating p) (numReviews p) (disableRating p) (disableCommenting p)
     (extra p).
Definition set_rating (q : Q) (p : t) : t :=
  mk (user p) (name p) (image p) (brand p) (category p) (description p)
     (reviews p) q (numReviews p) (disableRating p) (disableCommenting p)
     (extra p).
Definition set_numReviews (q : Q) (p : t) : t :=
  mk (user p) (name p) (image p) (brand p) (category p) (description p)
     (reviews p) (rating p) q (disableRating p) (disableCommenting p)
     (extra p).
Definition set_extra (e : gmap string json) (p : t) : t :=
  mk (user p) (name p) (image p) (brand p) (category p) (description p)
     (reviews p) (rating p) (numReviews p) (disableRating p)
     (disableCommenting p) e.
End Product.

(** [array.length] as a number. *)
Definition length_num {A} (l : list A) : Q := inject_Z (Z.of_nat (length l)).

(** ** models/Product.js: reviewSchema *)

Record SchemaType := { required : bool }.

Module reviewSchema.
Definition name : SchemaType := {| required := true |}.
Definition rating : SchemaType := {| required := true |}.
Definition comment : SchemaType := {| required := true |}.

(** A String path: its required validator also rejects the empty string. *)
Definition check_string (ty : SchemaType) (v : option string) : bool :=
  match v with
  | Some s => negb (required ty) || negb (String.eqb s "")
  | None => negb (required ty)
  end.
(** A Number path: [NaN] does not cast; a missing value is an error only if
    the path is required. *)
Definition check_number (ty : SchemaType) (v : option number) : bool :=
  match v with
  | Some (Num _) => true
  | Some NaN => false
  | None => negb (required ty)
  end.
Definition validate (r : Review.t) : bool :=
  check_string name (Some (Review.name r))
  && check_number rating (Review.rating r)
  && check_string comment (Review.comment r).
End reviewSchema.

(** ** models/Product.js: productSchema

    [name], [image], [brand] and [description] are required strings,
    [category] holds one to five genres, and every sub-document of [reviews]
    is validated against [reviewSchema]. *)
Definition Product_validate (p : Product.t) : bool :=
  negb (String.eqb (Product.name p) "")
  && negb (String.eqb (Product.image p) "")
  && negb (String.eqb (Product.brand p) "")
  && negb (String.eqb (Product.description p) "")
  && bool_decide (0 < length (Product.category p) ≤ 5)
  && forallb reviewSchema.validate (Product.reviews p).

(** ** The database and the handler monad *)

Record DB := mkDB {
  users : gmap string User.t;
  products : gmap string Product.t }.

Inductive Outcome (A : Type) :=
| Done (a : A)
| Thrown.
Arguments Done {A} a.
Arguments Thrown {A}.

Definition Async (A : Type) : Type := DB → Outcome A * DB.

Definition ret {A} (a : A) : Async A := λ db, (Done a, db).
Definition bind {A B} (m : Async A) (k : A → Async B) : Async B :=
  λ db, match m db with
        | (Done a, db') => k a db'
        | (Thrown, db') => (Thrown, db')
        end.
Definition throw {A} : Async A := λ db, (Thrown, db).
(** [try { body } catch (error) { handler }] *)
Definition try_catch {A} (body handler : Async A) : Async A :=
  λ db, match body db with
        | (Done a, db') => (Done a, db')
        | (Thrown, db') => handler db'
        end.

Notation "'let*' x ':=' m 'in' k" := (bind m (λ x, k))
  (at level 10, x pattern, m at level 100, k at level 200).
Notation "m ';;' k" := (bind m (λ _, k))
  (at level 100, k at level 200, right associativity).

(** [for (const x of l) { body }] *)
Fixpoint for_of {A} (l : list A) (body : A → Async unit) : Async unit :=
  match l with
  | [] => ret tt
  | x :: l' => body x ;; for_of l' body
  end.

Module Model.
(** [findById] for a well-formed id: the document, or [null]. *)
Definition Product_findById (id : ObjectId) : Async (option Product.t) :=
  λ db, (Done (products db !! id), db).
Definition User_findById (id : ObjectId) : Async (option User.t) :=
  λ db, (Done (users db !! id), db).
(** [User.find(query)] and [Product.find(query)]: the matching documents
    with their [_id]. *)
Definition User_find (query : ObjectId → User.t → Prop)
  `{∀ id u, Decision (query id u)} : Async (list (ObjectId * User.t)) :=
λ db, (Done (filter (λ x, query x.1 x.2) (map_to_list (users db))), db).
Definition Product_find (query : ObjectId → Product.t → Prop)
  `{∀ id p, Decision (query id p)} : Async (list (ObjectId * Product.t)) :=
λ db, (Done (filter (λ x, query x.1 x.2) (map_to_list (products db))), db).
(** [product.save()]: rejects when validation fails. *)
Definition Product_save (id : ObjectId) (p : Product.t) : Async unit :=
  λ db, if Product_validate p
        then (Done tt, mkDB (users db) (<[id := p]> (products db)))
        else (Thrown, db).
(** [user.save()]; the user schema is not among the sources and the
    ledger entries that the controllers write are taken to satisfy it. *)
Definition User_save (id : ObjectId) (u : User.t) : Async unit :=
  λ db, (Done tt, mkDB (<[id := u]> (users db)) (products db)).
Definition Product_deleteOne (id : ObjectId) : Async unit :=
  λ db, (Done tt, mkDB (users db) (delete id (products db))).
Definition User_deleteOne (id : ObjectId) : Async unit :=
  λ db, (Done tt, mkDB (delete id (users db)) (products db)).
End Model.

(** The query [{ 'playTime.product': productId }]. *)
Definition playTime_product (productId : ObjectId) (u : User.t) : Prop :=
  Exists (λ pt, PlayTime.product pt = productId) (User.playTime u).
Global Instance playTime_product_dec productId u :
  Decision (playTime_product productId u).
Proof. unfold playTime_product. apply _. Defined.

(** The query [{ 'reviews.user': userId }]. *)
Definition reviews_user (userId : ObjectId) (p : Product.t) : Prop :=
  Exists (λ r, Review.user r = userId) (Product.reviews p).
Global Instance reviews_user_dec userId p : Decision (reviews_user userId p).
Proof. unfold reviews_user. apply _. Defined.

(** [user.playTime.find(pt => pt.product.toString() === productId.toString())] *)
Definition gamePlayData (productId : ObjectId) (u : User.t)
    : option PlayTime.t :=
  Array_find (λ pt, PlayTime.product pt = productId) (User.playTime u).

(** The first loop of the rating update: total playtime of the game. *)
Definition totalPlayTime (productId : ObjectId)
    (usersWhoPlayed : list (ObjectId * User.t)) : Q :=
  foldl (λ total u,
           match gamePlayData productId u.2 with
           | Some pt => (total + PlayTime.time pt)%Q
           | None => total
           end) 0%Q usersWhoPlayed.

(** [gamePlayData && gamePlayData.time > 0 && review.rating > 0] *)
Definition counts (pt : option PlayTime.t) (r : Review.t) : option Q :=
  match pt, Review.rating r with
  | Some pt, Some (Num q) =>
      if Qltb 0 (PlayTime.time pt) && Qltb 0 q
      then Some (PlayTime.time pt * q)%Q else None
  | _, _ => None
  end.

(** [Array.prototype.sort(cmp)].  The sort is stable, so for a comparator
    that orders the elements consistently the result is the one of a stable
    insertion sort: an element goes before the first one that [cmp] puts
    strictly after it. *)
Fixpoint sort_insert {A} (cmp : A → A → Q) (x : A) (l : list A) : list A :=
  match l with
  | [] => [x]
  | y :: l' =>
      if Qle_bool (cmp x y) 0 then x :: y :: l'
      else y :: sort_insert cmp x l'
  end.
Definition Array_sort {A} (cmp : A → A → Q) (l : list A) : list A :=
  foldr (sort_insert cmp) [] l.

(** ** Responses *)

(** One entry of the [comments] / [reviews] projections. *)
Record ReviewView := mkReviewView {
  view_user : ObjectId;
  view_rating : option number;
  view_comment : option string;
  userPlayTime : Q }.

Record GameView := mkGameView {
  game_id : ObjectId;
  game_playTime : Q;
  game_rating : Q;
  game_numReviews : Q;
  game_reviews : list ReviewView }.

Inductive Body :=
| message (m : string)
| errors (l : list string)
| playTimeUpdated (m : string) (playTime : Q)
| productRemoved (m : string) (affectedUsers : nat)
| productDoc (id : ObjectId) (p : Product.t)
| commentsOf (gameId : ObjectId) (gameName : string)
    (comments : list ReviewView)
| games (l : list GameView).

Record Reply := mkReply { status : nat; body : Body }.

Definition ServerError : Reply := mkReply 500 (message "Server Error").

(** A promise that is started and not awaited.  With one request at a time
    the task runs to its end before anything else touches the database. *)
Definition background (task : Async unit) : Async unit := task.

(** ** controllers/userController.js: the rating helper *)

Module userController.

(** The loop over the reviews: a review counts when its author is among the
    users who played, with a positive time and a positive rating. *)
Definition weightedSum (productId : ObjectId)
    (usersWhoPlayed : list (ObjectId * User.t)) (reviews : list Review.t) : Q :=
  foldl (λ sum review,
           match Array_find (λ u, u.1 = Review.user review) usersWhoPlayed with
           | Some reviewingUser =>
               match counts (gamePlayData productId reviewingUser.2) review with
               | Some c => (sum + c)%Q
               | None => sum
               end
           | None => sum
           end) 0%Q reviews.

Definition updateWeightedProductRating (productId : ObjectId) : Async unit :=
  try_catch
    (let* product := Model.Product_findById productId in
     match product with
     | None => ret tt
     | Some product =>
         let* usersWhoPlayed := Model.User_find (λ _, playTime_product productId) in
         match usersWhoPlayed with
         | [] => Model.Product_save productId (Product.set_rating 0 product)
         | _ :: _ =>
             let total := totalPlayTime productId usersWhoPlayed in
             let sum :=
               match Product.reviews product with
               | [] => 0%Q
               | _ :: _ =>
                   weightedSum productId usersWhoPlayed (Product.reviews product)
               end in
             Model.Product_save productId
               (Product.set_rating
                  (if Qltb 0 total then (sum / total)%Q else 0%Q) product)
         end
     end)
    (ret tt).

(** *** DELETE /api/users/:id *)
Definition deleteUser (userId : ObjectId) : Async Reply :=
  try_catch
    (let* user := Model.User_findById userId in
     match user with
     | None => ret (mkReply 404 (message "User not found"))
     | Some user =>
         let* productsWithUserInteraction :=
           Model.Product_find (λ _, reviews_user userId) in
         for_of productsWithUserInteraction
           (λ doc,
              let product := doc.2 in
              let product :=
                Product.set_reviews
                  (filter (λ review, Review.user review ≠ userId)
                     (Product.reviews product)) product in
              let product :=
                Product.set_numReviews (length_num (Product.reviews product))
                  product in
              Model.Product_save doc.1 product ;;
              updateWeightedProductRating doc.1) ;;
         Model.User_deleteOne userId ;;
         ret (mkReply 200 (message
           "User removed successfully and all associated data cleaned up"))
     end)
    (ret ServerError).

End userController.

(** ** controllers/productController.js *)

Module productController.

(** [.populate('reviews.user', ..)]: each review with the user document it
    refers to, [None] where no such user is stored. *)
Definition populate (reviews : list Review.t)
    : Async (list (Review.t * option ObjectId)) :=
  λ db, (Done (map (λ r, (r, (λ _, Review.user r) <$> users db !! Review.user r))
                 reviews), db).

(** The loop over the populated reviews; [review.user._id] throws on a
    review whose user is [null], once the callback of [find] runs. *)
Fixpoint weightedSum (productId : ObjectId)
    (usersWhoPlayed : list (ObjectId * User.t))
    (reviews : list (Review.t * option ObjectId)) (sum : Q) : Outcome Q :=
  match reviews with
  | [] => Done sum
  | (review, review_user) :: rest =>
      match review_user, usersWhoPlayed with
      | None, _ :: _ => Thrown
      | None, [] => weightedSum productId usersWhoPlayed rest sum
      | Some _id, _ =>
          match Array_find (λ u, u.1 = _id) usersWhoPlayed with
          | Some reviewingUser =>
              match counts (gamePlayData productId reviewingUser.2) review with
              | Some c => weightedSum productId usersWhoPlayed rest (sum + c)%Q
              | None => weightedSum productId usersWhoPlayed rest sum
              end
          | None => weightedSum productId usersWhoPlayed rest sum
          end
      end
  end.

Definition updateWeightedProductRating (productId : ObjectId) : Async unit :=
  try_catch
    (let* product := Model.Product_findById productId in
     match product with
     | None => ret tt
     | Some product =>
         let* reviews := populate (Product.reviews product) in
         let* usersWhoPlayed := Model.User_find (λ _, playTime_product productId) in
         match usersWhoPlayed with
         | [] => Model.Product_save productId (Product.set_rating 0 product)
         | _ :: _ =>
             let total := totalPlayTime productId usersWhoPlayed in
             match weightedSum productId usersWhoPlayed reviews 0%Q with
             | Thrown => throw
             | Done sum =>
                 Model.Product_save productId
                   (Product.set_rating
                      (if Qltb 0 total then (sum / total)%Q else 0%Q) product)
             end
         end
     end)
    (ret tt).

(** *** POST /api/products/:id/reviews *)

(** [rating] is [None] when [req.body.rating] is [undefined] and otherwise
    holds [Number(rating)]; [comment] likewise, a provided comment being a
    string. *)
Record ReviewRequest := mkReviewRequest {
  review_params_id : ObjectId;
  review_user_id : ObjectId;
  body_rating : option number;
  body_comment : option string }.

Definition requiredPlayTime : Z := 60.

Definition playtime_denial : string :=
  "You must play the game for at least " +:+ pretty requiredPlayTime
  +:+ " minutes to rate or comment.".

Definition addOrUpdateProductReview (req : ReviewRequest) : Async Reply :=
  let rating := body_rating req in
  let comment := body_comment req in
  let productId := review_params_id req in
  let userId := review_user_id req in
  if bool_decide (rating = None) && bool_decide (comment = None) then
    ret (mkReply 400 (message "Rating or comment is required"))
  else
  let numericRating := rating in
  if match numericRating with
     | Some n => JS.lt n (Num 1) || JS.gt n (Num 5)
     | None => false
     end
  then ret (mkReply 400 (message "Rating must be between 1 and 5"))
  else
  try_catch
    (let* product := Model.Product_findById productId in
     let* user := Model.User_findById userId in
     match product, user with
     | None, _ => ret (mkReply 404 (message "Product not found"))
     | Some _, None => ret (mkReply 404 (message "User not found"))
     | Some product, Some user =>
         let playTimeData := gamePlayData productId user in
         let userPlayTime :=
           match playTimeData with
           | Some pt => PlayTime.time pt
           | None => 0%Q
           end in
         if Qltb userPlayTime (inject_Z requiredPlayTime) then
           ret (mkReply 403 (message playtime_denial))
         else if bool_decide (numericRating ≠ None) && Product.disableRating product then
           ret (mkReply 403 (message
             "Rating is disabled for this product by the administrator."))
         else if bool_decide (comment ≠ None) && Product.disableCommenting product then
           ret (mkReply 403 (message
             "Commenting is disabled for this product by the administrator."))
         else
         let reviewIndex :=
           Array_findIndex (λ r, Review.user r = userId)
             (Product.reviews product) in
         match reviewIndex with
         | Some reviewIndex =>
             let update (r : Review.t) :=
               let r := match numericRating with
                        | Some n => Review.set_rating n r
                        | None => r
                        end in
               let r := match comment with
                        | Some c => Review.set_comment c r
                        | None => r
                        end in
               Review.set_name (User.name user) r in
             let product :=
               Product.set_reviews
                 (alter update reviewIndex (Product.reviews product)) product in
             Model.Product_save productId product ;;
             background (updateWeightedProductRating productId) ;;
             ret (mkReply 200 (message "Review updated"))
         | None =>
             if bool_decide (numericRating = None)
                && bool_decide (comment = None) then
               ret (mkReply 400 (message
                 "Cannot add an empty review. Rating or comment is required."))
             else
             let newReview :=
               Review.mk userId (User.name user) numericRating comment in
             let product :=
               Product.set_reviews (Product.reviews product ++ [newReview])
                 product in
             let product :=
               Product.set_numReviews (length_num (Product.reviews product))
                 product in
             Model.Product_save productId product ;;
             background (updateWeightedProductRating productId) ;;
             ret (mkReply 201 (message "Review added"))
         end
     end)
    (ret ServerError).

(** *** POST /api/products/:id/play *)

(** [play_time] is [Number(req.body.time)]; [play_errors] is what the
    validation chain of the route, [check('time', ..).isNumeric().isInt({
    min: 1 })], has recorded on the request. *)
Record PlayRequest := mkPlayRequest {
  play_params_id : ObjectId;
  play_user_id : ObjectId;
  play_time : number;
  play_errors : list string }.

Definition playGame (req : PlayRequest) : Async Reply :=
  try_catch
    (let productId := play_params_id req in
     let userId := play_user_id req in
     let playTime := play_time req in
     if JS.not playTime || JS.le playTime (Num 0) then
       ret (mkReply 400 (message "Valid playtime value is required"))
     else
     let* product := Model.Product_findById productId in
     match product with
     | None => ret (mkReply 404 (message "Game not found"))
     | Some product =>
     let* user := Model.User_findById userId in
     match user, playTime with
     | None, _ => ret (mkReply 404 (message "User not found"))
     | Some user, NaN => throw (* not reached: [!NaN] holds *)
     | Some user, Num minutes =>
         let playTimeIndex :=
           Array_findIndex (λ pt, PlayTime.product pt = productId)
             (User.playTime user) in
         let user :=
           match playTimeIndex with
           | Some playTimeIndex =>
               User.set_playTime
                 (alter (λ pt, PlayTime.mk (PlayTime.product pt)
                                 (PlayTime.time pt + minutes)%Q)
                    playTimeIndex (User.playTime user)) user
           | None =>
               User.set_playTime
                 (User.playTime user ++ [PlayTime.mk productId minutes]) user
           end in
         Model.User_save userId user ;;
         background (updateWeightedProductRating productId) ;;
         match gamePlayData productId user with
         | Some updatedPlayTime =>
             ret (mkReply 200 (playTimeUpdated "Playtime updated successfully"
                                 (PlayTime.time updatedPlayTime)))
         | None => throw
         end
     end
     end)
    (ret ServerError).

(** *** DELETE /api/products/:id *)
Definition deleteProduct (productId : ObjectId) : Async Reply :=
  try_catch
    (let* product := Model.Product_findById productId in
     match product with
     | None => ret (mkReply 404 (message "Product not found"))
     | Some product =>
         let* usersWithPlaytime :=
           Model.User_find (λ _, playTime_product productId) in
         for_of usersWithPlaytime
           (λ doc,
              let user :=
                User.set_playTime
                  (filter (λ pt, PlayTime.product pt ≠ productId)
                     (User.playTime doc.2)) doc.2 in
              Model.User_save doc.1 user) ;;
         Model.Product_deleteOne productId ;;
         ret (mkReply 200 (productRemoved
           "Product removed successfully and all associated user data cleaned up"
           (length usersWithPlaytime)))
     end)
    (ret ServerError).

(** *** POST /api/products and PUT /api/products/:id *)

(** A field of the body beyond the seven that the handlers destructure.
    The embedding covers the two Number paths of the schema that the
    properties below speak about, set to a JSON number, and the fields
    outside the schema.  The keys [reviews] and [user], which the handlers
    would copy onto the document as well, are not among them: what is
    stated about the owner and the review list of a game is stated for the
    requests other than the two admin writes. *)
Inductive OtherField :=
| field_numReviews (v : Q)
| field_rating (v : Q)
| field_extra (key : string) (v : json).

Inductive Category :=
| category_undefined
| category_other
| category_array (l : list string).

Record ProductBody := mkProductBody {
  body_name : option string;
  body_description : option string;
  body_image : option string;
  body_brand : option string;
  body_category : Category;
  body_disableRating : option bool;
  body_disableCommenting : option bool;
  otherFields : list OtherField }.

(** [product_errors] are the errors that the validation chains of the route
    have recorded, read back by [validationResult(req)]; they travel with
    the request and are not computed from the body.  [product_new_id] is
    the [_id] given to a new document. *)
Record ProductRequest := mkProductRequest {
  product_params_id : ObjectId;
  product_user_id : ObjectId;
  product_new_id : ObjectId;
  product_errors : list string;
  product_body : ProductBody }.

(** [product[key] = value] *)
Definition assign (f : OtherField) (p : Product.t) : Product.t :=
  match f with
  | field_numReviews v => Product.set_numReviews v p
  | field_rating v => Product.set_rating v p
  | field_extra key v => Product.set_extra (<[key := v]> (Product.extra p)) p
  end.

(** [a || b] on strings: the empty string and [undefined] are falsy. *)
Definition or_string (a : option string) (b : string) : string :=
  match a with
  | Some s => if String.eqb s "" then b else s
  | None => b
  end.

Definition invalid_category (c : Category) : bool :=
  match c with
  | category_array l => bool_decide (length l < 1) || bool_decide (5 < length l)
  | _ => true
  end.

(** [image.startsWith('data:image')] and not one of the three formats. *)
Definition invalid_format (image : string) : bool :=
  String.prefix "data:image" image
  && negb (String.prefix "data:image/png;base64," image
           || String.prefix "data:image/jpeg;base64," image
           || String.prefix "data:image/jpg;base64," image).

Definition createProduct (req : ProductRequest) : Async Reply :=
  try_catch
    (let b := product_body req in
     if negb (bool_decide (product_errors req = [])) then
       ret (mkReply 400 (errors (product_errors req)))
     else if invalid_category (body_category b) then
       ret (mkReply 400 (message "Category must be an array with 1-5 genres"))
     else if invalid_format (or_string (body_image b) "") then
       ret (mkReply 400 (message "Image must be PNG or JPG/JPEG format"))
     else if String.eqb (or_string (body_image b) "") "" then
       ret (mkReply 400 (message "Image is required"))
     else
     let product :=
       Product.mk (product_user_id req)
         (default "" (body_name b))
         (or_string (body_image b) "")
         (default "" (body_brand b))
         (match body_category b with category_array l => l | _ => [] end)
         (default "" (body_description b))
         [] 0 0
         (default false (body_disableRating b))
         (default false (body_disableCommenting b))
         ∅ in
     let product := foldl (λ p f, assign f p) product (otherFields b) in
     Model.Product_save (product_new_id req) product ;;
     ret (mkReply 201 (productDoc (product_new_id req) product)))
    (ret ServerError).

Definition updateProduct (req : ProductRequest) : Async Reply :=
  try_catch
    (let b := product_body req in
     if negb (bool_decide (product_errors req = [])) then
       ret (mkReply 400 (errors (product_errors req)))
     else if match body_category b with
             | category_undefined => false
             | c => invalid_category c
             end then
       ret (mkReply 400 (message "Category must be an array with 1-5 genres"))
     else if invalid_format (or_string (body_image b) "") then
       ret (mkReply 400 (message "Image must be PNG or JPG/JPEG format"))
     else
     let productId := product_params_id req in
     let* product := Model.Product_findById productId in
     match product with
     | Some product =>
         let product :=
           Product.mk (Product.user product)
             (or_string (body_name b) (Product.name product))
             (or_string (body_image b) (Product.image product))
             (or_string (body_brand b) (Product.brand product))
             (match body_category b with
              | category_array l => l
              | _ => Product.category product
              end)
             (or_string (body_description b) (Product.description product))
             (Product.reviews product) (Product.rating product)
             (Product.numReviews product)
             (default (Product.disableRating product) (body_disableRating b))
             (default (Product.disableCommenting product)
                (body_disableCommenting b))
             (Product.extra product) in
         let product := foldl (λ p f, assign f p) product (otherFields b) in
         Model.Product_save productId product ;;
         ret (mkReply 200 (productDoc productId product))
     | None => ret (mkReply 404 (message "Product not found"))
     end)
    (ret ServerError).

(** *** The read projections *)

(** [review.user._id] on a populated review: throws when the user is
    [null]. *)
Definition user_id (r : Review.t * option ObjectId) : Outcome ObjectId :=
  match r.2 with
  | Some _id => Done _id
  | None => Thrown
  end.

(** [reviews.map(f)] for a callback that may throw. *)
Fixpoint map_throwing {A B} (f : A → Outcome B) (l : list A)
    : Outcome (list B) :=
  match l with
  | [] => Done []
  | x :: l' =>
      match f x with
      | Thrown => Thrown
      | Done y =>
          match map_throwing f l' with
          | Thrown => Thrown
          | Done ys => Done (y :: ys)
          end
      end
  end.

Definition lift {A} (o : Outcome A) : Async A := λ db, (o, db).

(** GET /api/products/:id *)
Definition getProductById (id : ObjectId) : Async Reply :=
  try_catch
    (let* product := Model.Product_findById id in
     match product with
     | Some product =>
         match Product.reviews product with
         | [] => ret (mkReply 200 (productDoc id product))
         | _ :: _ =>
             let* reviews := populate (Product.reviews product) in
             let* ids := lift (map_throwing user_id reviews) in
             let userIds := remove_dups ids in
             let* usersWithPlaytime :=
               Model.User_find
                 (λ _id u, _id ∈ userIds ∧ playTime_product id u) in
             let playtimeMap : gmap string Q :=
               foldl (λ map user,
                        let ptEntry := gamePlayData id user.2 in
                        <[user.1 := match ptEntry with
                                    | Some pt => PlayTime.time pt
                                    | None => 0%Q
                                    end]> map)
                 ∅ usersWithPlaytime in
             let sorted :=
               Array_sort
                 (λ a b,
                    let playtimeA := JS.or0 (playtimeMap !! Review.user a) in
                    let playtimeB := JS.or0 (playtimeMap !! Review.user b) in
                    (playtimeB - playtimeA)%Q)
                 (Product.reviews product) in
             ret (mkReply 200 (productDoc id (Product.set_reviews sorted product)))
         end
     | None => ret (mkReply 404 (message "Product not found"))
     end)
    (ret ServerError).

(** The object [userPlaytimeMap] of the two projections below. *)
Definition userPlaytimeMap (productId : ObjectId)
    (usersWhoPlayed : list (ObjectId * User.t)) : gmap string Q :=
  foldl (λ map user,
           match gamePlayData productId user.2 with
           | Some pt => <[user.1 := PlayTime.time pt]> map
           | None => map
           end) ∅ usersWhoPlayed.

(** The reviews with [userPlayTime] added, sorted by it. *)
Definition withPlaytime (map : gmap string Q)
    (reviews : list (Review.t * option ObjectId)) : Outcome (list ReviewView) :=
  match map_throwing
          (λ review,
             match user_id review with
             | Thrown => Thrown
             | Done _id =>
                 Done (mkReviewView _id (Review.rating review.1)
                         (Review.comment review.1) (JS.or0 (map !! _id)))
             end) reviews with
  | Thrown => Thrown
  | Done views =>
      Done (Array_sort (λ a b, (userPlayTime b - userPlayTime a)%Q) views)
  end.

(** GET /api/products/:id/comments *)
Definition getProductComments (id : ObjectId) : Async Reply :=
  try_catch
    (let* product := Model.Product_findById id in
     match product with
     | None => ret (mkReply 404 (message "Product not found"))
     | Some product =>
         let* reviews := populate (Product.reviews product) in
         let* usersWhoPlayed := Model.User_find (λ _, playTime_product id) in
         let* commentsWithPlaytime :=
           lift (withPlaytime (userPlaytimeMap id usersWhoPlayed) reviews) in
         ret (mkReply 200
                (commentsOf id (Product.name product) commentsWithPlaytime))
     end)
    (ret ServerError).

(** [products.map(async (product) => ..)] under [Promise.all]. *)
Fixpoint map_async {A B} (f : A → Async B) (l : list A) : Async (list B) :=
  match l with
  | [] => ret []
  | x :: l' =>
      let* y := f x in
      let* ys := map_async f l' in
      ret (y :: ys)
  end.

(** GET /api/products/detailed *)
Definition getDetailedProducts : Async Reply :=
  try_catch
    (let* products := Model.Product_find (λ _ _, True) in
     let* detailedProducts :=
       map_async
         (λ doc,
            let product := doc.2 in
            let* reviews := populate (Product.reviews product) in
            let* usersWhoPlayed :=
              Model.User_find (λ _, playTime_product doc.1) in
            let total := totalPlayTime doc.1 usersWhoPlayed in
            let* reviewsWithPlaytime :=
              lift (withPlaytime (userPlaytimeMap doc.1 usersWhoPlayed)
                      reviews) in
            ret (mkGameView doc.1 total (Product.rating product)
                   (Product.numReviews product) reviewsWithPlaytime))
         products in
     ret (mkReply 200 (games detailedProducts)))
    (ret ServerError).

End productController.

(** A request handler answers with the reply it computes; the database it
    leaves behind is the second component. *)
Definition handle (h : Async Reply) (db : DB) : Reply * DB :=
  match h db with
  | (Done r, db') => (r, db')
  | (Thrown, db') => (ServerError, db')
  end.

(** ** The rating update as a function of the database *)

(** The users that [User.find({ 'playTime.product': productId })] returns. *)
Definition usersWhoPlayed (productId : ObjectId) (db : DB)
    : list (ObjectId * User.t) :=
  filter (λ x, playTime_product productId x.2) (map_to_list (users db)).

Definition quotient (sum total : Q) : Q :=
  if Qltb 0 total then (sum / total)%Q else 0%Q.

Module userRating.
(** The value that [userController.updateWeightedProductRating] assigns to
    [product.rating]. *)
Definition value (productId : ObjectId) (db : DB) (product : Product.t) : Q :=
  match usersWhoPlayed productId db with
  | [] => 0%Q
  | _ :: _ =>
      quotient
        (userController.weightedSum productId (usersWhoPlayed productId db)
           (Product.reviews product))
        (totalPlayTime productId (usersWhoPlayed productId db))
  end.
End userRating.

(** The reviews as [populate] returns them. *)
Definition populated (db : DB) (reviews : list Review.t)
    : list (Review.t * option ObjectId) :=
  map (λ r, (r, (λ _, Review.user r) <$> users db !! Review.user r)) reviews.

Module productRating.
(** The value that [productController.updateWeightedProductRating] assigns
    to [product.rating]; [None] when the loop over the reviews throws. *)
Definition value (productId : ObjectId) (db : DB) (product : Product.t)
    : option Q :=
  match usersWhoPlayed productId db with
  | [] => Some 0%Q
  | _ :: _ =>
      match productController.weightedSum productId
              (usersWhoPlayed productId db)
              (populated db (Product.reviews product)) 0%Q with
      | Done sum =>
          Some (quotient sum
                  (totalPlayTime productId (usersWhoPlayed productId db)))
      | Thrown => None
      end
  end.
End productRating.

(** ** The two sums of the rating, user by user

    [Σ(time_u * rating_u)] and [Σ(time_u)] over the users that the query of
    the helper returns, [time_u] and [rating_u] read with the lookups of
    the controller ([find] on the ledger and on the reviews). *)
Module Spec.
Definition Qsum (l : list Q) : Q := foldr Qplus 0%Q l.

(** [time_u]: what the ledger of the user holds for the game. *)
Definition time_of (productId : ObjectId) (u : User.t) : Q :=
  match gamePlayData productId u with
  | Some pt => PlayTime.time pt
  | None => 0%Q
  end.

(** [rating_u] *)
Definition rating_of (reviews : list Review.t) (userId : ObjectId)
    (time_u : Q) : Q :=
  match Array_find (λ r, Review.user r = userId) reviews with
  | Some r =>
      match Review.rating r with
      | Some (Num q) => if Qltb 0 time_u && Qltb 0 q then q else 0%Q
      | _ => 0%Q
      end
  | None => 0%Q
  end.

Definition totalPlayTime (productId : ObjectId) (db : DB) : Q :=
  Qsum (map (λ u, time_of productId u.2) (usersWhoPlayed productId db)).

Definition weighted (productId : ObjectId) (db : DB)
    (reviews : list Review.t) : Q :=
  Qsum (map (λ u, (time_of productId u.2
                   * rating_of reviews u.1 (time_of productId u.2))%Q)
          (usersWhoPlayed productId db)).

End Spec.

(** What one review adds to [weightedSum]. *)
Definition contribution (productId : ObjectId)
    (usersWhoPlayed : list (ObjectId * User.t)) (review : Review.t) : Q :=
  match Array_find (λ u, u.1 = Review.user review) usersWhoPlayed with
  | Some reviewingUser =>
      match counts (gamePlayData productId reviewingUser.2) review with
      | Some c => c
      | None => 0%Q
      end
  | None => 0%Q
  end.

(** At most one review per user in the review list of a game. *)
Definition one_review_per_user (reviews : list Review.t) : Prop :=
  NoDup (Review.user <$> reviews).

(** Every review refers to a stored user. *)
Definition authors_stored (db : DB) (reviews : list Review.t) : Prop :=
  Forall (λ r, is_Some (users db !! Review.user r)) reviews.

(** Every rating stored with a review of the list lies in [1,5]. *)
Definition ratings_1_5 (reviews : list Review.t) : Prop :=
  ∀ r q, r ∈ reviews → Review.rating r = Some (Num q) → (1 <= q <= 5)%Q.

(** ** A sample state

    The scenario of the specification: A plays G for 120 minutes and rates
    it 5, B plays G for 80 minutes and rates it 3. *)
Module Sample.
Definition G : Product.t :=
  Product.mk "admin" "Cyber Odyssey" "https://example.com/g.png"
    "Neon Dreams Studio" ["RPG"; "Sci-Fi"]
    "Explore a vast cyberpunk city."
    [Review.mk "A" "Alice" (Some (Num 5)) (Some "Amazing open world!");
     Review.mk "B" "Bob" (Some (Num 3)) (Some "Solid RPG mechanics.")]
    0 2 false false ∅.
Definition db : DB :=
  mkDB {[ "A" := User.mk "Alice" [PlayTime.mk "G" 120];
          "B" := User.mk "Bob" [PlayTime.mk "G" 80] ]}
       {[ "G" := G ]}.
End Sample.

(** ** Sequences of play calls *)

(** The cumulative time stored for a (user, game) pair, 0 without entry. *)
Definition storedTime (db : DB) (userId productId : ObjectId) : Q :=
  match users db !! userId with
  | Some u => Spec.time_of productId u
  | None => 0%Q
  end.

(** The play calls of a list handled one after the other: the replies and
    the database at the end. *)
Fixpoint play_calls (calls : list productController.PlayRequest) (db : DB)
    : list Reply * DB :=
  match calls with
  | [] => ([], db)
  | c :: cs =>
      let r := handle (productController.playGame c) db in
      let rs := play_calls cs r.2 in
      (r.1 :: rs.1, rs.2)
  end.

Definition minutes_of (c : productController.PlayRequest) : Q :=
  match productController.play_time c with
  | Num minutes => minutes
  | NaN => 0%Q
  end.


(** A creation, an increment and the value returned by each call: the user
    of the sample state, who has played G for 120 minutes, plays it for 30
    more and then a game without entry for 45. *)
Definition sample_calls : list productController.PlayRequest :=
  [productController.mkPlayRequest "G" "A" (Num 30) [];
   productController.mkPlayRequest "H" "A" (Num 45) []].
Definition sample_db2 : DB :=
  mkDB (users Sample.db) (<["H" := Sample.G]> (products Sample.db)).


(** ** The rating rule in the words of the specification *)

(** "If a rating is provided it must be an integer in [1,5]". *)
Definition integer_1_5 (n : number) : Prop :=
  match n with
  | Num q => ∃ z : Z, (q == inject_Z z)%Q ∧ (1 ≤ z ≤ 5)%Z
  | NaN => False
  end.

Definition invalid_rating : Reply :=
  mkReply 400 (message "Rating must be between 1 and 5").

Definition insufficient_playtime : Reply :=
  mkReply 403 (message
    "You must play the game for at least 60 minutes to rate or comment.").

(** "... otherwise the request is denied as an invalid rating", for every
    request that provides a rating or a comment. *)
Definition rating_rule_as_specified : Prop :=
  ∀ (req : productController.ReviewRequest) (db : DB) (n : number),
    productController.body_rating req = Some n →
    ¬ integer_1_5 n →
    (handle (productController.addOrUpdateProductReview req) db).1
    = invalid_rating.

(** ** Further sample requests and states *)

Module Sample2.
(** C has played G for exactly 60 minutes and has not reviewed it; D has
    played it for 59 minutes. *)
Definition db : DB :=
  mkDB (<["C" := User.mk "Carol" [PlayTime.mk "G" 60]]>
          (<["D" := User.mk "Dan" [PlayTime.mk "G" 59]]> (users Sample.db)))
       (products Sample.db).

Definition comment_only : productController.ReviewRequest :=
  productController.mkReviewRequest "G" "C" None (Some "Great story").
Definition rating_only : productController.ReviewRequest :=
  productController.mkReviewRequest "G" "C" (Some (Num 4)) None.
Definition half_rating : productController.ReviewRequest :=
  productController.mkReviewRequest "G" "C" (Some (Num (5 # 2)))
    (Some "Great story").
Definition by_D : productController.ReviewRequest :=
  productController.mkReviewRequest "G" "D" (Some (Num 4)) (Some "Fine").
Definition by_C : productController.ReviewRequest :=
  productController.mkReviewRequest "G" "C" (Some (Num 4)) (Some "Fine").

(** A play request for two and a half minutes, with the error that the
    validation chain of the route records for it. *)
Definition half_play : productController.PlayRequest :=
  productController.mkPlayRequest "G" "C" (Num (5 # 2))
    ["Playtime in minutes is required"].

(** An admin update that passes every check of the route and carries
    [numReviews: 7] next to the fields the handler destructures. *)
Definition update_numReviews : productController.ProductRequest :=
  productController.mkProductRequest "G" "admin" "G" []
    (productController.mkProductBody (Some "Cyber Odyssey")
       (Some "Explore a vast cyberpunk city.")
       (Some "https://example.com/g.png") (Some "Neon Dreams Studio")
       productController.category_undefined None None
       [productController.field_numReviews 7]).
Definition create_numReviews : productController.ProductRequest :=
  productController.mkProductRequest "" "admin" "N" []
    (productController.mkProductBody (Some "Pixel Racers Turbo")
       (Some "High-octane retro racing.")
       (Some "https://example.com/n.png") (Some "RetroRev Games")
       (productController.category_array ["Racing"]) None None
       [productController.field_numReviews 7]).
End Sample2.

(** ** The review store after a submission *)

(** The review at [reviewIndex] after an update by [user]. *)
Definition updatedReview (user : User.t) (rating : option number)
    (comment : option string) (r : Review.t) : Review.t :=
  let r := match rating with
           | Some n => Review.set_rating n r
           | None => r
           end in
  let r := match comment with
           | Some c => Review.set_comment c r
           | None => r
           end in
  Review.set_name (User.name user) r.

Definition withUpdatedReview (reviewIndex : nat) (user : User.t)
    (rating : option number) (comment : option string) (p : Product.t)
    : Product.t :=
  Product.set_reviews
    (alter (updatedReview user rating comment) reviewIndex (Product.reviews p))
    p.

Definition withNewReview (userId : ObjectId) (user : User.t)
    (rating : option number) (comment : option string) (p : Product.t)
    : Product.t :=
  let p := Product.set_reviews
             (Product.reviews p
              ++ [Review.mk userId (User.name user) rating comment]) p in
  Product.set_numReviews (length_num (Product.reviews p)) p.

(** The database once the rating update of the product controller has run. *)
Definition recomputed (productId : ObjectId) (db : DB) : DB :=
  (productController.updateWeightedProductRating productId db).2.

(** ** The order of the read projections *)




(** The sample state with the two reviews of G stored in the other order. *)
Definition sample_db3 : DB :=
  mkDB (users Sample.db)
    {[ "G" := Product.set_reviews (reverse (Product.reviews Sample.G))
                Sample.G ]}.

(** ** The documents after a clean-up *)

(** The ledger of a user without the entries of a game. *)
Definition withoutGame (productId : ObjectId) (u : User.t) : User.t :=
  User.set_playTime
    (filter (λ pt, PlayTime.product pt ≠ productId) (User.playTime u)) u.

(** A game without the reviews of a user, its count brought up to date. *)
Definition withoutReviewsOf (userId : ObjectId) (p : Product.t) : Product.t :=
  let p := Product.set_reviews
             (filter (λ review, Review.user review ≠ userId)
                (Product.reviews p)) p in
  Product.set_numReviews (length_num (Product.reviews p)) p.

(** The invariant of the review store: the count is the length of the
    list, and no user has two reviews of the game. *)
Definition review_store_ok (p : Product.t) : Prop :=
  Product.numReviews p = length_num (Product.reviews p)
  ∧ one_review_per_user (Product.reviews p).

Definition is_numReviews (f : productController.OtherField) : Prop :=
  match f with
  | productController.field_numReviews _ => True
  | _ => False
  end.

(** ** The ledger after a play call *)

(** The user document that [playGame] saves: the entry of the game
    incremented, or a new entry pushed. *)
Definition withPlay (productId : ObjectId) (minutes : Q) (u : User.t)
    : User.t :=
  match Array_findIndex (λ pt, PlayTime.product pt = productId)
          (User.playTime u) with
  | Some playTimeIndex =>
      User.set_playTime
        (alter (λ pt, PlayTime.mk (PlayTime.product pt)
                        (PlayTime.time pt + minutes)%Q)
           playTimeIndex (User.playTime u)) u
  | None =>
      User.set_playTime (User.playTime u ++ [PlayTime.mk productId minutes]) u
  end.

(** ** The routes and the invariants of the stored data *)

(** routes/productRoutes.js and the deletion route of routes/userRoutes.js:
    the handler that each route of the catalogue ends in.  The middleware in
    front of it ([protect], [admin]) settles who may call and is left out;
    what the validation chains record travels in the request. *)
Inductive Request :=
| GET_products_detailed
| GET_products_id (id : ObjectId)
| GET_products_id_comments (id : ObjectId)
| POST_products_id_reviews (req : productController.ReviewRequest)
| POST_products_id_play (req : productController.PlayRequest)
| POST_products (req : productController.ProductRequest)
| PUT_products_id (req : productController.ProductRequest)
| DELETE_products_id (id : ObjectId)
| DELETE_users_id (id : ObjectId).

Definition router (r : Request) : Async Reply :=
  match r with
  | GET_products_detailed => productController.getDetailedProducts
  | GET_products_id id => productController.getProductById id
  | GET_products_id_comments id => productController.getProductComments id
  | POST_products_id_reviews req =>
      productController.addOrUpdateProductReview req
  | POST_products_id_play req => productController.playGame req
  | POST_products req => productController.createProduct req
  | PUT_products_id req => productController.updateProduct req
  | DELETE_products_id id => productController.deleteProduct id
  | DELETE_users_id id => userController.deleteUser id
  end.

(** The database after a list of requests, served one after the other. *)
Definition serve (requests : list Request) (db : DB) : DB :=
  foldl (λ db r, (handle (router r) db).2) db requests.

(** Every stored game passes the validation of its schema. *)
Definition documents_valid (db : DB) : Prop :=
  ∀ id p, products db !! id = Some p → Product_validate p = true.

(** No game holds two reviews of one user. *)
Definition reviews_unique (db : DB) : Prop :=
  ∀ id p, products db !! id = Some p → one_review_per_user (Product.reviews p).

(** No ledger holds two entries of one game. *)
Definition ledgers_unique (db : DB) : Prop :=
  ∀ id u, users db !! id = Some u →
    NoDup (PlayTime.product <$> User.playTime u).

(** Every entry of every ledger holds a positive time. *)
Definition ledgers_positive (db : DB) : Prop :=
  ∀ id u pt, users db !! id = Some u → pt ∈ User.playTime u →
    (0 < PlayTime.time pt)%Q.

(** The document that [createProduct] builds from a request. *)
Definition newProduct (req : productController.ProductRequest) : Product.t :=
  let b := productController.product_body req in
  foldl (λ p f, productController.assign f p)
    (Product.mk (productController.product_user_id req)
       (default "" (productController.body_name b))
       (productController.or_string (productController.body_image b) "")
       (default "" (productController.body_brand b))
       (match productController.body_category b with
        | productController.category_array l => l
        | _ => []
        end)
       (default "" (productController.body_description b))
       [] 0 0
       (default false (productController.body_disableRating b))
       (default false (productController.body_disableCommenting b))
       ∅)
    (productController.otherFields b).

(** The document that [updateProduct] saves in place of [product]. *)
Definition updatedProduct (req : productController.ProductRequest)
    (product : Product.t) : Product.t :=
  let b := productController.product_body req in
  foldl (λ p f, productController.assign f p)
    (Product.mk (Product.user product)
       (productController.or_string (productController.body_name b)
          (Product.name product))
       (productController.or_string (productController.body_image b)
          (Product.image product))
       (productController.or_string (productController.body_brand b)
          (Product.brand product))
       (match productController.body_category b with
        | productController.category_array l => l
        | _ => Product.category product
        end)
       (productController.or_string (productController.body_description b)
          (Product.description product))
       (Product.reviews product) (Product.rating product)
       (Product.numReviews product)
       (default (Product.disableRating product)
          (productController.body_disableRating b))
       (default (Product.disableCommenting product)
          (productController.body_disableCommenting b))
       (Product.extra product))
    (productController.otherFields b).

(** Where the review list [l] of the game [id] comes from, once the request
    [r] has been served in [db]: it is empty, the list the game had, that
    list without the reviews of the deleted user, that list with one review
    updated in place, or that list with one review pushed at the end. *)
Definition reviews_origin (r : Request) (db : DB) (id : ObjectId)
    (l : list Review.t) : Prop :=
  l = []
  ∨ ∃ p, products db !! id = Some p
         ∧ (l = Product.reviews p
            ∨ (∃ userId,
                 r = DELETE_users_id userId
                 ∧ l = filter (λ review, Review.user review ≠ userId)
                         (Product.reviews p))
            ∨ (∃ req u i,
                 r = POST_products_id_reviews req
                 ∧ users db !! productController.review_user_id req = Some u
                 ∧ Array_findIndex
                     (λ x, Review.user x
                           = productController.review_user_id req)
                     (Product.reviews p) = Some i
                 ∧ l = alter (updatedReview u
                                (productController.body_rating req)
                                (productController.body_comment req))
                         i (Product.reviews p))
            ∨ (∃ req u,
                 r = POST_products_id_reviews req
                 ∧ users db !! productController.review_user_id req = Some u
                 ∧ Array_findIndex
                     (λ x, Review.user x
                           = productController.review_user_id req)
                     (Product.reviews p) = None
                 ∧ l = Product.reviews p
                       ++ [Review.mk (productController.review_user_id req)
                             (User.name u)
                             (productController.body_rating req)
                             (productController.body_comment req)])).

(** The count of every stored game is the length of its review list. *)
Definition counts_match (db : DB) : Prop :=
  ∀ id p, products db !! id = Some p →
    Product.numReviews p = length_num (Product.reviews p).

(** An admin request whose body carries [numReviews]. *)
Definition carries_numReviews (r : Request) : Prop :=
  match r with
  | POST_products req | PUT_products_id req =>
      Exists is_numReviews
        (productController.otherFields (productController.product_body req))
  | _ => False
  end.

(** Requests served in the sample state: a play call, a first review with
    both fields, an update of that review by its comment alone, and the
    deletion of a user who has reviewed the game. *)
Definition sample_requests : list Request :=
  [POST_products_id_play
     (productController.mkPlayRequest "G" "C" (Num 30) []);
   POST_products_id_reviews Sample2.by_C;
   POST_products_id_reviews Sample2.comment_only;
   DELETE_users_id "A"].

(** The sample state once the user B has been removed behind the back of
    the handlers: B's review of G refers to nobody. *)
Definition dangling_db : DB :=
  mkDB (delete "B" (users Sample.db)) (products Sample.db).

(** The sample state of [Sample2] with rating disabled for the game. *)
Definition locked_db : DB :=
  mkDB (users Sample2.db)
    {[ "G" := Product.mk "admin" "Cyber Odyssey" "https://example.com/g.png"
                "Neon Dreams Studio" ["RPG"; "Sci-Fi"]
                "Explore a vast cyberpunk city."
                (Product.reviews Sample.G) 0 2 true false ∅ ]}.

(** ** seeder.js *)

Module seeder.

(** [simulateInteraction(user, product, time, rating, comment)].  [user] and
    [product] are the documents that the caller holds, [None] for a missing
    one; the result holds them as the call leaves them. *)
Definition simulateInteraction (user : option (ObjectId * User.t))
    (product : option (ObjectId * Product.t)) (time : Q)
    (rating : option number) (comment : option string)
    : Async (option (ObjectId * User.t) * option (ObjectId * Product.t)) :=
  match user, product with
  | Some (userId, user), Some (productId, product) =>
      let user := withPlay productId time user in
      Model.User_save userId user ;;
      if Qle_bool 60 time then
        let canRate :=
          bool_decide (rating ≠ None) && negb (Product.disableRating product) in
        let canComment :=
          bool_decide (comment ≠ None)
          && negb (Product.disableCommenting product) in
        match Array_findIndex (λ r, Review.user r = userId)
                (Product.reviews product) with
        | Some reviewIndex =>
            let reviewUpdated := canRate || canComment in
            let product :=
              Product.set_reviews
                (alter (λ r,
                          let r := match rating with
                                   | Some n =>
                                       if canRate then Review.set_rating n r
                                       else r
                                   | None => r
                                   end in
                          let r := match comment with
                                   | Some c =>
                                       if canComment
                                       then Review.set_comment c r else r
                                   | None => r
                                   end in
                          if reviewUpdated
                          then Review.set_name (User.name user) r else r)
                   reviewIndex (Product.reviews product)) product in
            if reviewUpdated then
              let product :=
                Product.set_numReviews (length_num (Product.reviews product))
                  product in
              Model.Product_save productId product ;;
              ret (Some (userId, user), Some (productId, product))
            else ret (Some (userId, user), Some (productId, product))
        | None =>
            if canRate || canComment then
              let product :=
                withNewReview userId user (if canRate then rating else None)
                  (if canComment then comment else None) product in
              Model.Product_save productId product ;;
              ret (Some (userId, user), Some (productId, product))
            else ret (Some (userId, user), Some (productId, product))
        end
      else ret (Some (userId, user), Some (productId, product))
  | _, _ => ret (user, product)
  end.

End seeder.

(** ** controllers/userController.js: the statistics of a user *)

(** [{ _id, name, image, category, brand }] *)
Record GameCard := mkGameCard {
  card_id : ObjectId;
  card_name : string;
  card_image : string;
  card_category : list string;
  card_brand : string }.

(** [mostPlayedGame] of the user page. *)
Record PageGame := mkPageGame {
  page_game_id : ObjectId;
  page_game_name : string;
  page_game_image : string;
  page_game_category : list string;
  page_game_playTime : Q }.

(** One entry of [comments] of the user page. *)
Record UserComment := mkUserComment {
  comment_gameId : ObjectId;
  comment_gameName : string;
  comment_gameImage : string;
  comment_category : list string;
  comment_text : string;
  comment_playTime : Q;
  comment_rating : option number }.

Inductive UserBody :=
| user_message (m : string)
| statsOf (totalPlayTime averageRating : Q) (ratingCount : nat)
| mostPlayedOf (game : GameCard) (playTime : Q)
| pageOf (userName : string) (averageRating totalPlayTime : Q)
    (mostPlayedGame : option PageGame) (comments : list UserComment).

Record UserReply := mkUserReply { user_status : nat; user_body : UserBody }.

Definition handle_user (h : Async UserReply) (db : DB) : UserReply * DB :=
  match h db with
  | (Done r, db') => (r, db')
  | (Thrown, db') => (mkUserReply 500 (user_message "Server Error"), db')
  end.

Module userStatistics.

(** [user.playTime.reduce((total, game) => total + game.time, 0)] *)
Definition totalPlayTime (playTime : list PlayTime.t) : Q :=
  foldl (λ total game, (total + PlayTime.time game)%Q) 0%Q playTime.

(** [userReview.rating] as a condition: [undefined], [NaN] and [0] are
    falsy. *)
Definition rated (userReview : Review.t) : option Q :=
  match Review.rating userReview with
  | Some (Num q) => if JS.not (Num q) then None else Some q
  | _ => None
  end.

(** The [forEach] over the products that hold a review of the user:
    [(totalRating, ratingCount)] at its end. *)
Definition ratings (userId : ObjectId)
    (productsWithUserReviews : list (ObjectId * Product.t)) : Q * nat :=
  foldl (λ acc product,
           match Array_find (λ review, Review.user review = userId)
                   (Product.reviews product.2) with
           | Some userReview =>
               match rated userReview with
               | Some q => ((acc.1 + q)%Q, S acc.2)
               | None => acc
               end
           | None => acc
           end) (0%Q, 0) productsWithUserReviews.

(** [ratingCount > 0 ? totalRating / ratingCount : 0] *)
Definition average (s : Q * nat) : Q :=
  if bool_decide (0 < s.2) then (s.1 / inject_Z (Z.of_nat s.2))%Q else 0%Q.

(** *** GET /api/users/stats *)
Definition getUserStats (userId : ObjectId) : Async UserReply :=
  try_catch
    (let* user := Model.User_findById userId in
     match user with
     | None => ret (mkUserReply 404 (user_message "User not found"))
     | Some user =>
         let totalPlayTime := totalPlayTime (User.playTime user) in
         let* productsWithUserReviews :=
           Model.Product_find (λ _, reviews_user userId) in
         let s := ratings userId productsWithUserReviews in
         ret (mkUserReply 200 (statsOf totalPlayTime (average s) s.2))
     end)
    (ret (mkUserReply 500 (user_message "Server Error"))).

(** The [forEach] that looks for the maximum:
    [(maxPlayTime, mostPlayedGameId)] at its end. *)
Definition maxPlayTime (playTime : list PlayTime.t) : Q * option ObjectId :=
  foldl (λ acc game,
           if Qltb acc.1 (PlayTime.time game)
           then (PlayTime.time game, Some (PlayTime.product game))
           else acc) (0%Q, None) playTime.

(** *** GET /api/users/most-played *)
Definition getMostPlayedGame (userId : ObjectId) : Async UserReply :=
  try_catch
    (let* user := Model.User_findById userId in
     match user with
     | None => ret (mkUserReply 404 (user_message "User not found"))
     | Some user =>
         if bool_decide (length (User.playTime user) = 0) then
           ret (mkUserReply 404 (user_message "No games played yet"))
         else
         let m := maxPlayTime (User.playTime user) in
         match m.2 with
         | None => ret (mkUserReply 404 (user_message "No games played yet"))
         | Some mostPlayedGameId =>
             let* mostPlayedGame := Model.Product_findById mostPlayedGameId in
             match mostPlayedGame with
             | None => ret (mkUserReply 404 (user_message "Game not found"))
             | Some game =>
                 ret (mkUserReply 200
                        (mostPlayedOf
                           (mkGameCard mostPlayedGameId (Product.name game)
                              (Product.image game) (Product.category game)
                              (Product.brand game)) m.1))
             end
         end
     end)
    (ret (mkUserReply 500 (user_message "Server Error"))).

(** The loop of the user page over the ledger: a comment for every entry
    whose game is stored and holds a review of the user with a comment that
    is not empty. *)
Fixpoint comments_of (userId : ObjectId) (playTime : list PlayTime.t)
    (userComments : list UserComment) : Async (list UserComment) :=
  match playTime with
  | [] => ret userComments
  | pt :: rest =>
      let* game := Model.Product_findById (PlayTime.product pt) in
      let userComments :=
        match game with
        | Some game =>
            match Array_find (λ review, Review.user review = userId)
                    (Product.reviews game) with
            | Some userReview =>
                match Review.comment userReview with
                | Some c =>
                    if String.eqb c "" then userComments
                    else userComments
                         ++ [mkUserComment (PlayTime.product pt)
                               (Product.name game) (Product.image game)
                               (Product.category game) c (PlayTime.time pt)
                               (Review.rating userReview)]
                | None => userComments
                end
            | None => userComments
            end
        | None => userComments
        end in
      comments_of userId rest userComments
  end.

(** *** GET /api/users/page *)
Definition getUserPage (userId : ObjectId) : Async UserReply :=
  try_catch
    (let* user := Model.User_findById userId in
     match user with
     | None => ret (mkUserReply 404 (user_message "User not found"))
     | Some user =>
         let* productsRated := Model.Product_find (λ _, reviews_user userId) in
         let averageRating := average (ratings userId productsRated) in
         let totalPlayTime := totalPlayTime (User.playTime user) in
         let* mostPlayedGame :=
           match Array_sort (λ a b, (PlayTime.time b - PlayTime.time a)%Q)
                   (User.playTime user) with
           | first :: _ =>
               if Qltb 0 (PlayTime.time first) then
                 let* game := Model.Product_findById (PlayTime.product first) in
                 ret ((λ game,
                         mkPageGame (PlayTime.product first)
                           (Product.name game) (Product.image game)
                           (Product.category game) (PlayTime.time first))
                        <$> game)
               else ret None
           | [] => ret None
           end in
         let* userComments := comments_of userId (User.playTime user) [] in
         ret (mkUserReply 200
                (pageOf (User.name user) averageRating totalPlayTime
                   mostPlayedGame
                   (Array_sort
                      (λ a b, (comment_playTime b - comment_playTime a)%Q)
                      userComments)))
     end)
    (ret (mkUserReply 500 (user_message "Server Error"))).
End userStatistics.

(** Every stored rating of every game lies in [1,5]. *)
Definition ratings_in_range (db : DB) : Prop :=
  ∀ id p, products db !! id = Some p → ratings_1_5 (Product.reviews p).

(** The comment [c] of the user page comes from an entry of the ledger [l]:
    the game of the entry is stored, the first review that carries the id
    of the user holds the text of [c], which is not empty, and [c] carries
    the time of the entry and the rating of that review. *)
Definition comment_from (db : DB) (userId : ObjectId) (l : list PlayTime.t)
    (c : UserComment) : Prop :=
  ∃ pt game review,
    pt ∈ l
    ∧ products db !! PlayTime.product pt = Some game
    ∧ Array_find (λ review, Review.user review = userId)
        (Product.reviews game) = Some review
    ∧ Review.comment review = Some (comment_text c)
    ∧ comment_text c ≠ ""
    ∧ comment_gameId c = PlayTime.product pt
    ∧ comment_playTime c = PlayTime.time pt
    ∧ comment_rating c = Review.rating review.

(** * The arithmetic of the engine *)

(** ** Double precision

    A JavaScript number is an IEEE 754 binary64 value.  A finite double is
    a rational, and for [a + b], [a - b], [a * b] and [a / b] the engine
    returns the double nearest to the exact result, a tie going to the even
    significand.  [round] is that rounding on [Q].  It covers the finite
    range, normal and subnormal; the infinities that the engine produces
    from [2^1024] on are outside it, and so is the sign of zero. *)

Module binary64.
(** [2^e] *)
Definition pow2 (e : Z) : Q := Qpower 2 e.

(** The exponent of [a > 0]: the greatest [e] with [2^e <= a]. *)
Definition exponent (a : Q) : Z :=
  let e := (Z.log2 (Qnum a) - Z.log2 (Zpos (Qden a)))%Z in
  if Qle_bool (pow2 e) a then e else (e - 1)%Z.

(** The integer nearest to [x], the even one of two that are equally
    near. *)
Definition nearest_even (x : Q) : Z :=
  let f := Qfloor x in
  match Qcompare (x - inject_Z f) (1 # 2) with
  | Lt => f
  | Gt => (f + 1)%Z
  | Eq => if Z.even f then f else (f + 1)%Z
  end.

(** The distance between the doubles around [q]: 53 significant bits, and
    the exponent of the subnormal range at the bottom. *)
Definition ulp (q : Q) : Q :=
  pow2 (Z.max (exponent (Qabs q)) (-1022) - 52).

Definition round (q : Q) : Q :=
  let q := Qred q in
  if Qeq_bool q 0 then 0%Q
  else (inject_Z (nearest_even (q / ulp q)) * ulp q)%Q.

Definition add (a b : Q) : Q := round (a + b).
Definition sub (a b : Q) : Q := round (a - b).
Definition mul (a b : Q) : Q := round (a * b).
Definition div (a b : Q) : Q := round (a / b).
End binary64.

(** ** The code that computes, in double precision

    The handlers of the first part add, multiply and divide exactly.  That
    is what the code does wherever it stores, copies and compares numbers,
    and those are the properties stated of them.  Where the code computes
    (the increment of the ledger in [playGame], the two sums and the
    quotient of the rating helper) the engine rounds, and the properties of
    the computed values are stated of the definitions of this part: the
    same code, with every operation rounded. *)

Module Doubles.

(** [totalPlayTime += gamePlayData.time] over the users who played. *)
Definition totalPlayTime (productId : ObjectId)
    (usersWhoPlayed : list (ObjectId * User.t)) : Q :=
  foldl (λ total u,
           match gamePlayData productId u.2 with
           | Some pt => binary64.add total (PlayTime.time pt)
           | None => total
           end) 0%Q usersWhoPlayed.

(** [gamePlayData && gamePlayData.time > 0 && review.rating > 0], and then
    [gamePlayData.time * review.rating]. *)
Definition counts (pt : option PlayTime.t) (r : Review.t) : option Q :=
  match pt, Review.rating r with
  | Some pt, Some (Num q) =>
      if Qltb 0 (PlayTime.time pt) && Qltb 0 q
      then Some (binary64.mul (PlayTime.time pt) q) else None
  | _, _ => None
  end.

Module userController.

(** [weightedSum += gamePlayData.time * review.rating] over the reviews. *)
Definition weightedSum (productId : ObjectId)
    (usersWhoPlayed : list (ObjectId * User.t)) (reviews : list Review.t) : Q :=
  foldl (λ sum review,
           match Array_find (λ u, u.1 = Review.user review) usersWhoPlayed with
           | Some reviewingUser =>
               match counts (gamePlayData productId reviewingUser.2) review with
               | Some c => binary64.add sum c
               | None => sum
               end
           | None => sum
           end) 0%Q reviews.

Definition updateWeightedProductRating (productId : ObjectId) : Async unit :=
  try_catch
    (let* product := Model.Product_findById productId in
     match product with
     | None => ret tt
     | Some product =>
         let* usersWhoPlayed := Model.User_find (λ _, playTime_product productId) in
         match usersWhoPlayed with
         | [] => Model.Product_save productId (Product.set_rating 0 product)
         | _ :: _ =>
             let total := totalPlayTime productId usersWhoPlayed in
             let sum :=
               match Product.reviews product with
               | [] => 0%Q
               | _ :: _ =>
                   weightedSum productId usersWhoPlayed (Product.reviews product)
               end in
             Model.Product_save productId
               (Product.set_rating
                  (if Qltb 0 total then binary64.div sum total else 0%Q)
                  product)
         end
     end)
    (ret tt).
End userController.

Module productController.

Fixpoint weightedSum (productId : ObjectId)
    (usersWhoPlayed : list (ObjectId * User.t))
    (reviews : list (Review.t * option ObjectId)) (sum : Q) : Outcome Q :=
  match reviews with
  | [] => Done sum
  | (review, review_user) :: rest =>
      match review_user, usersWhoPlayed with
      | None, _ :: _ => Thrown
      | None, [] => weightedSum productId usersWhoPlayed rest sum
      | Some _id, _ =>
          match Array_find (λ u, u.1 = _id) usersWhoPlayed with
          | Some reviewingUser =>
              match counts (gamePlayData productId reviewingUser.2) review with
              | Some c =>
                  weightedSum productId usersWhoPlayed rest
                    (binary64.add sum c)
              | None => weightedSum productId usersWhoPlayed rest sum
              end
          | None => weightedSum productId usersWhoPlayed rest sum
          end
      end
  end.

Definition updateWeightedProductRating (productId : ObjectId) : Async unit :=
  try_catch
    (let* product := Model.Product_findById productId in
     match product with
     | None => ret tt
     | Some product =>
         let* reviews := productController.populate (Product.reviews product) in
         let* usersWhoPlayed := Model.User_find (λ _, playTime_product productId) in
         match usersWhoPlayed with
         | [] => Model.Product_save productId (Product.set_rating 0 product)
         | _ :: _ =>
             let total := totalPlayTime productId usersWhoPlayed in
             match weightedSum productId usersWhoPlayed reviews 0%Q with
             | Thrown => throw
             | Done sum =>
                 Model.Product_save productId
                   (Product.set_rating
                      (if Qltb 0 total then binary64.div sum total else 0%Q)
                      product)
             end
         end
     end)
    (ret tt).

(** *** POST /api/products/:id/play *)
Definition playGame (req : productController.PlayRequest) : Async Reply :=
  try_catch
    (let productId := productController.play_params_id req in
     let userId := productController.play_user_id req in
     let playTime := productController.play_time req in
     if JS.not playTime || JS.le playTime (Num 0) then
       ret (mkReply 400 (message "Valid playtime value is required"))
     else
     let* product := Model.Product_findById productId in
     match product with
     | None => ret (mkReply 404 (message "Game not found"))
     | Some product =>
     let* user := Model.User_findById userId in
     match user, playTime with
     | None, _ => ret (mkReply 404 (message "User not found"))
     | Some user, NaN => throw (* not reached: [!NaN] holds *)
     | Some user, Num minutes =>
         let playTimeIndex :=
           Array_findIndex (λ pt, PlayTime.product pt = productId)
             (User.playTime user) in
         let user :=
           match playTimeIndex with
           | Some playTimeIndex =>
               User.set_playTime
                 (alter (λ pt, PlayTime.mk (PlayTime.product pt)
                                 (binary64.add (PlayTime.time pt) minutes))
                    playTimeIndex (User.playTime user)) user
           | None =>
               User.set_playTime
                 (User.playTime user ++ [PlayTime.mk productId minutes]) user
           end in
         Model.User_save userId user ;;
         background (updateWeightedProductRating productId) ;;
         match gamePlayData productId user with
         | Some updatedPlayTime =>
             ret (mkReply 200 (playTimeUpdated "Playtime updated successfully"
                                 (PlayTime.time updatedPlayTime)))
         | None => throw
         end
     end
     end)
    (ret ServerError).
End productController.

(** The user document that [playGame] saves. *)
Definition withPlay (productId : ObjectId) (minutes : Q) (u : User.t)
    : User.t :=
  match Array_findIndex (λ pt, PlayTime.product pt = productId)
          (User.playTime u) with
  | Some playTimeIndex =>
      User.set_playTime
        (alter (λ pt, PlayTime.mk (PlayTime.product pt)
                        (binary64.add (PlayTime.time pt) minutes))
           playTimeIndex (User.playTime u)) u
  | None =>
      User.set_playTime (User.playTime u ++ [PlayTime.mk productId minutes]) u
  end.

(** The value that the helper of the user controller assigns to
    [product.rating]. *)
Definition userRating (productId : ObjectId) (db : DB) (product : Product.t)
    : Q :=
  match usersWhoPlayed productId db with
  | [] => 0%Q
  | _ :: _ =>
      if Qltb 0 (totalPlayTime productId (usersWhoPlayed productId db))
      then binary64.div
             (userController.weightedSum productId
                (usersWhoPlayed productId db) (Product.reviews product))
             (totalPlayTime productId (usersWhoPlayed productId db))
      else 0%Q
  end.

(** The value that the helper of the product controller assigns, [None]
    when its loop over the reviews throws. *)
Definition productRating (productId : ObjectId) (db : DB)
    (product : Product.t) : option Q :=
  match usersWhoPlayed productId db with
  | [] => Some 0%Q
  | _ :: _ =>
      match productController.weightedSum productId
              (usersWhoPlayed productId db)
              (populated db (Product.reviews product)) 0%Q with
      | Done sum =>
          Some (if Qltb 0 (totalPlayTime productId
                             (usersWhoPlayed productId db))
                then binary64.div sum
                       (totalPlayTime productId (usersWhoPlayed productId db))
                else 0%Q)
      | Thrown => None
      end
  end.

(** The database once the rating helper of the product controller has
    run. *)
Definition recomputed (productId : ObjectId) (db : DB) : DB :=
  (productController.updateWeightedProductRating productId db).2.

(** The play calls of a list handled one after the other. *)
Fixpoint play_calls (calls : list productController.PlayRequest) (db : DB)
    : list Reply * DB :=
  match calls with
  | [] => ([], db)
  | c :: cs =>
      let r := handle (productController.playGame c) db in
      let rs := play_calls cs r.2 in
      (r.1 :: rs.1, rs.2)
  end.
End Doubles.

(** * The computed values, in the words of the specification

    The definitions of this part read the stored data directly: the ledger
    by a recursion over its entries, the reviews by a recursion over the
    list, the users by the map of the database.  They share nothing with
    the lookups of the controllers ([find], [findIndex], the queries). *)

Module Ledger.
(** The time that a ledger records for a game: that of the first entry of
    the game, 0 when there is none. *)
Fixpoint time (productId : ObjectId) (playTime : list PlayTime.t) : Q :=
  match playTime with
  | [] => 0%Q
  | pt :: rest =>
      if String.eqb (PlayTime.product pt) productId then PlayTime.time pt
      else time productId rest
  end.

(** The ledger holds an entry of the game. *)
Fixpoint played (productId : ObjectId) (playTime : list PlayTime.t) : bool :=
  match playTime with
  | [] => false
  | pt :: rest =>
      String.eqb (PlayTime.product pt) productId || played productId rest
  end.
End Ledger.

(** The cumulative time stored for a (user, game) pair, 0 for a user who is
    not stored or has no entry of the game. *)
Definition ledgerTime (db : DB) (userId productId : ObjectId) : Q :=
  match users db !! userId with
  | Some u => Ledger.time productId (User.playTime u)
  | None => 0%Q
  end.

Module Average.
(** The rating that counts for a user: that of the first review with the id
    of the user, when it is a positive number and the user has a positive
    time, and 0 otherwise. *)
Fixpoint rating_u (reviews : list Review.t) (userId : ObjectId) (time_u : Q)
    : Q :=
  match reviews with
  | [] => 0%Q
  | r :: rest =>
      if String.eqb (Review.user r) userId then
        match Review.rating r with
        | Some (Num q) =>
            if Qlt_le_dec 0 time_u then if Qlt_le_dec 0 q then q else 0%Q
            else 0%Q
        | _ => 0%Q
        end
      else rating_u rest userId time_u
  end.

(** The users who have a playtime entry for the game. *)
Definition players (productId : ObjectId) (db : DB)
    : list (ObjectId * User.t) :=
  filter (λ x, Ledger.played productId (User.playTime x.2) = true)
    (map_to_list (users db)).

(** [Σ time_u] *)
Definition total (productId : ObjectId) (db : DB) : Q :=
  Spec.Qsum
    (map (λ x, Ledger.time productId (User.playTime x.2))
       (players productId db)).

(** [Σ time_u * rating_u] *)
Definition weighted (productId : ObjectId) (db : DB)
    (reviews : list Review.t) : Q :=
  Spec.Qsum
    (map (λ x, (Ledger.time productId (User.playTime x.2)
                * rating_u reviews x.1
                    (Ledger.time productId (User.playTime x.2)))%Q)
       (players productId db)).

(** The playtime-weighted average, 0 when the total playtime is 0. *)
Definition exact (productId : ObjectId) (db : DB) (reviews : list Review.t)
    : Q :=
  if Qlt_le_dec 0 (total productId db)
  then (weighted productId db reviews / total productId db)%Q
  else 0%Q.

(** The double nearest to the playtime-weighted average. *)
Definition rounded (productId : ObjectId) (db : DB)
    (reviews : list Review.t) : Q :=
  if Qlt_le_dec 0 (total productId db)
  then binary64.round (weighted productId db reviews / total productId db)
  else 0%Q.
End Average.

(** Every user's time for the game is a whole number of minutes. *)
Definition whole_minutes (productId : ObjectId) (db : DB) : Prop :=
  ∀ id u, users db !! id = Some u →
    ∃ n : Z, (0 ≤ n)%Z
             ∧ (Ledger.time productId (User.playTime u) == inject_Z n)%Q.

(** Every rating of the list that is a number is a whole number. *)
Definition whole_ratings (reviews : list Review.t) : Prop :=
  ∀ r q, r ∈ reviews → Review.rating r = Some (Num q) →
    ∃ k : Z, (0 ≤ k)%Z ∧ (q == inject_Z k)%Q.

(** The two sums stay within the integers that a double holds exactly. *)
Definition sums_within_2_53 (productId : ObjectId) (db : DB)
    (reviews : list Review.t) : Prop :=
  (Average.total productId db <= inject_Z (2 ^ 53))%Q
  ∧ (Average.weighted productId db reviews <= inject_Z (2 ^ 53))%Q.

(** The calls of the list for the pair pass whole numbers of minutes. *)
Definition whole_calls (userId productId : ObjectId)
    (calls : list productController.PlayRequest) : Prop :=
  Forall (λ c, productController.play_user_id c = userId
               ∧ productController.play_params_id c = productId →
               ∃ k : Z, (minutes_of c == inject_Z k)%Q) calls.

(** C1 in the words of the specification: the rating update leaves the
    playtime-weighted average as the rating of the game. *)
Definition average_as_specified : Prop :=
  ∀ (productId : ObjectId) (db : DB) (product : Product.t),
    products db !! productId = Some product →
    Product_validate product = true →
    one_review_per_user (Product.reviews product) →
    authors_stored db (Product.reviews product) →
    ∃ p,
      products (Doubles.recomputed productId db) !! productId = Some p
      ∧ (Product.rating p
         == Average.exact productId db (Product.reviews product))%Q.



(** ** Sample states for the arithmetic *)

Module Sample64.
(** Two players with 60.1 and 64.1 minutes, as the doubles that hold these
    times, who both rate the game 5. *)
Definition G : Product.t :=
  Product.mk "admin" "Cyber Odyssey" "https://example.com/g.png"
    "Neon Dreams Studio" ["RPG"; "Sci-Fi"]
    "Explore a vast cyberpunk city."
    [Review.mk "A" "Alice" (Some (Num 5)) (Some "Amazing open world!");
     Review.mk "B" "Bob" (Some (Num 5)) (Some "Solid RPG mechanics.")]
    0 2 false false ∅.
Definition db : DB :=
  mkDB {[ "A" := User.mk "Alice" [PlayTime.mk "G" (binary64.round (601 # 10))];
          "B" := User.mk "Bob" [PlayTime.mk "G" (binary64.round (641 # 10))] ]}
       {[ "G" := G ]}.

End Sample64.

(** ** The order of the read projections, on the ledger *)



(** ** Requests that leave the admin writes out *)

(** [createProduct] and [updateProduct] copy every further key of the body
    onto the document, [reviews] and [user] among them; the embedding of
    the body does not carry these keys, and what is stated about the review
    lists is stated for the other requests. *)
Definition admin_write (r : Request) : Prop :=
  match r with
  | POST_products _ | PUT_products_id _ => True
  | _ => False
  end.

(** * Properties *)

(** ** Comparisons *)

Lemma Qltb_lt (a b : Q) : Qltb a b = true ↔ (a < b)%Q.
Proof.
  unfold Qltb. rewrite negb_true_iff, <- not_true_iff_false, Qle_bool_iff.
  split; [apply Qnot_le_lt | apply Qlt_not_le].
Qed.

Lemma Qltb_ge (a b : Q) : Qltb a b = false ↔ (b <= a)%Q.
Proof. unfold Qltb. by rewrite negb_false_iff, Qle_bool_iff. Qed.


Lemma validate_set_rating q p :
  Product_validate (Product.set_rating q p) = Product_validate p.
Proof. reflexivity. Qed.

Lemma userController_update_eq productId db :
  userController.updateWeightedProductRating productId db =
  (Done tt,
   match products db !! productId with
   | Some product =>
       if Product_validate product
       then mkDB (users db)
              (<[productId :=
                   Product.set_rating (userRating.value productId db product)
                     product]> (products db))
       else db
   | None => db
   end).
Proof.
  unfold userController.updateWeightedProductRating, try_catch, bind,
    Model.Product_findById, Model.User_find, Model.Product_save, ret,
    userRating.value, usersWhoPlayed, quotient; simpl.
  destruct (products db !! productId) as [product|]; [|done]. simpl.
  destruct (filter _ _) as [|u us]; simpl.
  - rewrite validate_set_rating. by destruct (Product_validate product).
  - rewrite validate_set_rating.
    destruct (Product.reviews product) eqn:Hr;
      destruct (Product_validate product); try done.
Qed.


Lemma productController_update_eq productId db :
  productController.updateWeightedProductRating productId db =
  (Done tt,
   match products db !! productId with
   | Some product =>
       match productRating.value productId db product with
       | Some q =>
           if Product_validate product
           then mkDB (users db)
                  (<[productId := Product.set_rating q product]> (products db))
           else db
       | None => db
       end
   | None => db
   end).
Proof.
  unfold productController.updateWeightedProductRating, try_catch, bind,
    Model.Product_findById, Model.User_find, Model.Product_save, ret, throw,
    productController.populate, productRating.value, usersWhoPlayed,
    populated, quotient; simpl.
  destruct (products db !! productId) as [product|]; [|done]. simpl.
  destruct (filter _ _) as [|u us]; simpl.
  - rewrite validate_set_rating. by destruct (Product_validate product).
  - destruct (productController.weightedSum _ _ _ _); [|done].
    rewrite validate_set_rating. by destruct (Product_validate product).
Qed.

(** The two helpers read the users and the reviews of the product and write
    its rating only. *)
Lemma usersWhoPlayed_products productId us ps ps' :
  usersWhoPlayed productId (mkDB us ps) = usersWhoPlayed productId (mkDB us ps').
Proof. reflexivity. Qed.

Lemma userRating_value_ext productId db db' p p' :
  users db = users db' → Product.reviews p = Product.reviews p' →
  userRating.value productId db p = userRating.value productId db' p'.
Proof.
  intros Hu Hr. unfold userRating.value, usersWhoPlayed. by rewrite Hu, Hr.
Qed.

Lemma productRating_value_ext productId db db' p p' :
  users db = users db' → Product.reviews p = Product.reviews p' →
  productRating.value productId db p = productRating.value productId db' p'.
Proof.
  intros Hu Hr. unfold productRating.value, usersWhoPlayed, populated.
  by rewrite Hu, Hr.
Qed.

(** C5. Running the rating update a second time, with nothing changed in
    between, leaves the database, and so the rating of the game, as the
    first run left it.  This holds for the helper of either controller. *)
Theorem recompute_idempotent (productId : ObjectId) (db : DB) :
  (productController.updateWeightedProductRating productId
     (productController.updateWeightedProductRating productId db).2).2
  = (productController.updateWeightedProductRating productId db).2
  ∧ (userController.updateWeightedProductRating productId
       (userController.updateWeightedProductRating productId db).2).2
    = (userController.updateWeightedProductRating productId db).2.
Proof.
  rewrite !productController_update_eq, !userController_update_eq.
  simpl. destruct (products db !! productId) as [p|] eqn:Hp; simpl.
  2: { by rewrite Hp. }
  split.
  - destruct (productRating.value productId db p) as [q|] eqn:Hq.
    2: { by rewrite Hp, Hq. }
    destruct (Product_validate p) eqn:Hv.
    2: { by rewrite Hp, Hq, Hv. }
    simpl. rewrite lookup_insert_eq.
    rewrite (productRating_value_ext productId _ db _ p), Hq by done.
    rewrite validate_set_rating, Hv. simpl.
    by rewrite insert_insert_eq.
  - destruct (Product_validate p) eqn:Hv.
    2: { by rewrite Hp, Hv. }
    simpl. rewrite lookup_insert_eq, validate_set_rating, Hv. simpl.
    rewrite insert_insert_eq.
    by rewrite (userRating_value_ext productId _ db _ p).
Qed.

(** ** Sums *)

Lemma Array_find_cons {A} (P : A → Prop) `{∀ x, Decision (P x)} x l :
  Array_find P (x :: l) = if decide (P x) then Some x else Array_find P l.
Proof.
  unfold Array_find. simpl. destruct (decide (P x)); [done|].
  by destruct (list_find P l) as [[??]|].
Qed.

Lemma Array_find_nil {A} (P : A → Prop) `{∀ x, Decision (P x)} :
  Array_find P [] = None.
Proof. reflexivity. Qed.

Lemma Array_find_None {A} (P : A → Prop) `{∀ x, Decision (P x)} l :
  Array_find P l = None ↔ Forall (λ x, ¬ P x) l.
Proof.
  unfold Array_find. rewrite fmap_None. apply list_find_None.
Qed.

Lemma Array_find_Some_P {A} (P : A → Prop) `{∀ x, Decision (P x)} l x :
  Array_find P l = Some x → P x ∧ x ∈ l.
Proof.
  unfold Array_find. intros ([i y] & Hf & ->)%fmap_Some.
  apply list_find_Some in Hf as (Hl & HP & _). split; [done|].
  by eapply list_elem_of_lookup_2.
Qed.

Lemma Qsum_zero (l : list Q) : Forall (λ x, x == 0)%Q l → (Spec.Qsum l == 0)%Q.
Proof.
  induction 1 as [|x l Hx _ IH]; simpl; [reflexivity|].
  rewrite Hx, IH. ring.
Qed.

Lemma Qsum_map_ext {A} (f g : A → Q) (l : list A) :
  Forall (λ x, f x == g x)%Q l →
  (Spec.Qsum (map f l) == Spec.Qsum (map g l))%Q.
Proof.
  induction 1 as [|x l Hx _ IH]; simpl; [reflexivity|]. by rewrite Hx, IH.
Qed.

(** Taking one key apart in a sum over documents with distinct ids. *)
Lemma Qsum_split_key {A} (k : string) (f g : string * A → Q)
    (l : list (string * A)) :
  NoDup l.*1 →
  Forall (λ x, x.1 = k → g x == 0)%Q l →
  (Spec.Qsum (map (λ x, if decide (x.1 = k) then f x else g x) l)
   == match Array_find (λ x, x.1 = k) l with
      | Some x => f x
      | None => 0
      end + Spec.Qsum (map g l))%Q.
Proof.
  induction l as [|x l IH]; intros Hnd Hg.
  - simpl. ring.
  - apply NoDup_cons in Hnd as [Hx Hnd]. apply Forall_cons in Hg as [Hgx Hg].
    rewrite Array_find_cons. simpl. destruct (decide (x.1 = k)) as [Hk|Hk].
    + rewrite (Hgx Hk).
      rewrite (Qsum_map_ext _ g).
      * ring.
      * apply Forall_forall. intros y Hy. destruct (decide (y.1 = k)); [|reflexivity].
        exfalso. apply Hx. rewrite Hk. apply list_elem_of_fmap. eauto.
    + rewrite (IH Hnd Hg). ring.
Qed.

(** The contribution of a review is [time_u * rating_u] of its author. *)
Lemma counts_spec productId (u : User.t) (r : Review.t) :
  (match counts (gamePlayData productId u) r with
   | Some c => c
   | None => 0
   end
   == Spec.time_of productId u
      * match Review.rating r with
        | Some (Num q) =>
            if Qltb 0 (Spec.time_of productId u) && Qltb 0 q then q else 0
        | _ => 0
        end)%Q.
Proof.
  unfold counts, Spec.time_of.
  destruct (gamePlayData productId u) as [pt|].
  - destruct (Review.rating r) as [[|q]|]; try ring.
    destruct (Qltb 0 (PlayTime.time pt) && Qltb 0 q); ring.
  - destruct (Review.rating r) as [[|q]|]; ring.
Qed.

(** The sum over the reviews is the sum over the players. *)
Lemma weightedSum_exchange productId (played : list (ObjectId * User.t))
    (reviews : list Review.t) :
  NoDup played.*1 → one_review_per_user reviews →
  (Spec.Qsum (map (contribution productId played) reviews)
   == Spec.Qsum
        (map (λ u, Spec.time_of productId u.2
                   * Spec.rating_of reviews u.1 (Spec.time_of productId u.2))
           played))%Q.
Proof.
  intros Hpl. unfold one_review_per_user.
  induction reviews as [|r rs IH]; intros Hnd.
  - simpl. symmetry. apply Qsum_zero, Forall_forall. intros x Hx.
    apply list_elem_of_fmap in Hx as (u & -> & _).
    unfold Spec.rating_of. rewrite Array_find_nil. ring.
  - rewrite fmap_cons in Hnd. apply NoDup_cons in Hnd as [Hr Hnd].
    simpl. rewrite (IH Hnd).
    set (f := λ u : ObjectId * User.t,
           (Spec.time_of productId u.2
            * match Review.rating r with
              | Some (Num q) =>
                  if Qltb 0 (Spec.time_of productId u.2) && Qltb 0 q
                  then q else 0
              | _ => 0
              end)%Q).
    set (g := λ u : ObjectId * User.t,
           (Spec.time_of productId u.2
            * Spec.rating_of rs u.1 (Spec.time_of productId u.2))%Q).
    transitivity (Spec.Qsum (map (λ x, if decide (x.1 = Review.user r)
                                       then f x else g x) played)).
    + rewrite (Qsum_split_key (Review.user r) f g played Hpl).
      * apply Qplus_comp; [|reflexivity]. unfold contribution.
        destruct (Array_find _ played) as [u|]; [|reflexivity].
        apply counts_spec.
      * apply Forall_forall. intros x _ Hx. unfold g, Spec.rating_of.
        replace (Array_find _ rs) with (@None Review.t); [ring|].
        symmetry. apply Array_find_None, Forall_forall. intros r' Hr' Heq.
        apply Hr. rewrite <- Hx, <- Heq. apply list_elem_of_fmap. eauto.
    + apply Qsum_map_ext, Forall_forall. intros x _.
      unfold Spec.rating_of, f, g. rewrite Array_find_cons.
      destruct (decide (Review.user r = x.1)) as [He|He];
        destruct (decide (x.1 = Review.user r)) as [He'|He'];
        try congruence; reflexivity.
Qed.

Lemma usersWhoPlayed_NoDup productId db : NoDup (usersWhoPlayed productId db).*1.
Proof.
  unfold usersWhoPlayed.
  apply (sublist_NoDup _ (map_to_list (users db)).*1).
  - apply NoDup_fst_map_to_list.
  - apply fmap_sublist, sublist_filter.
Qed.

(** ** The weighted average, computed exactly *)

(** ** The range of the weighted average *)



(** ** The playtime ledger *)

Lemma Array_findIndex_cons {A} (P : A → Prop) `{∀ x, Decision (P x)} x l :
  Array_findIndex P (x :: l)
  = if decide (P x) then Some 0 else S <$> Array_findIndex P l.
Proof.
  unfold Array_findIndex. simpl. destruct (decide (P x)); [done|].
  by destruct (list_find P l) as [[??]|].
Qed.

Lemma Array_findIndex_None {A} (P : A → Prop) `{∀ x, Decision (P x)} l :
  Array_findIndex P l = None ↔ Array_find P l = None.
Proof. unfold Array_findIndex, Array_find. by rewrite !fmap_None. Qed.

Lemma Array_find_app_new {A} (P : A → Prop) `{∀ x, Decision (P x)} l y :
  Array_find P l = None → P y → Array_find P (l ++ [y]) = Some y.
Proof.
  induction l as [|x l IH]; simpl; intros Hn Hy.
  - rewrite Array_find_cons. by rewrite decide_True.
  - rewrite Array_find_cons in *. destruct (decide (P x)); [done|]. by apply IH.
Qed.

Lemma Array_find_app_other {A} (P : A → Prop) `{∀ x, Decision (P x)} l y :
  ¬ P y → Array_find P (l ++ [y]) = Array_find P l.
Proof.
  intros Hy. induction l as [|x l IH]; simpl.
  - rewrite Array_find_cons. by rewrite decide_False.
  - rewrite !Array_find_cons. by destruct (decide (P x)).
Qed.

(** [l[i] = f(l[i])] at the index that [findIndex] returns. *)
Lemma Array_find_alter {A} (P : A → Prop) `{∀ x, Decision (P x)}
    (f : A → A) l i :
  (∀ x, P x → P (f x)) →
  Array_findIndex P l = Some i →
  Array_find P (alter f i l) = f <$> Array_find P l.
Proof.
  intros Hf. revert i. induction l as [|x l IH]; intros i; [done|].
  rewrite Array_findIndex_cons. destruct (decide (P x)) as [Hx|Hx].
  - intros [= <-]. simpl. rewrite !Array_find_cons.
    rewrite decide_True by auto. by rewrite decide_True.
  - intros (j & Hj & ->)%fmap_Some. simpl. rewrite !Array_find_cons.
    rewrite !decide_False by done. by apply IH.
Qed.

Lemma Array_find_alter_other {A} (P R : A → Prop) `{∀ x, Decision (P x)}
    `{∀ x, Decision (R x)} (f : A → A) l i :
  (∀ x, P x → ¬ R x ∧ ¬ R (f x)) →
  Array_findIndex P l = Some i →
  Array_find R (alter f i l) = Array_find R l.
Proof.
  intros Hf. revert i. induction l as [|x l IH]; intros i; [done|].
  rewrite Array_findIndex_cons. destruct (decide (P x)) as [Hx|Hx].
  - intros [= <-]. simpl. rewrite !Array_find_cons.
    destruct (Hf x Hx). by rewrite !decide_False.
  - intros (j & Hj & ->)%fmap_Some. simpl. rewrite !Array_find_cons.
    destruct (decide (R x)); [done|]. by apply IH.
Qed.

Lemma productController_update_users productId db :
  users (productController.updateWeightedProductRating productId db).2
  = users db.
Proof.
  rewrite productController_update_eq. simpl.
  destruct (products db !! productId) as [p|]; [|done].
  destruct (productRating.value productId db p); [|done].
  by destruct (Product_validate p).
Qed.


(** ** The review submission, case by case *)

Lemma productController_update_done productId db :
  productController.updateWeightedProductRating productId db
  = (Done tt, recomputed productId db).
Proof. unfold recomputed. by rewrite productController_update_eq. Qed.

Lemma addOrUpdateProductReview_eq (req : productController.ReviewRequest)
    (db : DB) :
  let rating := productController.body_rating req in
  let comment := productController.body_comment req in
  let productId := productController.review_params_id req in
  let userId := productController.review_user_id req in
  handle (productController.addOrUpdateProductReview req) db =
  if bool_decide (rating = None) && bool_decide (comment = None) then
    (mkReply 400 (message "Rating or comment is required"), db)
  else if match rating with
          | Some n => JS.lt n (Num 1) || JS.gt n (Num 5)
          | None => false
          end then (invalid_rating, db)
  else
  match products db !! productId, users db !! userId with
  | None, _ => (mkReply 404 (message "Product not found"), db)
  | Some _, None => (mkReply 404 (message "User not found"), db)
  | Some p, Some u =>
      if Qltb (Spec.time_of productId u) 60 then (insufficient_playtime, db)
      else if bool_decide (rating ≠ None) && Product.disableRating p then
        (mkReply 403 (message
           "Rating is disabled for this product by the administrator."), db)
      else if bool_decide (comment ≠ None) && Product.disableCommenting p then
        (mkReply 403 (message
           "Commenting is disabled for this product by the administrator."), db)
      else
      match Array_findIndex (λ r, Review.user r = userId) (Product.reviews p) with
      | Some i =>
          if Product_validate (withUpdatedReview i u rating comment p) then
            (mkReply 200 (message "Review updated"),
             recomputed productId
               (mkDB (users db)
                  (<[productId := withUpdatedReview i u rating comment p]>
                     (products db))))
          else (ServerError, db)
      | None =>
          if Product_validate (withNewReview userId u rating comment p) then
            (mkReply 201 (message "Review added"),
             recomputed productId
               (mkDB (users db)
                  (<[productId := withNewReview userId u rating comment p]>
                     (products db))))
          else (ServerError, db)
      end
  end.
Proof.
  destruct req as [g uid rating comment]. simpl.
  unfold handle, productController.addOrUpdateProductReview.
  cbn [productController.body_rating productController.body_comment
       productController.review_params_id productController.review_user_id].
  destruct (bool_decide (rating = None) && bool_decide (comment = None))
    eqn:Hnone; [done|].
  destruct (match rating with Some _ => _ | None => _ end); [done|].
  unfold try_catch, bind, Model.Product_findById, Model.User_findById,
    Model.Product_save, background, ret.
  cbn [fst snd].
  destruct (products db !! g) as [p|]; [|by destruct (users db !! uid)].
  destruct (users db !! uid) as [u|]; [|done].
  fold (Spec.time_of g u).
  change (inject_Z productController.requiredPlayTime) with 60%Q.
  destruct (Qltb (Spec.time_of g u) 60); [done|].
  destruct (bool_decide (rating ≠ None) && Product.disableRating p); [done|].
  destruct (bool_decide (comment ≠ None) && Product.disableCommenting p);
    [done|].
  destruct (Array_findIndex _ (Product.reviews p)) as [i|].
  - fold (updatedReview u rating comment).
    fold (withUpdatedReview i u rating comment p).
    destruct (Product_validate (withUpdatedReview i u rating comment p));
      [|done].
    by rewrite productController_update_done.
  - change (Product.set_numReviews _ _)
      with (withNewReview uid u rating comment p).
    destruct (Product_validate (withNewReview uid u rating comment p));
      [|done].
    by rewrite productController_update_done.
Qed.

(** C9. The specification wants every play request whose minutes are not a
    positive integer rejected without mutation.  The handler never reads
    the result of the validation chain of the route: two and a half minutes
    are accepted with status 200 and stored, although the chain has
    recorded its error for them. *)
Theorem playGame_accepts_half_minutes :
  (handle (productController.playGame Sample2.half_play) Sample2.db).1
  = mkReply 200 (playTimeUpdated "Playtime updated successfully" (125 # 2))
  ∧ (storedTime Sample2.db "C" "G" == 60)%Q
  ∧ (storedTime (handle (productController.playGame Sample2.half_play)
                   Sample2.db).2 "C" "G" == 125 # 2)%Q.
Proof. vm_compute. repeat split; congruence. Qed.

(** ** C2: the checks of a review submission *)

(** C2, as stated, fails: a rating of 2.5 is no integer in [1,5] and the
    request that carries it is not denied as an invalid rating; the review
    is stored. *)
Lemma rating_rule_as_specified_fails : ¬ rating_rule_as_specified.
Proof.
  intros H.
  specialize (H Sample2.half_rating Sample2.db (Num (5 # 2)) eq_refl).
  assert (Hn : ¬ integer_1_5 (Num (5 # 2))).
  { intros (z & Hz & _). unfold Qeq in Hz. simpl in Hz. lia. }
  specialize (H Hn). vm_compute in H. discriminate H.
Qed.

Example half_rating_stored :
  (handle (productController.addOrUpdateProductReview Sample2.half_rating)
     Sample2.db).1 = mkReply 201 (message "Review added").
Proof. vm_compute. repeat split; congruence. Qed.

Lemma playtime_denial_text :
  mkReply 403 (message productController.playtime_denial)
  = insufficient_playtime.
Proof. reflexivity. Qed.

(** C2, amended. For every request that provides a rating or a comment: a
    rating whose numeric value is below 1 or above 5 is denied as an invalid
    rating with the database untouched, before anything is looked up; when
    the rating is absent or a number in [1,5], integer or not, and the game
    and the user exist, a cumulative playtime below 60 minutes is denied
    with the message that carries the 60, the database untouched, and a
    playtime of 60 minutes or more is not. *)
Theorem review_checks (req : productController.ReviewRequest) (db : DB) :
  productController.body_rating req ≠ None
  ∨ productController.body_comment req ≠ None →
  (∀ q, productController.body_rating req = Some (Num q) →
        (q < 1)%Q ∨ (5 < q)%Q →
        handle (productController.addOrUpdateProductReview req) db
        = (invalid_rating, db))
  ∧ (∀ p u,
       (∀ n, productController.body_rating req = Some n →
             ∃ q, n = Num q ∧ (1 <= q <= 5)%Q) →
       products db !! productController.review_params_id req = Some p →
       users db !! productController.review_user_id req = Some u →
       ((Spec.time_of (productController.review_params_id req) u < 60)%Q →
        handle (productController.addOrUpdateProductReview req) db
        = (insufficient_playtime, db))
       ∧ ((60 <= Spec.time_of (productController.review_params_id req) u)%Q →
          (handle (productController.addOrUpdateProductReview req) db).1
          ≠ insufficient_playtime)).
Proof.
  intros Hprov.
  pose proof (addOrUpdateProductReview_eq req db) as E. cbv zeta in E.
  rewrite E. clear E.
  assert (Hnone : bool_decide (productController.body_rating req = None)
                  && bool_decide (productController.body_comment req = None)
                  = false).
  { apply andb_false_iff. destruct Hprov as [H|H];
      [left|right]; by apply bool_decide_eq_false. }
  rewrite Hnone. split.
  - intros q -> Hq.
    assert (JS.lt (Num q) (Num 1) || JS.gt (Num q) (Num 5) = true) as ->;
      [|done].
    apply orb_true_iff. destruct Hq; [left|right]; by apply Qltb_lt.
  - intros p u Hin Hp Hu.
    assert (match productController.body_rating req with
            | Some n => JS.lt n (Num 1) || JS.gt n (Num 5)
            | None => false
            end = false) as ->.
    { destruct (productController.body_rating req) as [n|]; [|done].
      destruct (Hin n eq_refl) as (q & -> & H1 & H5).
      apply orb_false_iff. split; by apply Qltb_ge. }
    rewrite Hp, Hu. split.
    + intros Hlt. apply Qltb_lt in Hlt. by rewrite Hlt.
    + intros Hge. apply Qltb_ge in Hge. rewrite Hge.
      repeat match goal with
             | |- context [if ?b then _ else _] => destruct b
             | |- context [match ?o with Some _ => _ | None => _ end] =>
                 destruct o
             end; discriminate.
Qed.

(** 59 minutes are denied, exactly 60 minutes pass the playtime check. *)
Lemma review_checks_witness :
  handle (productController.addOrUpdateProductReview Sample2.by_D) Sample2.db
  = (insufficient_playtime, Sample2.db)
  ∧ (handle (productController.addOrUpdateProductReview Sample2.by_C)
       Sample2.db).1 ≠ insufficient_playtime.
Proof.
  split.
  - refine (proj1 (proj2 (review_checks Sample2.by_D Sample2.db _)
                     Sample.G (User.mk "Dan" [PlayTime.mk "G" 59]) _ _ _) _).
    + left. discriminate.
    + intros n [= <-]. exists 4%Q. split; [reflexivity|]. by vm_compute.
    + reflexivity.
    + reflexivity.
    + by vm_compute.
  - refine (proj2 (proj2 (review_checks Sample2.by_C Sample2.db _)
                     Sample.G (User.mk "Carol" [PlayTime.mk "G" 60]) _ _ _) _).
    + left. discriminate.
    + intros n [= <-]. exists 4%Q. split; [reflexivity|]. by vm_compute.
    + reflexivity.
    + reflexivity.
    + by vm_compute.
Defined.

(** ** C3: a review that starts with one field *)

Lemma reviewSchema_requires_both (r : Review.t) :
  Review.rating r = None ∨ Review.comment r = None →
  reviewSchema.validate r = false.
Proof.
  unfold reviewSchema.validate. intros [-> | ->]; simpl.
  - apply andb_false_intro1, andb_false_intro2. done.
  - apply andb_false_intro2. done.
Qed.

Lemma withNewReview_invalid userId user rating comment p :
  rating = None ∨ comment = None →
  Product_validate (withNewReview userId user rating comment p) = false.
Proof.
  intros H. unfold Product_validate, withNewReview. simpl.
  apply andb_false_intro2. rewrite forallb_app. apply andb_false_intro2.
  simpl. rewrite reviewSchema_requires_both; [done|]. simpl.
  destruct H; auto.
Qed.

(** A first review that lacks the rating or the comment is not stored:
    [product.save()] rejects it, whatever the state. *)
Lemma first_review_needs_both (req : productController.ReviewRequest)
    (db : DB) (p : Product.t) :
  products db !! productController.review_params_id req = Some p →
  Array_findIndex (λ r, Review.user r = productController.review_user_id req)
    (Product.reviews p) = None →
  productController.body_rating req = None
  ∨ productController.body_comment req = None →
  (handle (productController.addOrUpdateProductReview req) db).2 = db.
Proof.
  intros Hp Hi Hpartial.
  pose proof (addOrUpdateProductReview_eq req db) as E. cbv zeta in E.
  rewrite E, Hp, Hi. clear E.
  repeat match goal with
         | |- context [if Product_validate ?p then _ else _] =>
             rewrite (withNewReview_invalid _ _ _ _ _ Hpartial)
         | |- context [if ?b then _ else _] => destruct b
         | |- context [match ?o with Some _ => _ | None => _ end] =>
             destruct o
         end; done.
Qed.

(** C3. The specification has a review created from a comment alone and
    completed by a later rating.  [reviewSchema] marks both [rating] and
    [comment] as required, so for a user with 60 minutes of playtime on a
    game with both toggles off the comment-only submission is rejected by
    [product.save()] and answered with 500, and so is the rating-only
    submission after it: no review entry of that user exists at the end. *)
Theorem comment_then_rating_not_stored :
  handle (productController.addOrUpdateProductReview Sample2.comment_only)
    Sample2.db = (ServerError, Sample2.db)
  ∧ handle (productController.addOrUpdateProductReview Sample2.rating_only)
      Sample2.db = (ServerError, Sample2.db)
  ∧ (storedTime Sample2.db "C" "G" == 60)%Q
  ∧ Array_find (λ r, Review.user r = "C")
      (Product.reviews (default Sample.G (products Sample2.db !! "G")))
    = None.
Proof. vm_compute. repeat split; congruence. Qed.

(** ** C7: the review count *)

(** C7. The specification wants [numReviews] equal to the length of the
    review list after every operation.  The admin update and the product
    creation copy every other field of the body onto the document, and
    [numReviews] is among them: an update that carries [numReviews: 7]
    leaves a game with two reviews and count 7, and a creation that carries
    it leaves a game without reviews and count 7. *)
Theorem admin_body_overrides_numReviews :
  (∃ p, (handle (productController.updateProduct Sample2.update_numReviews)
           Sample.db).1 = mkReply 200 (productDoc "G" p)
        ∧ products (handle (productController.updateProduct
                              Sample2.update_numReviews) Sample.db).2 !! "G"
          = Some p
        ∧ Product.numReviews p = 7%Q
        ∧ length (Product.reviews p) = 2)
  ∧ (∃ p, (handle (productController.createProduct Sample2.create_numReviews)
             Sample.db).1 = mkReply 201 (productDoc "N" p)
          ∧ products (handle (productController.createProduct
                                Sample2.create_numReviews) Sample.db).2 !! "N"
            = Some p
          ∧ Product.numReviews p = 7%Q
          ∧ length (Product.reviews p) = 0).
Proof. split; eexists; vm_compute; repeat split; reflexivity. Qed.

(** ** C8: the deletion clean-up *)

(** C8. The specification wants both deletions to report how many
    dependent records were touched.  [deleteProduct] does, in
    [affectedUsers]; the success response of [deleteUser] carries a message
    and nothing else, here after one game was cleaned up. *)
Theorem deleteUser_reports_no_count :
  (handle (userController.deleteUser "A") Sample.db).1
  = mkReply 200 (message
      "User removed successfully and all associated data cleaned up")
  ∧ users (handle (userController.deleteUser "A") Sample.db).2 !! "A" = None
  ∧ (∃ p, products (handle (userController.deleteUser "A") Sample.db).2 !! "G"
          = Some p
          ∧ Product.reviews p
            = [Review.mk "B" "Bob" (Some (Num 3)) (Some "Solid RPG mechanics.")]
          ∧ Product.numReviews p = 1%Q)
  ∧ (handle (productController.deleteProduct "G") Sample.db).1
    = mkReply 200 (productRemoved
        "Product removed successfully and all associated user data cleaned up"
        2).
Proof.
  split; [by vm_compute|]. split; [by vm_compute|].
  split; [|by vm_compute]. eexists. vm_compute. repeat split; reflexivity.
Qed.

(** ** The reviews in the order of playtime *)

Section sort.
Context {A : Type} (key : A → Q) (cmp : A → A → Q).
Hypothesis cmp_key : ∀ a b, (cmp a b == key b - key a)%Q.

Lemma sort_insert_perm x l : sort_insert cmp x l ≡ₚ x :: l.
Proof.
  induction l as [|y l IH]; simpl; [done|].
  destruct (Qle_bool (cmp x y) 0); [done|].
  rewrite IH. apply Permutation_swap.
Qed.

Lemma Array_sort_perm l : Array_sort cmp l ≡ₚ l.
Proof.
  induction l as [|x l IH]; simpl; [done|].
  unfold Array_sort in *. simpl. by rewrite sort_insert_perm, IH.
Qed.

Lemma sort_insert_sorted x l :
  Sorted (λ a b, key b <= key a)%Q l →
  Sorted (λ a b, key b <= key a)%Q (sort_insert cmp x l).
Proof.
  induction 1 as [|y l Hl IH Hhd]; simpl; [by repeat constructor|].
  destruct (Qle_bool (cmp x y) 0) eqn:E.
  - apply Qle_bool_iff in E. rewrite cmp_key in E.
    constructor; [by constructor|]. constructor. lra.
  - assert (Hlt : (key x <= key y)%Q).
    { apply Qlt_le_weak, Qnot_le_lt. intros H.
      assert (Qle_bool (cmp x y) 0 = true); [|congruence].
      apply Qle_bool_iff. rewrite cmp_key. lra. }
    constructor; [done|].
    destruct l as [|z l]; simpl in *.
    + by constructor.
    + destruct (Qle_bool (cmp x z) 0); constructor; [done|].
      by inversion Hhd.
Qed.

Lemma Array_sort_sorted l :
  StronglySorted (λ a b, key b <= key a)%Q (Array_sort cmp l).
Proof.
  assert (Transitive (λ a b : A, key b <= key a)%Q).
  { intros a b c. lra. }
  apply Sorted_StronglySorted; [done|].
  induction l as [|x l IH]; [constructor|].
  unfold Array_sort in *. simpl. by apply sort_insert_sorted.
Qed.
End sort.


(** *** The playtime maps *)


(** Looking a user up in the result of [User.find]. *)
Lemma find_in_collection {A} (P : string * A → Prop)
    `{∀ x, Decision (P x)} (m : gmap string A) (k : string) :
  Array_find (λ x, x.1 = k) (filter P (map_to_list m))
  = match m !! k with
    | Some u => if decide (P (k, u)) then Some (k, u) else None
    | None => None
    end.
Proof.
  destruct (Array_find _ _) as [[k' u']|] eqn:Hf.
  - apply Array_find_Some_P in Hf as [Hk Hin]. simpl in Hk. subst k'.
    apply list_elem_of_filter in Hin as [HP Hin].
    apply elem_of_map_to_list in Hin. rewrite Hin. by rewrite decide_True.
  - destruct (m !! k) as [u|] eqn:Hm; [|done].
    destruct (decide (P (k, u))) as [HP|]; [|done].
    apply Array_find_None in Hf. rewrite Forall_forall in Hf.
    exfalso. apply (Hf (k, u)); [|done].
    apply list_elem_of_filter. split; [done|]. by apply elem_of_map_to_list.
Qed.

Lemma foldl_insert_lookup {A B} (h : string * A → option B)
    (f : gmap string B → string * A → gmap string B)
    (l : list (string * A)) (m0 : gmap string B) (k : string) :
  (∀ m x, f m x = match h x with
                  | Some v => <[x.1 := v]> m
                  | None => m
                  end) →
  NoDup l.*1 →
  foldl f m0 l !! k
  = match Array_find (λ x, x.1 = k) l with
    | Some x => match h x with Some v => Some v | None => m0 !! k end
    | None => m0 !! k
    end.
Proof.
  intros Hf. revert m0. induction l as [|x l IH]; intros m0 Hnd; [done|].
  apply NoDup_cons in Hnd as [Hx Hnd]. simpl. rewrite IH by done.
  rewrite Array_find_cons, Hf. destruct (decide (x.1 = k)) as [<-|Hk].
  - replace (Array_find _ l) with (@None (string * A)).
    + destruct (h x); [by rewrite lookup_insert_eq|done].
    + symmetry. apply Array_find_None, Forall_forall. intros y Hy Heq.
      apply Hx. rewrite <- Heq. apply list_elem_of_fmap. eauto.
  - destruct (Array_find _ l) as [y|].
    + destruct (h y); [done|].
      destruct (h x); [by rewrite lookup_insert_ne|done].
    + destruct (h x); [by rewrite lookup_insert_ne|done].
Qed.




(** *** The three projections *)








Lemma filter_all {A} (l : list A) : filter (λ _ : A, True) l = l.
Proof.
  induction l as [|x l IH]; [done|].
  rewrite filter_cons. rewrite decide_True by done. by rewrite IH.
Qed.


(** B's review is stored first; A, with 120 minutes against 80, is listed
    first. *)
Example sample_db3_order :
  Review.user <$> Product.reviews
                    (default Sample.G (products sample_db3 !! "G"))
  = ["B"; "A"]
  ∧ (handle (productController.getProductComments "G") sample_db3).1
    = mkReply 200
        (commentsOf "G" "Cyber Odyssey"
           [mkReviewView "A" (Some (Num 5)) (Some "Amazing open world!") 120;
            mkReviewView "B" (Some (Num 3)) (Some "Solid RPG mechanics.") 80]).
Proof. by vm_compute. Qed.

(** ** The deletion clean-up in general *)

Lemma for_of_User_save (f : ObjectId * User.t → User.t)
    (l : list (ObjectId * User.t)) (db : DB) :
  for_of l (λ doc, Model.User_save doc.1 (f doc)) db
  = (Done tt,
     mkDB (foldl (λ m doc, <[doc.1 := f doc]> m) (users db) l) (products db)).
Proof.
  revert db. induction l as [|doc l IH]; intros db; [by destruct db|].
  simpl. unfold bind at 1, Model.User_save at 1. by rewrite IH.
Qed.

Lemma filter_keeps_all {A} (P : A → Prop) `{∀ x, Decision (P x)} (l : list A) :
  Forall P l → filter P l = l.
Proof.
  induction 1 as [|x l Hx _ IH]; [done|].
  rewrite filter_cons. rewrite decide_True by done. by rewrite IH.
Qed.

Lemma withoutGame_other productId u :
  ¬ playTime_product productId u → withoutGame productId u = u.
Proof.
  intros Hn. unfold withoutGame. destruct u as [name l].
  unfold User.set_playTime. simpl. f_equal.
  apply filter_keeps_all, Forall_forall. intros pt Hpt Heq.
  apply Hn, Exists_exists. eauto.
Qed.

Lemma withoutGame_gone productId u :
  gamePlayData productId (withoutGame productId u) = None.
Proof.
  apply Array_find_None, Forall_forall. intros pt Hpt.
  by apply list_elem_of_filter in Hpt as [Hne _].
Qed.

(** [deleteProduct] removes the entry of the game from the ledger of every
    user, removes the game, and reports the number of users that had one. *)
Lemma deleteProduct_cleans (productId : ObjectId) (db : DB) (p : Product.t) :
  products db !! productId = Some p →
  ∃ db',
    handle (productController.deleteProduct productId) db
    = (mkReply 200 (productRemoved
         "Product removed successfully and all associated user data cleaned up"
         (length (usersWhoPlayed productId db))), db')
    ∧ products db' = delete productId (products db)
    ∧ (∀ id, users db' !! id = withoutGame productId <$> users db !! id)
    ∧ (∀ userId, (storedTime db' userId productId == 0)%Q).
Proof.
  intros Hp.
  unfold handle, productController.deleteProduct, try_catch.
  unfold bind at 1. unfold Model.Product_findById. cbn [fst snd]. rewrite Hp.
  unfold bind at 1. unfold Model.User_find. cbn [fst snd].
  fold (usersWhoPlayed productId db).
  unfold bind at 1.
  rewrite (for_of_User_save (λ doc, withoutGame productId doc.2)).
  unfold bind, Model.Product_deleteOne, ret. cbn [fst snd users products].
  eexists. split; [done|]. cbn [users products].
  assert (Hus : ∀ id,
    foldl (λ m doc, <[doc.1 := withoutGame productId doc.2]> m) (users db)
      (usersWhoPlayed productId db) !! id
    = withoutGame productId <$> users db !! id).
  { intros id.
    rewrite (foldl_insert_lookup (λ x, Some (withoutGame productId x.2)));
      [|done|apply usersWhoPlayed_NoDup].
    unfold usersWhoPlayed.
    rewrite (find_in_collection (λ x, playTime_product productId x.2)).
    destruct (users db !! id) as [u|]; [|done]. simpl.
    destruct (decide _) as [Hpl|Hpl]; [done|].
    simpl in Hpl. by rewrite withoutGame_other. }
  split; [done|]. split; [done|].
  intros userId. unfold storedTime. cbn [users]. rewrite Hus.
  destruct (users db !! userId) as [u|]; [|reflexivity]. simpl.
  unfold Spec.time_of. rewrite withoutGame_gone. reflexivity.
Qed.

Lemma validate_withoutReviewsOf userId p :
  Product_validate p = true →
  Product_validate (withoutReviewsOf userId p) = true.
Proof.
  unfold Product_validate, withoutReviewsOf. simpl.
  rewrite !andb_true_iff. intros [Hfields Hall]. split; [done|].
  rewrite forallb_forall in *. intros r Hr. apply Hall.
  apply list_elem_of_In. apply list_elem_of_In in Hr.
  by apply list_elem_of_filter in Hr as [_ Hr].
Qed.

(** One round of the loop of [deleteUser]. *)
Lemma deleteUser_step userId (db db1 : DB) (doc : ObjectId * Product.t) :
  users db1 = users db →
  Product_validate doc.2 = true →
  (Model.Product_save doc.1 (withoutReviewsOf userId doc.2) ;;
   userController.updateWeightedProductRating doc.1) db1
  = (Done tt,
     mkDB (users db1)
       (<[doc.1 :=
            Product.set_rating
              (userRating.value doc.1 db (withoutReviewsOf userId doc.2))
              (withoutReviewsOf userId doc.2)]> (products db1))).
Proof.
  intros Hus Hv. unfold bind, Model.Product_save.
  rewrite (validate_withoutReviewsOf userId _ Hv).
  rewrite userController_update_eq. cbn [users products].
  rewrite lookup_insert_eq, (validate_withoutReviewsOf userId _ Hv).
  rewrite insert_insert_eq.
  by rewrite (userRating_value_ext doc.1 _ db _ (withoutReviewsOf userId doc.2)).
Qed.

Lemma for_of_products (F : ObjectId * Product.t → Product.t)
    (step : ObjectId * Product.t → Async unit)
    (l : list (ObjectId * Product.t)) (db0 db : DB) :
  users db = users db0 →
  (∀ doc db1, doc ∈ l → users db1 = users db0 →
     step doc db1
     = (Done tt, mkDB (users db1) (<[doc.1 := F doc]> (products db1)))) →
  for_of l step db
  = (Done tt,
     mkDB (users db) (foldl (λ m doc, <[doc.1 := F doc]> m) (products db) l)).
Proof.
  revert db. induction l as [|doc l IH]; intros db Hus Hstep.
  - by destruct db.
  - simpl. unfold bind at 1. rewrite Hstep; [|by left|done].
    rewrite IH; [done|done|].
    intros doc' db1 Hin. apply Hstep. by right.
Qed.

(** [deleteUser] removes the reviews of the user from every game that has
    one, sets the count of that game to the length of what remains, writes
    the rating computed from the remaining reviews, and then removes the
    user; the other games are left as they are. *)
Lemma deleteUser_cleans (userId : ObjectId) (db : DB) (u : User.t) :
  users db !! userId = Some u →
  (∀ id p, products db !! id = Some p → Product_validate p = true) →
  ∃ db',
    handle (userController.deleteUser userId) db
    = (mkReply 200 (message
         "User removed successfully and all associated data cleaned up"), db')
    ∧ users db' = delete userId (users db)
    ∧ ∀ id,
        products db' !! id
        = (λ p, if decide (reviews_user userId p)
                then Product.set_rating
                       (userRating.value id db (withoutReviewsOf userId p))
                       (withoutReviewsOf userId p)
                else p) <$> products db !! id.
Proof.
  intros Hu Hvalid.
  unfold handle, userController.deleteUser, try_catch.
  unfold bind at 1. unfold Model.User_findById. cbn [fst snd]. rewrite Hu.
  unfold bind at 1. unfold Model.Product_find. cbn [fst snd].
  set (docs := filter _ (map_to_list (products db))).
  unfold bind at 1.
  rewrite (for_of_products
             (λ doc, Product.set_rating
                       (userRating.value doc.1 db (withoutReviewsOf userId doc.2))
                       (withoutReviewsOf userId doc.2)) _ docs db db eq_refl).
  2: { intros doc db1 Hin Hus.
       apply (deleteUser_step userId db db1 doc Hus).
       apply list_elem_of_filter in Hin as [_ Hin]. destruct doc as [id p].
       apply elem_of_map_to_list in Hin. by apply (Hvalid id). }
  unfold bind, Model.User_deleteOne, ret. cbn [fst snd users products].
  eexists. split; [done|]. cbn [users products]. split; [done|].
  intros id.
  rewrite (foldl_insert_lookup
             (λ x, Some (Product.set_rating
                           (userRating.value x.1 db (withoutReviewsOf userId x.2))
                           (withoutReviewsOf userId x.2)))).
  2: done.
  2: { apply (sublist_NoDup _ (map_to_list (products db)).*1).
       - apply NoDup_fst_map_to_list.
       - apply fmap_sublist, sublist_filter. }
  subst docs.
  rewrite (find_in_collection (λ x, reviews_user userId x.2)).
  destruct (products db !! id) as [p|]; [|done]. simpl.
  by destruct (decide (reviews_user userId p)).
Qed.


(** ** The invariant of the review store *)

Lemma review_store_ok_set_rating q p :
  review_store_ok (Product.set_rating q p) ↔ review_store_ok p.
Proof. done. Qed.

(** The rating update changes nothing but ratings. *)
Lemma recomputed_lookup productId db id p' :
  products (recomputed productId db) !! id = Some p' →
  ∃ p q, products db !! id = Some p ∧ p' = Product.set_rating q p.
Proof.
  unfold recomputed. rewrite productController_update_eq. simpl.
  assert (Hsame : ∀ p, Product.set_rating (Product.rating p) p = p)
    by (by intros []).
  destruct (products db !! productId) as [p|] eqn:Hp.
  2: { intros H. exists p', (Product.rating p'). by rewrite Hsame. }
  destruct (productRating.value productId db p) as [q|].
  2: { intros H. exists p', (Product.rating p'). by rewrite Hsame. }
  destruct (Product_validate p).
  2: { intros H. exists p', (Product.rating p'). by rewrite Hsame. }
  simpl. destruct (decide (productId = id)) as [<-|Hne].
  - rewrite lookup_insert_eq. intros [= <-]. eauto.
  - rewrite lookup_insert_ne by done.
    intros H. exists p', (Product.rating p'). by rewrite Hsame.
Qed.

Lemma fmap_alter_same {A B} (g : A → B) (f : A → A) (i : nat) (l : list A) :
  (∀ x, g (f x) = g x) → g <$> alter f i l = g <$> l.
Proof.
  intros Hg. revert i. induction l as [|x l IH]; intros [|i]; csimpl; [done..| |].
  - by rewrite Hg.
  - by rewrite IH.
Qed.

Lemma withUpdatedReview_ok i user rating comment p :
  review_store_ok p →
  review_store_ok (withUpdatedReview i user rating comment p).
Proof.
  intros [Hn Hnd]. unfold review_store_ok, withUpdatedReview,
    one_review_per_user, length_num in *. simpl.
  rewrite length_alter. split; [done|].
  rewrite fmap_alter_same; [done|].
  intros r. unfold updatedReview. by destruct rating, comment.
Qed.

Lemma withNewReview_ok userId user rating comment p :
  Array_findIndex (λ r, Review.user r = userId) (Product.reviews p) = None →
  review_store_ok p →
  review_store_ok (withNewReview userId user rating comment p).
Proof.
  intros Hi [_ Hnd]. split; [done|].
  unfold one_review_per_user, withNewReview in *. simpl.
  rewrite fmap_app. apply NoDup_app. split; [done|]. split.
  - intros x Hx Hin. simpl in Hin. apply list_elem_of_singleton in Hin as ->.
    apply list_elem_of_fmap in Hx as (r & Hr & Hin).
    apply Array_findIndex_None, Array_find_None in Hi.
    rewrite Forall_forall in Hi. by apply (Hi r).
  - simpl. apply NoDup_singleton.
Qed.

(** A review submission keeps the invariant of every stored game. *)
Lemma review_submission_keeps_store (req : productController.ReviewRequest)
    (db : DB) :
  (∀ id p, products db !! id = Some p → review_store_ok p) →
  ∀ id p,
    products (handle (productController.addOrUpdateProductReview req) db).2
      !! id = Some p →
    review_store_ok p.
Proof.
  intros Hok id p'.
  pose proof (addOrUpdateProductReview_eq req db) as E. cbv zeta in E.
  rewrite E. clear E.
  set (g := productController.review_params_id req).
  set (uid := productController.review_user_id req).
  repeat match goal with
         | |- context [if ?b then _ else _] => destruct b; try apply Hok
         end.
  destruct (products db !! g) as [p|] eqn:Hp; [|apply Hok].
  destruct (users db !! uid) as [u|]; [|apply Hok].
  destruct (Qltb _ 60); [apply Hok|].
  destruct (_ && Product.disableRating p); [apply Hok|].
  destruct (_ && Product.disableCommenting p); [apply Hok|].
  destruct (Array_findIndex _ (Product.reviews p)) as [i|] eqn:Hi.
  - destruct (Product_validate _); [|apply Hok]. simpl.
    intros (p1 & q & Hp1 & ->)%recomputed_lookup. simpl in Hp1.
    apply review_store_ok_set_rating.
    destruct (decide (g = id)) as [<-|Hne].
    + rewrite lookup_insert_eq in Hp1. injection Hp1 as <-.
      apply withUpdatedReview_ok. by apply (Hok g).
    + rewrite lookup_insert_ne in Hp1 by done. by apply (Hok id).
  - destruct (Product_validate _); [|apply Hok]. simpl.
    intros (p1 & q & Hp1 & ->)%recomputed_lookup. simpl in Hp1.
    apply review_store_ok_set_rating.
    destruct (decide (g = id)) as [<-|Hne].
    + rewrite lookup_insert_eq in Hp1. injection Hp1 as <-.
      apply withNewReview_ok; [done|]. by apply (Hok g).
    + rewrite lookup_insert_ne in Hp1 by done. by apply (Hok id).
Qed.

(** The fields of the body that are copied onto the document keep the
    review list, and keep the count unless [numReviews] is among them. *)
Lemma assign_fields_keep (fields : list productController.OtherField)
    (p : Product.t) :
  Product.reviews (foldl (λ p f, productController.assign f p) p fields)
  = Product.reviews p
  ∧ (Forall (λ f, ¬ is_numReviews f) fields →
     Product.numReviews (foldl (λ p f, productController.assign f p) p fields)
     = Product.numReviews p).
Proof.
  revert p. induction fields as [|f fields IH]; intros p; [done|].
  simpl. destruct (IH (productController.assign f p)) as [Hr Hn]. split.
  - rewrite Hr. by destruct f.
  - intros [Hf Hfs]%Forall_cons. rewrite Hn by done. by destruct f.
Qed.

(** An admin update whose body does not carry [numReviews] keeps the
    invariant of every stored game. *)
Lemma updateProduct_keeps_store (req : productController.ProductRequest)
    (db : DB) :
  Forall (λ f, ¬ is_numReviews f)
    (productController.otherFields (productController.product_body req)) →
  (∀ id p, products db !! id = Some p → review_store_ok p) →
  ∀ id p,
    products (handle (productController.updateProduct req) db).2 !! id
    = Some p →
    review_store_ok p.
Proof.
  intros Hf Hok id p'.
  unfold handle, productController.updateProduct, try_catch.
  repeat match goal with
         | |- context [if ?b then _ else _] => destruct b; try apply Hok
         end.
  unfold bind, Model.Product_findById, Model.Product_save, ret. cbn [fst snd].
  destruct (products db !! productController.product_params_id req)
    as [p|] eqn:Hp; [|apply Hok].
  set (p1 := Product.mk _ _ _ _ _ _ _ _ _ _ _ _).
  destruct (assign_fields_keep
              (productController.otherFields (productController.product_body req))
              p1) as [Hr Hn].
  destruct (Product_validate _); [|apply Hok]. simpl.
  destruct (decide (productController.product_params_id req = id)) as [<-|Hne].
  - rewrite lookup_insert_eq. intros [= <-].
    destruct (Hok _ _ Hp) as [Hcount Hnd].
    split; unfold one_review_per_user; rewrite Hr; [|done].
    by rewrite Hn.
  - rewrite lookup_insert_ne by done. apply Hok.
Qed.

(** ** Updates of a stored review *)

Lemma recomputed_keeps productId db id p :
  products db !! id = Some p →
  ∃ q, products (recomputed productId db) !! id
       = Some (Product.set_rating q p).
Proof.
  intros Hp. unfold recomputed. rewrite productController_update_eq. simpl.
  assert (Hsame : Product.set_rating (Product.rating p) p = p)
    by (by destruct p).
  destruct (products db !! productId) as [p0|] eqn:Hp0.
  2: { exists (Product.rating p). by rewrite Hsame. }
  destruct (productRating.value productId db p0) as [q|].
  2: { exists (Product.rating p). by rewrite Hsame. }
  destruct (Product_validate p0).
  2: { exists (Product.rating p). by rewrite Hsame. }
  simpl. destruct (decide (productId = id)) as [<-|Hne].
  - rewrite lookup_insert_eq. exists q. congruence.
  - rewrite lookup_insert_ne by done. exists (Product.rating p).
    by rewrite Hsame.
Qed.

Lemma forallb_alter {A} (f : A → bool) (g : A → A) (i : nat) (l : list A) :
  (∀ x, f x = true → f (g x) = true) →
  forallb f l = true → forallb f (alter g i l) = true.
Proof.
  intros Hg. revert i. induction l as [|x l IH]; intros [|i]; csimpl;
    try done; rewrite !andb_true_iff; intros [??]; auto.
Qed.

Lemma validate_updatedReview user rating comment r :
  User.name user ≠ "" →
  (∀ n, rating = Some n → n ≠ NaN) →
  (∀ c, comment = Some c → c ≠ "") →
  reviewSchema.validate r = true →
  reviewSchema.validate (updatedReview user rating comment r) = true.
Proof.
  intros Hname Hr Hc. unfold reviewSchema.validate, updatedReview.
  rewrite !andb_true_iff. intros [[_ Hrat] Hcom]. repeat split.
  - simpl. apply negb_true_iff, String.eqb_neq.
    by destruct rating, comment.
  - destruct rating as [[|q]|]; [by destruct (Hr NaN)|by destruct comment..].
  - destruct comment as [c|]; [|by destruct rating]. simpl.
    apply negb_true_iff, String.eqb_neq. by apply Hc.
Qed.

(** Once a review of the user is stored, a submission that carries the
    rating alone or the comment alone is accepted: the entry keeps its place
    and its other field, takes the fields provided and the current name of
    the user, and no entry is added. *)
Lemma partial_update_of_stored_review (req : productController.ReviewRequest)
    (db : DB) (p : Product.t) (u : User.t) (i : nat) :
  let productId := productController.review_params_id req in
  let userId := productController.review_user_id req in
  let rating := productController.body_rating req in
  let comment := productController.body_comment req in
  products db !! productId = Some p →
  users db !! userId = Some u →
  Array_findIndex (λ r, Review.user r = userId) (Product.reviews p) = Some i →
  rating ≠ None ∨ comment ≠ None →
  (∀ n, rating = Some n → ∃ q, n = Num q ∧ (1 <= q <= 5)%Q) →
  (∀ c, comment = Some c → c ≠ "") →
  (60 <= Spec.time_of productId u)%Q →
  Product.disableRating p = false → Product.disableCommenting p = false →
  Product_validate p = true → User.name u ≠ "" →
  (handle (productController.addOrUpdateProductReview req) db).1
  = mkReply 200 (message "Review updated")
  ∧ ∃ p',
      products (handle (productController.addOrUpdateProductReview req) db).2
        !! productId = Some p'
      ∧ Product.reviews p'
        = alter (updatedReview u rating comment) i (Product.reviews p)
      ∧ Product.numReviews p' = Product.numReviews p.
Proof.
  intros g uid rating comment Hp Hu Hi Hprov Hrange Hcom Htime Hdr Hdc Hv Hname.
  pose proof (addOrUpdateProductReview_eq req db) as E. cbv zeta in E.
  rewrite E. clear E. fold g uid rating comment.
  assert (bool_decide (rating = None) && bool_decide (comment = None) = false)
    as ->.
  { apply andb_false_iff. destruct Hprov; [left|right];
      by apply bool_decide_eq_false. }
  assert (match rating with
          | Some n => JS.lt n (Num 1) || JS.gt n (Num 5)
          | None => false
          end = false) as ->.
  { destruct rating as [n|]; [|done].
    destruct (Hrange n eq_refl) as (q & -> & H1 & H5).
    apply orb_false_iff. split; by apply Qltb_ge. }
  rewrite Hp, Hu. apply Qltb_ge in Htime. rewrite Htime, Hdr, Hdc, Hi.
  rewrite !andb_false_r.
  assert (Product_validate (withUpdatedReview i u rating comment p) = true)
    as ->.
  { revert Hv. unfold Product_validate, withUpdatedReview. simpl.
    rewrite !andb_true_iff. intros [Hfields Hall]. split; [done|].
    apply forallb_alter; [|done]. intros r.
    apply validate_updatedReview; [done| |done].
    intros n Hn. by destruct (Hrange n Hn) as (q & -> & _). }
  split; [done|]. simpl.
  destruct (recomputed_keeps g
              (mkDB (users db)
                 (<[g := withUpdatedReview i u rating comment p]> (products db)))
              g (withUpdatedReview i u rating comment p)) as [q Hq].
  { simpl. apply lookup_insert_eq. }
  rewrite Hq. eexists. split; [done|]. done.
Qed.

(** * Further properties of the handlers *)

(** ** The handlers, case by case *)

Lemma withPlay_entry productId minutes u :
  ∃ pt', gamePlayData productId (withPlay productId minutes u) = Some pt'
         ∧ PlayTime.product pt' = productId
         ∧ match gamePlayData productId u with
           | Some pt => PlayTime.time pt' = (PlayTime.time pt + minutes)%Q
           | None => PlayTime.time pt' = minutes
           end.
Proof.
  unfold withPlay, gamePlayData.
  destruct (Array_findIndex _ (User.playTime u)) as [i|] eqn:Hi; simpl.
  - rewrite (Array_find_alter _ _ _ i) by done.
    destruct (Array_find _ (User.playTime u)) as [pt|] eqn:Hpt.
    + eexists. split; [done|]. split; [|done]. simpl.
      by apply Array_find_Some_P in Hpt as [Hp _].
    + apply Array_findIndex_None in Hpt. congruence.
  - apply Array_findIndex_None in Hi. rewrite Hi.
    eexists. split; [by apply Array_find_app_new|]. done.
Qed.

Lemma withPlay_other productId minutes u g :
  g ≠ productId →
  gamePlayData g (withPlay productId minutes u) = gamePlayData g u.
Proof.
  intros Hg. unfold withPlay, gamePlayData.
  destruct (Array_findIndex _ (User.playTime u)) as [i|] eqn:Hi; simpl.
  - eapply Array_find_alter_other; [|done]. simpl. intros pt ->. by split.
  - apply Array_find_app_other. simpl. congruence.
Qed.

Lemma playGame_eq (req : productController.PlayRequest) (db : DB) :
  let productId := productController.play_params_id req in
  let userId := productController.play_user_id req in
  handle (productController.playGame req) db =
  match productController.play_time req with
  | NaN => (mkReply 400 (message "Valid playtime value is required"), db)
  | Num minutes =>
      if Qle_bool minutes 0 then
        (mkReply 400 (message "Valid playtime value is required"), db)
      else
      match products db !! productId, users db !! userId with
      | None, _ => (mkReply 404 (message "Game not found"), db)
      | Some _, None => (mkReply 404 (message "User not found"), db)
      | Some _, Some u =>
          (mkReply 200 (playTimeUpdated "Playtime updated successfully"
                          (Spec.time_of productId
                             (withPlay productId minutes u))),
           recomputed productId
             (mkDB (<[userId := withPlay productId minutes u]> (users db))
                (products db)))
      end
  end.
Proof.
  destruct req as [g uid t errs]. simpl.
  destruct t as [|minutes]; [done|].
  destruct (Qle_bool minutes 0) eqn:Hle.
  { unfold handle, productController.playGame, try_catch. simpl.
    by rewrite Hle, orb_true_r. }
  assert (Hne : Qeq_bool minutes 0 = false).
  { apply not_true_is_false. intros H. apply Qeq_bool_iff in H.
    assert (Qle_bool minutes 0 = true); [|congruence].
    apply Qle_bool_iff. rewrite H. apply Qle_refl. }
  unfold handle, productController.playGame, try_catch, bind,
    Model.Product_findById, Model.User_findById, Model.User_save, ret, throw,
    background. simpl. rewrite Hne, Hle. simpl.
  destruct (products db !! g) as [p|]; [|done]. simpl.
  destruct (users db !! uid) as [u|] eqn:Hu; [|done].
  fold (withPlay g minutes u).
  rewrite productController_update_done.
  destruct (withPlay_entry g minutes u) as (pt' & Hpt' & _).
  unfold Spec.time_of. by rewrite Hpt'.
Qed.

Lemma createProduct_eq (req : productController.ProductRequest) (db : DB) :
  let b := productController.product_body req in
  handle (productController.createProduct req) db =
  if negb (bool_decide (productController.product_errors req = [])) then
    (mkReply 400 (errors (productController.product_errors req)), db)
  else if productController.invalid_category
            (productController.body_category b) then
    (mkReply 400 (message "Category must be an array with 1-5 genres"), db)
  else if productController.invalid_format
            (productController.or_string (productController.body_image b) "")
  then (mkReply 400 (message "Image must be PNG or JPG/JPEG format"), db)
  else if String.eqb
            (productController.or_string (productController.body_image b) "")
            "" then
    (mkReply 400 (message "Image is required"), db)
  else if Product_validate (newProduct req) then
    (mkReply 201 (productDoc (productController.product_new_id req)
                    (newProduct req)),
     mkDB (users db)
       (<[productController.product_new_id req := newProduct req]>
          (products db)))
  else (ServerError, db).
Proof.
  simpl. unfold handle, productController.createProduct, try_catch.
  destruct (negb _); [done|].
  destruct (productController.invalid_category _); [done|].
  destruct (productController.invalid_format _); [done|].
  destruct (String.eqb _ ""); [done|].
  unfold bind, Model.Product_save, ret. fold (newProduct req).
  by destruct (Product_validate (newProduct req)).
Qed.

Lemma updateProduct_eq (req : productController.ProductRequest) (db : DB) :
  let b := productController.product_body req in
  let productId := productController.product_params_id req in
  handle (productController.updateProduct req) db =
  if negb (bool_decide (productController.product_errors req = [])) then
    (mkReply 400 (errors (productController.product_errors req)), db)
  else if match productController.body_category b with
          | productController.category_undefined => false
          | c => productController.invalid_category c
          end then
    (mkReply 400 (message "Category must be an array with 1-5 genres"), db)
  else if productController.invalid_format
            (productController.or_string (productController.body_image b) "")
  then (mkReply 400 (message "Image must be PNG or JPG/JPEG format"), db)
  else
  match products db !! productId with
  | Some product =>
      if Product_validate (updatedProduct req product) then
        (mkReply 200 (productDoc productId (updatedProduct req product)),
         mkDB (users db)
           (<[productId := updatedProduct req product]> (products db)))
      else (ServerError, db)
  | None => (mkReply 404 (message "Product not found"), db)
  end.
Proof.
  simpl. unfold handle, productController.updateProduct, try_catch.
  destruct (negb _); [done|].
  destruct (match productController.body_category _ with
            | productController.category_undefined => false
            | _ => _
            end); [done|].
  destruct (productController.invalid_format _); [done|].
  unfold bind, Model.Product_findById, Model.Product_save, ret. cbn [fst snd].
  destruct (products db !! _) as [p|]; [|done].
  fold (updatedProduct req p).
  by destruct (Product_validate (updatedProduct req p)).
Qed.

Lemma deleteProduct_missing (productId : ObjectId) (db : DB) :
  products db !! productId = None →
  handle (productController.deleteProduct productId) db
  = (mkReply 404 (message "Product not found"), db).
Proof.
  intros Hp. unfold handle, productController.deleteProduct, try_catch, bind,
    Model.Product_findById, ret. cbn [fst snd]. by rewrite Hp.
Qed.

Lemma deleteUser_missing (userId : ObjectId) (db : DB) :
  users db !! userId = None →
  handle (userController.deleteUser userId) db
  = (mkReply 404 (message "User not found"), db).
Proof.
  intros Hp. unfold handle, userController.deleteUser, try_catch, bind,
    Model.User_findById, ret. cbn [fst snd]. by rewrite Hp.
Qed.

(** ** What a request leaves behind *)

Lemma set_rating_same p : Product.set_rating (Product.rating p) p = p.
Proof. by destruct p. Qed.

Lemma recomputed_users productId db : users (recomputed productId db) = users db.
Proof. apply productController_update_users. Qed.

Lemma getProductById_read_only id db :
  (handle (productController.getProductById id) db).2 = db.
Proof.
  unfold handle, productController.getProductById, try_catch, bind,
    Model.Product_findById, Model.User_find, productController.populate,
    productController.lift, ret. cbn [fst snd].
  destruct (products db !! id) as [p|]; [|done].
  destruct (Product.reviews p); [done|].
  by destruct (productController.map_throwing _ _).
Qed.

Lemma getProductComments_read_only id db :
  (handle (productController.getProductComments id) db).2 = db.
Proof.
  unfold handle, productController.getProductComments, try_catch, bind,
    Model.Product_findById, Model.User_find, productController.populate,
    productController.lift, ret. cbn [fst snd].
  destruct (products db !! id) as [p|]; [|done].
  by destruct (productController.withPlaytime _ _).
Qed.

Lemma map_async_read_only {A B} (f : A → Async B) (l : list A) (db : DB) :
  (∀ x, (f x db).2 = db) → (productController.map_async f l db).2 = db.
Proof.
  intros Hf. induction l as [|x l IH]; [done|].
  simpl. unfold bind at 1. specialize (Hf x).
  destruct (f x db) as [[y|] db1]; simpl in Hf; subst db1; [|done].
  unfold bind at 1.
  destruct (productController.map_async f l db) as [[ys|] db2];
    simpl in IH; by subst db2.
Qed.

Lemma getDetailedProducts_read_only db :
  (handle productController.getDetailedProducts db).2 = db.
Proof.
  unfold handle, productController.getDetailedProducts, try_catch.
  unfold bind at 1. unfold Model.Product_find. cbn [fst snd].
  unfold bind at 1.
  match goal with
  | |- context [productController.map_async ?f ?l db] =>
      pose proof (map_async_read_only f l db) as H;
      destruct (productController.map_async f l db) as [[gs|] db1]
  end.
  - simpl in *. rewrite H; [done|]. intros doc.
    unfold bind, productController.populate, Model.User_find,
      productController.lift, ret. cbn [fst snd].
    by destruct (productController.withPlaytime _ _).
  - simpl in *. rewrite H; [done|]. intros doc.
    unfold bind, productController.populate, Model.User_find,
      productController.lift, ret. cbn [fst snd].
    by destruct (productController.withPlaytime _ _).
Qed.

(** The users after a request: as before, one ledger replaced by
    [playGame], every ledger cleaned by [deleteProduct], or one user removed
    by [deleteUser]. *)
Lemma users_after (r : Request) (db : DB) :
  documents_valid db →
  users (handle (router r) db).2 = users db
  ∨ (∃ req u minutes,
       r = POST_products_id_play req
       ∧ productController.play_time req = Num minutes ∧ (0 < minutes)%Q
       ∧ users db !! productController.play_user_id req = Some u
       ∧ users (handle (router r) db).2
         = <[productController.play_user_id req :=
               withPlay (productController.play_params_id req) minutes u]>
             (users db))
  ∨ (∃ productId,
       r = DELETE_products_id productId
       ∧ ∀ id, users (handle (router r) db).2 !! id
               = withoutGame productId <$> users db !! id)
  ∨ (∃ userId,
       r = DELETE_users_id userId
       ∧ users (handle (router r) db).2 = delete userId (users db)).
Proof.
  intros Hvalid. destruct r as [|id|id|req|req|req|req|id|id]; simpl.
  - left. by rewrite getDetailedProducts_read_only.
  - left. by rewrite getProductById_read_only.
  - left. by rewrite getProductComments_read_only.
  - left. pose proof (addOrUpdateProductReview_eq req db) as E.
    cbv zeta in E. rewrite E. clear E.
    repeat match goal with
           | |- context [if ?b then _ else _] => destruct b
           | |- context [match ?o with Some _ => _ | None => _ end] =>
               destruct o
           end; simpl; try done; by rewrite recomputed_users.
  - pose proof (playGame_eq req db) as E. cbv zeta in E. rewrite E. clear E.
    destruct (productController.play_time req) as [|minutes] eqn:Ht;
      [by left|].
    destruct (Qle_bool minutes 0) eqn:Hle; [by left|].
    destruct (products db !! _); [|by left].
    destruct (users db !! _) as [u|] eqn:Hu; [|by left].
    right. left. exists req, u, minutes. simpl. rewrite recomputed_users.
    repeat split; try done.
    apply Qnot_le_lt. intros H. apply Qle_bool_iff in H. congruence.
  - left. pose proof (createProduct_eq req db) as E. cbv zeta in E.
    rewrite E. clear E.
    repeat match goal with
           | |- context [if ?b then _ else _] => destruct b
           end; done.
  - left. pose proof (updateProduct_eq req db) as E. cbv zeta in E.
    rewrite E. clear E.
    repeat match goal with
           | |- context [if ?b then _ else _] => destruct b
           | |- context [match ?o with Some _ => _ | None => _ end] =>
               destruct o
           end; done.
  - destruct (products db !! id) as [p|] eqn:Hp.
    + right. right. left. exists id. split; [done|].
      destruct (deleteProduct_cleans id db p Hp) as (db' & Hh & _ & Hus & _).
      by rewrite Hh.
    + left. by rewrite deleteProduct_missing.
  - destruct (users db !! id) as [u|] eqn:Hu.
    + right. right. right. exists id. split; [done|].
      destruct (deleteUser_cleans id db u Hu Hvalid) as (db' & Hh & Hus & _).
      by rewrite Hh.
    + left. by rewrite deleteUser_missing.
Qed.

(** The games after a request: every stored game passes validation, and its
    review list is empty (a new game), the list it had, that list without
    the reviews of one user, or that list with one review updated in place
    or one review pushed at the end. *)
Lemma reviews_after (r : Request) (db : DB) (id : ObjectId) (p' : Product.t) :
  documents_valid db →
  products (handle (router r) db).2 !! id = Some p' →
  Product_validate p' = true ∧ reviews_origin r db id (Product.reviews p').
Proof.
  intros Hvalid.
  assert (Hsame : products db !! id = Some p' →
    Product_validate p' = true ∧ reviews_origin r db id (Product.reviews p')).
  { intros Hp. split; [by apply (Hvalid id)|]. right. exists p'.
    by split; [|left]. }
  assert (Hrating : ∀ g db1,
    (∀ p1, products db1 !! id = Some p1 →
       Product_validate p1 = true
       ∧ reviews_origin r db id (Product.reviews p1)) →
    products (recomputed g db1) !! id = Some p' →
    Product_validate p' = true ∧ reviews_origin r db id (Product.reviews p')).
  { intros g db1 H1 (p1 & q & Hp1 & ->)%recomputed_lookup.
    exact (H1 p1 Hp1). }
  destruct r as [|pid|pid|req|req|req|req|pid|uid]; simpl.
  - rewrite getDetailedProducts_read_only. apply Hsame.
  - rewrite getProductById_read_only. apply Hsame.
  - rewrite getProductComments_read_only. apply Hsame.
  - pose proof (addOrUpdateProductReview_eq req db) as E.
    cbv zeta in E. rewrite E. clear E.
    set (g := productController.review_params_id req).
    set (uid := productController.review_user_id req).
    destruct (_ && _); [apply Hsame|].
    destruct (match productController.body_rating req with
              | Some _ => _ | None => _ end); [apply Hsame|].
    destruct (products db !! g) as [p|] eqn:Hp; [|apply Hsame].
    destruct (users db !! uid) as [u|] eqn:Hu; [|apply Hsame].
    destruct (Qltb _ 60); [apply Hsame|].
    destruct (_ && Product.disableRating p); [apply Hsame|].
    destruct (_ && Product.disableCommenting p); [apply Hsame|].
    destruct (Array_findIndex _ (Product.reviews p)) as [i|] eqn:Hi.
    + destruct (Product_validate (withUpdatedReview _ _ _ _ _)) eqn:Hv;
        [|apply Hsame]. simpl.
      apply Hrating. intros p1. simpl.
      destruct (decide (g = id)) as [<-|Hne].
      * rewrite lookup_insert_eq. intros [= <-]. split; [done|].
        right. exists p. split; [done|]. right. right. left.
        exists req, u, i. done.
      * rewrite lookup_insert_ne by done. intros Hp1.
        split; [by apply (Hvalid id)|]. right. exists p1. by split; [|left].
    + destruct (Product_validate (withNewReview _ _ _ _ _)) eqn:Hv;
        [|apply Hsame]. simpl.
      apply Hrating. intros p1. simpl.
      destruct (decide (g = id)) as [<-|Hne].
      * rewrite lookup_insert_eq. intros [= <-]. split; [done|].
        right. exists p. split; [done|]. right. right. right.
        exists req, u. done.
      * rewrite lookup_insert_ne by done. intros Hp1.
        split; [by apply (Hvalid id)|]. right. exists p1. by split; [|left].
  - pose proof (playGame_eq req db) as E. cbv zeta in E. rewrite E. clear E.
    destruct (productController.play_time req) as [|minutes];
      [apply Hsame|].
    destruct (Qle_bool minutes 0); [apply Hsame|].
    destruct (products db !! productController.play_params_id req);
      [|apply Hsame].
    destruct (users db !! productController.play_user_id req) as [u|];
      [|apply Hsame].
    simpl. apply Hrating. intros p1 Hp1. simpl in Hp1.
    split; [by apply (Hvalid id)|]. right. exists p1. by split; [|left].
  - pose proof (createProduct_eq req db) as E. cbv zeta in E.
    rewrite E. clear E.
    destruct (negb _); [apply Hsame|].
    destruct (productController.invalid_category _); [apply Hsame|].
    destruct (productController.invalid_format _); [apply Hsame|].
    destruct (String.eqb _ ""); [apply Hsame|].
    destruct (Product_validate (newProduct req)) eqn:Hv; [|apply Hsame]. simpl.
    destruct (decide (productController.product_new_id req = id)) as [<-|Hne].
    + rewrite lookup_insert_eq. intros [= <-]. split; [done|]. left.
      unfold newProduct. by rewrite (proj1 (assign_fields_keep _ _)).
    + rewrite lookup_insert_ne by done. apply Hsame.
  - pose proof (updateProduct_eq req db) as E. cbv zeta in E.
    rewrite E. clear E.
    destruct (negb _); [apply Hsame|].
    destruct (match productController.body_category _ with
              | productController.category_undefined => false
              | _ => _
              end); [apply Hsame|].
    destruct (productController.invalid_format _); [apply Hsame|].
    destruct (products db !! productController.product_params_id req)
      as [p|] eqn:Hp; [|apply Hsame].
    destruct (Product_validate (updatedProduct req p)) eqn:Hv;
      [|apply Hsame]. simpl.
    destruct (decide (productController.product_params_id req = id))
      as [<-|Hne].
    + rewrite lookup_insert_eq. intros [= <-]. split; [done|].
      right. exists p. split; [done|]. left.
      unfold updatedProduct. by rewrite (proj1 (assign_fields_keep _ _)).
    + rewrite lookup_insert_ne by done. apply Hsame.
  - destruct (products db !! pid) as [p|] eqn:Hp.
    + destruct (deleteProduct_cleans pid db p Hp) as (db' & Hh & Hps & _).
      rewrite Hh. simpl. rewrite Hps.
      intros [_ Hp']%lookup_delete_Some. by apply Hsame.
    + rewrite deleteProduct_missing by done. apply Hsame.
  - destruct (users db !! uid) as [u|] eqn:Hu.
    + destruct (deleteUser_cleans uid db u Hu Hvalid) as (db' & Hh & _ & Hps).
      rewrite Hh. simpl. rewrite Hps.
      destruct (products db !! id) as [p|] eqn:Hp; [|done]. simpl.
      intros [= <-]. destruct (decide (reviews_user uid p)).
      * split.
        { rewrite validate_set_rating. apply validate_withoutReviewsOf.
          by apply (Hvalid id). }
        right. exists p. split; [done|]. right. left. by exists uid.
      * split; [by apply (Hvalid id)|]. right. exists p. by split; [|left].
    + rewrite deleteUser_missing by done. apply Hsame.
Qed.

(** ** Invariants of the stored data *)

Lemma step_documents_valid (r : Request) (db : DB) :
  documents_valid db → documents_valid (handle (router r) db).2.
Proof. intros Hvalid id p' Hp'. by apply (reviews_after r db id p'). Qed.

Lemma serve_keeps (I : DB → Prop) :
  (∀ r db, documents_valid db → I db → I (handle (router r) db).2) →
  ∀ requests db,
    documents_valid db → I db →
    documents_valid (serve requests db) ∧ I (serve requests db).
Proof.
  intros Hstep requests. unfold serve.
  induction requests as [|r rs IH]; intros db Hv HI; [done|].
  simpl. apply IH; [by apply step_documents_valid|by apply Hstep].
Qed.



Lemma unique_of_origin (r : Request) (db : DB) (id : ObjectId)
    (l : list Review.t) :
  reviews_unique db → reviews_origin r db id l → one_review_per_user l.
Proof.
  intros Hun Ho. unfold one_review_per_user.
  destruct Ho as [->|(p & Hp & [->|[(uid & _ & ->)|[(req & u & i & _ & Hu & Hi & ->)
                                                  |(req & u & _ & Hu & Hi & ->)]]])].
  - constructor.
  - by apply (Hun id).
  - eapply sublist_NoDup; [by apply (Hun id p)|].
    apply fmap_sublist, sublist_filter.
  - rewrite fmap_alter_same; [by apply (Hun id)|].
    intros x. unfold updatedReview.
    by destruct (productController.body_rating req),
                (productController.body_comment req).
  - rewrite fmap_app. apply NoDup_app. split; [by apply (Hun id)|]. split.
    + intros a Ha Hin. simpl in Hin. apply list_elem_of_singleton in Hin as ->.
      apply list_elem_of_fmap in Ha as (x & Hx & Hin).
      apply Array_findIndex_None, Array_find_None in Hi.
      rewrite Forall_forall in Hi. by apply (Hi x).
    + simpl. apply NoDup_singleton.
Qed.

Lemma step_reviews_unique (r : Request) (db : DB) :
  documents_valid db → reviews_unique db →
  reviews_unique (handle (router r) db).2.
Proof.
  intros Hvalid Hun id p' Hp'.
  destruct (reviews_after r db id p' Hvalid Hp') as [_ Ho].
  by apply (unique_of_origin r db id).
Qed.

Lemma withPlay_unique productId minutes u :
  NoDup (PlayTime.product <$> User.playTime u) →
  NoDup (PlayTime.product <$> User.playTime (withPlay productId minutes u)).
Proof.
  intros Hnd. unfold withPlay.
  destruct (Array_findIndex _ (User.playTime u)) as [i|] eqn:Hi; simpl.
  - by rewrite fmap_alter_same.
  - rewrite fmap_app. apply NoDup_app. split; [done|]. split.
    + intros a Ha Hin. simpl in Hin. apply list_elem_of_singleton in Hin as ->.
      apply list_elem_of_fmap in Ha as (x & Hx & Hin).
      apply Array_findIndex_None, Array_find_None in Hi.
      rewrite Forall_forall in Hi. by apply (Hi x).
    + simpl. apply NoDup_singleton.
Qed.

Lemma withPlay_positive productId minutes u pt :
  (0 < minutes)%Q →
  (∀ pt, pt ∈ User.playTime u → (0 < PlayTime.time pt)%Q) →
  pt ∈ User.playTime (withPlay productId minutes u) →
  (0 < PlayTime.time pt)%Q.
Proof.
  intros Hm Hpos. unfold withPlay.
  destruct (Array_findIndex _ (User.playTime u)) as [i|] eqn:Hi; simpl.
  - intros (j & Hj)%list_elem_of_lookup.
    destruct (decide (i = j)) as [<-|Hne].
    + rewrite list_lookup_alter_eq in Hj.
      destruct (User.playTime u !! i) as [x|] eqn:Hx; simplify_eq/=.
      assert (0 < PlayTime.time x)%Q.
      { apply Hpos. by eapply list_elem_of_lookup_2. }
      lra.
    + rewrite list_lookup_alter_ne in Hj by done.
      apply Hpos. by eapply list_elem_of_lookup_2.
  - intros [Hin|Hin]%elem_of_app; [by apply Hpos|].
    by apply list_elem_of_singleton in Hin as ->.
Qed.

Lemma step_ledgers (r : Request) (db : DB) :
  documents_valid db →
  ledgers_unique db ∧ ledgers_positive db →
  ledgers_unique (handle (router r) db).2
  ∧ ledgers_positive (handle (router r) db).2.
Proof.
  intros Hvalid [Hun Hpos].
  destruct (users_after r db Hvalid)
    as [Hus|[(req & u & m & -> & _ & Hm & Hu & Hus)|[(pid & -> & Hus)|(uid & -> & Hus)]]].
  - unfold ledgers_unique, ledgers_positive. rewrite Hus. done.
  - split.
    + intros id u'. rewrite Hus.
      destruct (decide (productController.play_user_id req = id)) as [<-|Hne].
      * rewrite lookup_insert_eq. intros [= <-].
        apply withPlay_unique. by apply (Hun _ _ Hu).
      * rewrite lookup_insert_ne by done. apply Hun.
    + intros id u' pt. rewrite Hus.
      destruct (decide (productController.play_user_id req = id)) as [<-|Hne].
      * rewrite lookup_insert_eq. intros [= <-].
        apply withPlay_positive; [done|]. intros pt'. by apply (Hpos _ _ _ Hu).
      * rewrite lookup_insert_ne by done. apply Hpos.
  - split.
    + intros id u'. rewrite Hus.
      destruct (users db !! id) as [u|] eqn:Hu; [|done]. simpl.
      intros [= <-]. unfold withoutGame. simpl.
      eapply sublist_NoDup; [by apply (Hun id u)|].
      apply fmap_sublist, sublist_filter.
    + intros id u' pt. rewrite Hus.
      destruct (users db !! id) as [u|] eqn:Hu; [|done]. simpl.
      intros [= <-]. unfold withoutGame. simpl.
      intros [_ Hin]%list_elem_of_filter. by apply (Hpos id u).
  - split.
    + intros id u'. rewrite Hus. intros [_ Hu]%lookup_delete_Some.
      by apply (Hun id).
    + intros id u' pt. rewrite Hus. intros [_ Hu]%lookup_delete_Some.
      by apply (Hpos id).
Qed.

Lemma newProduct_reviews req : Product.reviews (newProduct req) = [].
Proof. unfold newProduct. cbv zeta. by rewrite (proj1 (assign_fields_keep _ _)). Qed.

Lemma newProduct_numReviews req :
  Forall (λ f, ¬ is_numReviews f)
    (productController.otherFields (productController.product_body req)) →
  Product.numReviews (newProduct req) = 0%Q.
Proof.
  intros Hf. unfold newProduct. cbv zeta.
  by rewrite (proj2 (assign_fields_keep _ _) Hf).
Qed.

Lemma updatedProduct_reviews req p :
  Product.reviews (updatedProduct req p) = Product.reviews p.
Proof.
  unfold updatedProduct. cbv zeta. by rewrite (proj1 (assign_fields_keep _ _)).
Qed.

Lemma updatedProduct_numReviews req p :
  Forall (λ f, ¬ is_numReviews f)
    (productController.otherFields (productController.product_body req)) →
  Product.numReviews (updatedProduct req p) = Product.numReviews p.
Proof.
  intros Hf. unfold updatedProduct. cbv zeta.
  by rewrite (proj2 (assign_fields_keep _ _) Hf).
Qed.

Lemma not_Exists_numReviews (fields : list productController.OtherField) :
  ¬ Exists is_numReviews fields → Forall (λ f, ¬ is_numReviews f) fields.
Proof.
  intros Hn. apply Forall_forall. intros f Hf Hnum. apply Hn.
  apply Exists_exists. eauto.
Qed.

Lemma step_counts (r : Request) (db : DB) :
  ¬ carries_numReviews r →
  documents_valid db → counts_match db →
  counts_match (handle (router r) db).2.
Proof.
  intros Hr Hvalid Hc.
  assert (Hrating : ∀ g db1, counts_match db1 → counts_match (recomputed g db1)).
  { intros g db1 H1 id p' (p1 & q & Hp1 & ->)%recomputed_lookup.
    exact (H1 id p1 Hp1). }
  destruct r as [|pid|pid|req|req|req|req|pid|uid]; simpl.
  - by rewrite getDetailedProducts_read_only.
  - by rewrite getProductById_read_only.
  - by rewrite getProductComments_read_only.
  - pose proof (addOrUpdateProductReview_eq req db) as E.
    cbv zeta in E. rewrite E. clear E.
    set (g := productController.review_params_id req).
    destruct (_ && _); [done|].
    destruct (match productController.body_rating req with
              | Some _ => _ | None => _ end); [done|].
    destruct (products db !! g) as [p|] eqn:Hp; [|done].
    destruct (users db !! _) as [u|]; [|done].
    destruct (Qltb _ 60); [done|].
    destruct (_ && Product.disableRating p); [done|].
    destruct (_ && Product.disableCommenting p); [done|].
    destruct (Array_findIndex _ (Product.reviews p)) as [i|].
    + destruct (Product_validate _); [|done]. simpl. apply Hrating.
      intros id p1. simpl. destruct (decide (g = id)) as [<-|Hne].
      * rewrite lookup_insert_eq. intros [= <-].
        unfold withUpdatedReview, length_num. simpl. rewrite length_alter.
        by apply (Hc g).
      * rewrite lookup_insert_ne by done. apply Hc.
    + destruct (Product_validate _); [|done]. simpl. apply Hrating.
      intros id p1. simpl. destruct (decide (g = id)) as [<-|Hne].
      * by rewrite lookup_insert_eq; intros [= <-].
      * rewrite lookup_insert_ne by done. apply Hc.
  - pose proof (playGame_eq req db) as E. cbv zeta in E. rewrite E. clear E.
    destruct (productController.play_time req) as [|minutes]; [done|].
    destruct (Qle_bool minutes 0); [done|].
    destruct (products db !! _); [|done].
    destruct (users db !! _) as [u|]; [|done].
    simpl. by apply Hrating.
  - pose proof (createProduct_eq req db) as E. cbv zeta in E.
    rewrite E. clear E.
    destruct (negb _); [done|].
    destruct (productController.invalid_category _); [done|].
    destruct (productController.invalid_format _); [done|].
    destruct (String.eqb _ ""); [done|].
    destruct (Product_validate _); [|done].
    cbn [snd]. intros id p1. cbn [products].
    destruct (decide (productController.product_new_id req = id)) as [<-|Hne].
    + rewrite lookup_insert_eq. intros [= <-].
      rewrite newProduct_reviews, newProduct_numReviews; [done|].
      by apply not_Exists_numReviews.
    + rewrite lookup_insert_ne by done. apply Hc.
  - pose proof (updateProduct_eq req db) as E. cbv zeta in E.
    rewrite E. clear E.
    destruct (negb _); [done|].
    destruct (match productController.body_category _ with
              | productController.category_undefined => false
              | _ => _
              end); [done|].
    destruct (productController.invalid_format _); [done|].
    destruct (products db !! productController.product_params_id req)
      as [p|] eqn:Hp; [|done].
    destruct (Product_validate _); [|done].
    cbn [snd]. intros id p1. cbn [products].
    destruct (decide (productController.product_params_id req = id))
      as [<-|Hne].
    + rewrite lookup_insert_eq. intros [= <-].
      rewrite updatedProduct_reviews, updatedProduct_numReviews.
      * by apply (Hc _ _ Hp).
      * by apply not_Exists_numReviews.
    + rewrite lookup_insert_ne by done. apply Hc.
  - destruct (products db !! pid) as [p|] eqn:Hp.
    + destruct (deleteProduct_cleans pid db p Hp) as (db' & Hh & Hps & _).
      rewrite Hh. simpl. intros id p'. rewrite Hps.
      intros [_ Hp']%lookup_delete_Some. by apply (Hc id).
    + by rewrite deleteProduct_missing.
  - destruct (users db !! uid) as [u|] eqn:Hu.
    + destruct (deleteUser_cleans uid db u Hu Hvalid) as (db' & Hh & _ & Hps).
      rewrite Hh. simpl. intros id p'. rewrite Hps.
      destruct (products db !! id) as [p|] eqn:Hp; [|done]. simpl.
      intros [= <-]. destruct (decide (reviews_user uid p)); [done|].
      by apply (Hc id).
    + by rewrite deleteUser_missing.
Qed.

(** X1. Whatever requests are served, every
    stored game keeps passing the validation of its schema: a document that
    fails it is never written. *)
Theorem serve_keeps_documents_valid (requests : list Request) (db : DB) :
  documents_valid db → documents_valid (serve requests db).
Proof.
  intros Hv.
  by apply (serve_keeps (λ _, True) (λ _ _ _ _, I) requests db Hv I).
Qed.

Lemma serve_keeps_documents_valid_witness :
  documents_valid (serve sample_requests Sample2.db).
Proof.
  apply (serve_keeps_documents_valid sample_requests Sample2.db).
  change (map_Forall (λ _ p, Product_validate p = true)
            (products Sample2.db)).
  apply (bool_decide_unpack _). vm_compute. exact I.
Defined.



(** X3. No request other than an admin write ([createProduct],
    [updateProduct]) ever leaves a game with two reviews of one user: a
    submission updates the review that [findIndex] finds and pushes a new
    one only when there is none. *)
Theorem serve_keeps_one_review_per_user (requests : list Request) (db : DB) :
  Forall (λ r, ¬ admin_write r) requests →
  documents_valid db → reviews_unique db →
  reviews_unique (serve requests db).
Proof.
  intros _ Hv Hun.
  by apply (serve_keeps reviews_unique step_reviews_unique requests db Hv Hun).
Qed.

Lemma serve_keeps_one_review_per_user_witness :
  reviews_unique (serve sample_requests Sample2.db).
Proof.
  apply (serve_keeps_one_review_per_user sample_requests Sample2.db).
  - repeat constructor; simpl; tauto.
  - change (map_Forall (λ _ p, Product_validate p = true)
              (products Sample2.db)).
    apply (bool_decide_unpack _). vm_compute. exact I.
  - change (map_Forall
              (λ _ p, NoDup (Review.user <$> Product.reviews p))
              (products Sample2.db)).
    apply (bool_decide_unpack _). vm_compute. exact I.
Defined.

(** X4. No request ever leaves a ledger with two entries
    of one game or with an entry whose time is not positive: [playGame]
    increments the entry it finds or pushes one with the positive minutes
    of the call, and the deletions only remove entries. *)
Theorem serve_keeps_ledgers (requests : list Request) (db : DB) :
  documents_valid db → ledgers_unique db → ledgers_positive db →
  ledgers_unique (serve requests db) ∧ ledgers_positive (serve requests db).
Proof.
  intros Hv Hun Hpos.
  by apply (serve_keeps (λ db, ledgers_unique db ∧ ledgers_positive db)
              step_ledgers requests db Hv (conj Hun Hpos)).
Qed.

Lemma serve_keeps_ledgers_witness :
  ledgers_unique (serve sample_requests Sample2.db)
  ∧ ledgers_positive (serve sample_requests Sample2.db).
Proof.
  apply (serve_keeps_ledgers sample_requests Sample2.db).
  - change (map_Forall (λ _ p, Product_validate p = true)
              (products Sample2.db)).
    apply (bool_decide_unpack _). vm_compute. exact I.
  - change (map_Forall
              (λ _ u, NoDup (PlayTime.product <$> User.playTime u))
              (users Sample2.db)).
    apply (bool_decide_unpack _). vm_compute. exact I.
  - intros id u pt Hu Hpt.
    assert (Hall : map_Forall
              (λ _ u, Forall (λ pt, Qltb 0 (PlayTime.time pt) = true)
                        (User.playTime u)) (users Sample2.db)).
    { apply (bool_decide_unpack _). vm_compute. exact I. }
    specialize (Hall id u Hu). rewrite Forall_forall in Hall.
    apply Qltb_lt. by apply Hall.
Defined.

(** X5. [numReviews] equals the length of the review list of every
    stored game after any list of requests other than admin writes
    ([createProduct], [updateProduct]), when it did before. *)
Theorem serve_keeps_counts (requests : list Request) (db : DB) :
  Forall (λ r, ¬ admin_write r) requests →
  documents_valid db → counts_match db →
  counts_match (serve requests db).
Proof.
  unfold serve. revert db.
  induction requests as [|r rs IH]; intros db Hrs Hv Hc; [done|].
  apply Forall_cons in Hrs as [Hr Hrs]. simpl.
  apply IH; [done|by apply step_documents_valid|].
  apply step_counts; [|done..]. by destruct r.
Qed.

Lemma serve_keeps_counts_witness :
  counts_match (serve sample_requests Sample2.db).
Proof.
  apply (serve_keeps_counts sample_requests Sample2.db).
  - repeat constructor; simpl; tauto.
  - change (map_Forall (λ _ p, Product_validate p = true)
              (products Sample2.db)).
    apply (bool_decide_unpack _). vm_compute. exact I.
  - intros id p Hp. unfold Sample2.db, Sample.db in Hp. cbn [products] in Hp.
    apply lookup_singleton_Some in Hp as [_ <-]. reflexivity.
Defined.

(** What the sample requests leave behind: C has 90 minutes and a review
    with the updated comment, A and A's review are gone. *)
Example sample_requests_served :
  (storedTime (serve sample_requests Sample2.db) "C" "G" == 90)%Q
  ∧ users (serve sample_requests Sample2.db) !! "A" = None
  ∧ Product.reviews <$> products (serve sample_requests Sample2.db) !! "G"
    = Some [Review.mk "B" "Bob" (Some (Num 3)) (Some "Solid RPG mechanics.");
            Review.mk "C" "Carol" (Some (Num 4)) (Some "Great story")].
Proof. vm_compute. repeat split; congruence. Qed.

(** ** Failures and reads *)

(** X6. A request that is not answered with
    200 or 201 leaves the database as it was, for every route: the 400, 403
    and 404 replies are sent before anything is saved, and a rejected save
    stores nothing. *)
Theorem failed_request_changes_nothing (r : Request) (db : DB) :
  documents_valid db →
  status (handle (router r) db).1 ≠ 200 →
  status (handle (router r) db).1 ≠ 201 →
  (handle (router r) db).2 = db.
Proof.
  intros Hvalid.
  destruct r as [|pid|pid|req|req|req|req|pid|uid]; simpl.
  - intros _ _. apply getDetailedProducts_read_only.
  - intros _ _. apply getProductById_read_only.
  - intros _ _. apply getProductComments_read_only.
  - pose proof (addOrUpdateProductReview_eq req db) as E.
    cbv zeta in E. rewrite E. clear E.
    repeat match goal with
           | |- context [if ?b then _ else _] => destruct b
           | |- context [match ?o with Some _ => _ | None => _ end] =>
               destruct o
           end; simpl; done.
  - pose proof (playGame_eq req db) as E. cbv zeta in E. rewrite E. clear E.
    repeat match goal with
           | |- context [if ?b then _ else _] => destruct b
           | |- context [match ?o with Some _ => _ | None => _ end] =>
               destruct o
           | |- context [match ?n with NaN => _ | Num _ => _ end] =>
               destruct n
           end; simpl; done.
  - pose proof (createProduct_eq req db) as E. cbv zeta in E.
    rewrite E. clear E.
    repeat match goal with
           | |- context [if ?b then _ else _] => destruct b
           end; simpl; done.
  - pose proof (updateProduct_eq req db) as E. cbv zeta in E.
    rewrite E. clear E.
    repeat match goal with
           | |- context [if ?b then _ else _] => destruct b
           | |- context [match ?o with Some _ => _ | None => _ end] =>
               destruct o
           end; simpl; done.
  - destruct (products db !! pid) as [p|] eqn:Hp.
    + destruct (deleteProduct_cleans pid db p Hp) as (db' & Hh & _).
      rewrite Hh. simpl. done.
    + by rewrite deleteProduct_missing.
  - destruct (users db !! uid) as [u|] eqn:Hu.
    + destruct (deleteUser_cleans uid db u Hu Hvalid) as (db' & Hh & _).
      rewrite Hh. simpl. done.
    + by rewrite deleteUser_missing.
Qed.

Lemma failed_request_changes_nothing_witness :
  (handle (router (POST_products_id_reviews Sample2.by_D)) Sample2.db).2
  = Sample2.db.
Proof.
  apply (failed_request_changes_nothing
           (POST_products_id_reviews Sample2.by_D) Sample2.db).
  - change (map_Forall (λ _ p, Product_validate p = true)
              (products Sample2.db)).
    apply (bool_decide_unpack _). vm_compute. exact I.
  - vm_compute. discriminate.
  - vm_compute. discriminate.
Defined.

(** X7. The three read projections never change the database, whatever
    they answer. *)
Theorem projections_never_write (id : ObjectId) (db : DB) :
  (handle (productController.getProductById id) db).2 = db
  ∧ (handle (productController.getProductComments id) db).2 = db
  ∧ (handle productController.getDetailedProducts db).2 = db.
Proof.
  split; [apply getProductById_read_only|].
  split; [apply getProductComments_read_only|].
  apply getDetailedProducts_read_only.
Qed.

Lemma map_throwing_Thrown {A B} (f : A → Outcome B) (l : list A) (x : A) :
  x ∈ l → f x = Thrown → productController.map_throwing f l = Thrown.
Proof.
  intros Hin Hx. induction l as [|y l IH]; [by apply elem_of_nil in Hin|].
  simpl. apply elem_of_cons in Hin as [<-|Hin]; [by rewrite Hx|].
  destruct (f y); [|done]. by rewrite IH.
Qed.

Lemma dangling_review db (reviews : list Review.t) :
  ¬ authors_stored db reviews →
  ∃ x, x ∈ populated db reviews ∧ productController.user_id x = Thrown.
Proof.
  intros Hn. unfold authors_stored in Hn.
  apply not_Forall_Exists in Hn; [|apply _].
  apply Exists_exists in Hn as (r & Hr & Hnone).
  exists (r, (λ _, Review.user r) <$> users db !! Review.user r). split.
  - unfold populated. apply list_elem_of_In.
    apply (in_map (λ r, (r, (λ _ : User.t, Review.user r) <$> users db !! Review.user r))).
    by apply list_elem_of_In.
  - unfold productController.user_id. simpl in *.
    destruct (users db !! Review.user r); [|done]. by destruct Hnone.
Qed.

Lemma map_async_Thrown {A B} (f : A → Async B) (l : list A) (x : A) (db : DB) :
  (∀ y, (f y db).2 = db) → x ∈ l → (f x db).1 = Thrown →
  productController.map_async f l db = (Thrown, db).
Proof.
  intros Hro Hin Hx. induction l as [|y l IH]; [by apply elem_of_nil in Hin|].
  simpl. unfold bind at 1. pose proof (Hro y) as Hy.
  destruct (f y db) as [[b|] db1] eqn:Hfy; simpl in Hy; subst db1; [|done].
  apply elem_of_cons in Hin as [->|Hin].
  - rewrite Hfy in Hx. done.
  - unfold bind at 1. by rewrite IH.
Qed.

(** X8. A review whose user is no longer
    stored makes the read projections fail: [review.user._id] throws on the
    populated [null], and the three handlers answer 500 "Server Error"
    instead of the reviews. *)
Theorem projections_fail_on_dangling_author (db : DB) (id : ObjectId)
    (p : Product.t) :
  products db !! id = Some p →
  ¬ authors_stored db (Product.reviews p) →
  handle (productController.getProductById id) db = (ServerError, db)
  ∧ handle (productController.getProductComments id) db = (ServerError, db)
  ∧ handle productController.getDetailedProducts db = (ServerError, db).
Proof.
  intros Hp Hn.
  destruct (dangling_review db _ Hn) as (x & Hx & Hthrow).
  split; [|split].
  - unfold handle, productController.getProductById, try_catch, bind,
      Model.Product_findById, Model.User_find, productController.populate,
      productController.lift, ret. cbn [fst snd]. rewrite Hp.
    destruct (Product.reviews p) as [|r rs] eqn:Hr.
    { exfalso. apply Hn. constructor. }
    fold (populated db (r :: rs)).
    by rewrite (map_throwing_Thrown _ _ x Hx Hthrow).
  - unfold handle, productController.getProductComments, try_catch, bind,
      Model.Product_findById, Model.User_find, productController.populate,
      productController.lift, ret, productController.withPlaytime.
    cbn [fst snd]. rewrite Hp. fold (populated db (Product.reviews p)).
    rewrite (map_throwing_Thrown _ _ x Hx); [done|]. by rewrite Hthrow.
  - unfold handle, productController.getDetailedProducts, try_catch.
    unfold bind at 1. unfold Model.Product_find. cbn [fst snd].
    rewrite filter_all. unfold bind at 1.
    rewrite (map_async_Thrown _ _ (id, p)); [done| | |].
    + intros doc. unfold bind, productController.populate, Model.User_find,
        productController.lift, ret. cbn [fst snd].
      by destruct (productController.withPlaytime _ _).
    + by apply elem_of_map_to_list.
    + unfold bind, productController.populate, Model.User_find,
        productController.lift, ret, productController.withPlaytime.
      cbn [fst snd]. fold (populated db (Product.reviews p)).
      rewrite (map_throwing_Thrown _ _ x Hx); [done|]. by rewrite Hthrow.
Qed.

Lemma projections_fail_on_dangling_author_witness :
  handle (productController.getProductById "G") dangling_db
  = (ServerError, dangling_db)
  ∧ handle (productController.getProductComments "G") dangling_db
    = (ServerError, dangling_db)
  ∧ handle productController.getDetailedProducts dangling_db
    = (ServerError, dangling_db).
Proof.
  apply (projections_fail_on_dangling_author dangling_db "G" Sample.G).
  - reflexivity.
  - apply (bool_decide_unpack _). vm_compute. exact I.
Defined.

(** ** The two copies of the rating helper *)

Lemma productController_weightedSum_foldl productId db played reviews a :
  authors_stored db reviews →
  productController.weightedSum productId played (populated db reviews) a
  = Done (foldl (λ sum review,
                   match Array_find (λ u, u.1 = Review.user review) played with
                   | Some reviewingUser =>
                       match counts (gamePlayData productId reviewingUser.2)
                               review with
                       | Some c => (sum + c)%Q
                       | None => sum
                       end
                   | None => sum
                   end) a reviews).
Proof.
  intros Hst. revert a.
  induction Hst as [|r rs [u Hu] _ IH]; intros a; simpl; [done|].
  rewrite Hu. simpl.
  destruct (Array_find _ played) as [ru|]; [|apply IH].
  destruct (counts _ r); apply IH.
Qed.


(** X9. The copy of [updateWeightedProductRating] in
    the user controller and the one in the product controller leave the
    same database whenever every review of the game refers to a stored
    user. *)
Theorem rating_helpers_agree (productId : ObjectId) (db : DB) :
  (∀ p, products db !! productId = Some p →
        authors_stored db (Product.reviews p)) →
  productController.updateWeightedProductRating productId db
  = userController.updateWeightedProductRating productId db.
Proof.
  intros Hst. rewrite productController_update_eq, userController_update_eq.
  destruct (products db !! productId) as [p|] eqn:Hp; [|done].
  specialize (Hst p eq_refl).
  assert (productRating.value productId db p
          = Some (userRating.value productId db p)) as ->; [|done].
  unfold productRating.value, userRating.value.
  destruct (usersWhoPlayed productId db) as [|u us]; [done|].
  rewrite (productController_weightedSum_foldl _ _ _ _ _ Hst).
  unfold userController.weightedSum. by destruct (Product.reviews p).
Qed.

Lemma rating_helpers_agree_witness :
  productController.updateWeightedProductRating "G" Sample.db
  = userController.updateWeightedProductRating "G" Sample.db.
Proof.
  apply (rating_helpers_agree "G" Sample.db).
  intros p [= <-]. repeat constructor; eexists; reflexivity.
Defined.



(** The rating update touches nothing but the rating
    of the game it is called for: the users, the other games and every other
    field of the game stay as they are, and for a game that is not stored
    the update does nothing.  This holds for both copies. *)
Theorem rating_update_frame (productId : ObjectId) (db : DB) :
  (users (productController.updateWeightedProductRating productId db).2
   = users db
   ∧ users (userController.updateWeightedProductRating productId db).2
     = users db)
  ∧ (∀ id, id ≠ productId →
       products (productController.updateWeightedProductRating productId db).2
         !! id = products db !! id
       ∧ products (userController.updateWeightedProductRating productId db).2
           !! id = products db !! id)
  ∧ (∀ p, products db !! productId = Some p →
       ∃ q q',
         products
           (productController.updateWeightedProductRating productId db).2
           !! productId = Some (Product.set_rating q p)
         ∧ products
             (userController.updateWeightedProductRating productId db).2
             !! productId = Some (Product.set_rating q' p))
  ∧ (products db !! productId = None →
     (productController.updateWeightedProductRating productId db).2 = db
     ∧ (userController.updateWeightedProductRating productId db).2 = db).
Proof.
  rewrite productController_update_eq, userController_update_eq. simpl.
  destruct (products db !! productId) as [p|] eqn:Hp.
  - destruct (productRating.value productId db p) as [q|];
      destruct (Product_validate p); simpl;
      (split; [done|]); (split; [|split; [|done]]);
      try (intros id Hne; by rewrite ?lookup_insert_ne);
      intros ? [= <-]; rewrite ?lookup_insert_eq, ?Hp;
      try (by exists q, (userRating.value productId db p));
      try (by exists q, (Product.rating p); rewrite set_rating_same);
      try (by exists (Product.rating p), (userRating.value productId db p);
           rewrite set_rating_same);
      by exists (Product.rating p), (Product.rating p); rewrite set_rating_same.
  - split; [done|]. split; [done|]. split; [|done]. by rewrite Hp.
Qed.

(** ** The playtime ledger *)

Lemma time_of_withPlay productId minutes u g :
  (Spec.time_of g (withPlay productId minutes u)
   == Spec.time_of g u + (if decide (g = productId) then minutes else 0))%Q.
Proof.
  unfold Spec.time_of. destruct (decide (g = productId)) as [->|Hne].
  - destruct (withPlay_entry productId minutes u) as (pt' & -> & _ & Ht).
    destruct (gamePlayData productId u); rewrite Ht; ring.
  - rewrite withPlay_other by done. ring.
Qed.

(** X11. A play call, whatever it answers, never lowers a
    stored time: the time of every (user, game) pair other than the pair of
    the call stays as it is, the time of the pair of the call does not
    decrease, and no review list and no count of any game changes. *)
Theorem play_only_adds (req : productController.PlayRequest) (db : DB) :
  (∀ userId productId,
     (storedTime db userId productId
      <= storedTime (handle (productController.playGame req) db).2
           userId productId)%Q)
  ∧ (∀ userId productId,
       ¬ (userId = productController.play_user_id req
          ∧ productId = productController.play_params_id req) →
       (storedTime (handle (productController.playGame req) db).2
          userId productId
        == storedTime db userId productId)%Q)
  ∧ (∀ id,
       Product.reviews
         <$> products (handle (productController.playGame req) db).2 !! id
       = Product.reviews <$> products db !! id
       ∧ Product.numReviews
           <$> products (handle (productController.playGame req) db).2 !! id
         = Product.numReviews <$> products db !! id).
Proof.
  pose proof (playGame_eq req db) as E. cbv zeta in E. rewrite E. clear E.
  set (g := productController.play_params_id req).
  set (uid := productController.play_user_id req).
  assert (Hsame : (∀ userId productId,
            (storedTime db userId productId <= storedTime db userId productId)%Q)
          ∧ (∀ userId productId, ¬ (userId = uid ∧ productId = g) →
               (storedTime db userId productId
                == storedTime db userId productId)%Q)
          ∧ (∀ id, Product.reviews <$> products db !! id
                   = Product.reviews <$> products db !! id
                   ∧ Product.numReviews <$> products db !! id
                     = Product.numReviews <$> products db !! id)).
  { split; [intros; apply Qle_refl|]. split; [intros; reflexivity|done]. }
  destruct (productController.play_time req) as [|minutes]; [done|].
  destruct (Qle_bool minutes 0) eqn:Hle; [done|].
  destruct (products db !! g) as [p|]; [|done].
  destruct (users db !! uid) as [u|] eqn:Hu; [|done].
  assert (Hpos : (0 < minutes)%Q).
  { apply Qnot_le_lt. intros H. apply Qle_bool_iff in H. congruence. }
  cbn [snd].
  assert (Hst : ∀ userId productId,
    (storedTime
       (recomputed g (mkDB (<[uid := withPlay g minutes u]> (users db))
                        (products db))) userId productId
     == storedTime db userId productId
        + (if decide (userId = uid ∧ productId = g) then minutes else 0))%Q).
  { intros userId productId. unfold storedTime. rewrite recomputed_users.
    cbn [users]. destruct (decide (uid = userId)) as [<-|Hne].
    - rewrite lookup_insert_eq, Hu, time_of_withPlay.
      destruct (decide (productId = g)) as [->|Hg].
      + by rewrite decide_True.
      + by rewrite decide_False by (intros [? ?]; done).
    - rewrite lookup_insert_ne by done.
      rewrite decide_False by (intros [? ?]; congruence). ring. }
  split; [|split].
  - intros userId productId. rewrite Hst. destruct (decide _); lra.
  - intros userId productId Hne. rewrite Hst.
    rewrite decide_False by done. ring.
  - intros id.
    destruct (products (recomputed g _) !! id) as [p'|] eqn:Hp'.
    + apply recomputed_lookup in Hp' as (p1 & q & Hp1 & ->).
      simpl in Hp1. by rewrite Hp1.
    + destruct (products db !! id) as [p1|] eqn:Hp1; [|done].
      destruct (recomputed_keeps g
                  (mkDB (<[uid := withPlay g minutes u]> (users db))
                     (products db)) id p1 Hp1) as [q Hq].
      congruence.
Qed.

(** ** Review submissions *)

Lemma recomputed_other productId db id :
  id ≠ productId →
  products (recomputed productId db) !! id = products db !! id.
Proof.
  intros Hne. unfold recomputed. rewrite productController_update_eq. simpl.
  destruct (products db !! productId) as [p|]; [|done].
  destruct (productRating.value productId db p); [|done].
  destruct (Product_validate p); [|done]. simpl.
  by rewrite lookup_insert_ne.
Qed.

Lemma Array_findIndex_Some {A} (P : A → Prop) `{∀ x, Decision (P x)} l i :
  Array_findIndex P l = Some i → ∃ x, l !! i = Some x ∧ P x.
Proof.
  unfold Array_findIndex. intros ([j y] & Hf & ->)%fmap_Some.
  apply list_find_Some in Hf as (Hl & HP & _). by exists y.
Qed.

Lemma filter_alter_other {A} (P : A → Prop) `{∀ x, Decision (P x)}
    (f : A → A) (i : nat) (l : list A) (x : A) :
  l !! i = Some x → ¬ P x → ¬ P (f x) →
  filter P (alter f i l) = filter P l.
Proof.
  revert i. induction l as [|y l IH]; intros [|i]; csimpl; try done.
  - intros [= ->] H1 H2. by rewrite !filter_cons_False.
  - intros Hl H1 H2. rewrite !filter_cons, (IH i) by done. done.
Qed.

(** What a review submission can do: leave the database as it is and answer
    with an error, or store one document for the game, with the review of
    the user updated in place (200) or pushed at the end (201), and then
    update the rating. *)
Lemma review_outcomes (req : productController.ReviewRequest) (db : DB) :
  ((handle (productController.addOrUpdateProductReview req) db).2 = db
   ∧ status (handle (productController.addOrUpdateProductReview req) db).1
     ≠ 200
   ∧ status (handle (productController.addOrUpdateProductReview req) db).1
     ≠ 201)
  ∨ ∃ p u p2,
      products db !! productController.review_params_id req = Some p
      ∧ users db !! productController.review_user_id req = Some u
      ∧ Product_validate p2 = true
      ∧ (handle (productController.addOrUpdateProductReview req) db).2
        = recomputed (productController.review_params_id req)
            (mkDB (users db)
               (<[productController.review_params_id req := p2]>
                  (products db)))
      ∧ ((∃ i,
            Array_findIndex
              (λ r, Review.user r = productController.review_user_id req)
              (Product.reviews p) = Some i
            ∧ p2 = withUpdatedReview i u (productController.body_rating req)
                     (productController.body_comment req) p
            ∧ (handle (productController.addOrUpdateProductReview req) db).1
              = mkReply 200 (message "Review updated"))
         ∨ (Array_findIndex
              (λ r, Review.user r = productController.review_user_id req)
              (Product.reviews p) = None
            ∧ p2 = withNewReview (productController.review_user_id req) u
                     (productController.body_rating req)
                     (productController.body_comment req) p
            ∧ (handle (productController.addOrUpdateProductReview req) db).1
              = mkReply 201 (message "Review added"))).
Proof.
  pose proof (addOrUpdateProductReview_eq req db) as E. cbv zeta in E.
  rewrite E. clear E.
  set (g := productController.review_params_id req).
  set (uid := productController.review_user_id req).
  destruct (bool_decide _ && bool_decide _); [by left|].
  destruct (match productController.body_rating req with
            | Some _ => _ | None => _ end); [by left|].
  destruct (products db !! g) as [p|] eqn:Hp; [|by left].
  destruct (users db !! uid) as [u|]; [|by left].
  destruct (Qltb _ 60); [by left|].
  destruct (_ && Product.disableRating p); [by left|].
  destruct (_ && Product.disableCommenting p); [by left|].
  destruct (Array_findIndex _ (Product.reviews p)) as [i|] eqn:Hi.
  - destruct (Product_validate
                (withUpdatedReview i u (productController.body_rating req)
                   (productController.body_comment req) p)) eqn:Hv;
      [|by left].
    right. exists p, u. eexists. split; [done|]. split; [done|].
    split; [exact Hv|]. split; [done|]. left. by exists i.
  - destruct (Product_validate
                (withNewReview uid u (productController.body_rating req)
                   (productController.body_comment req) p)) eqn:Hv;
      [|by left].
    right. exists p, u. eexists. split; [done|]. split; [done|].
    split; [exact Hv|]. split; [done|]. by right.
Qed.

(** X12. A review submission, whatever it answers, changes no
    user and no other game, and in its own game it leaves the reviews of
    all other users as they are and in their order, and both toggles as the
    administrator set them. *)
Theorem review_frame (req : productController.ReviewRequest) (db : DB) :
  users (handle (productController.addOrUpdateProductReview req) db).2
  = users db
  ∧ (∀ id, id ≠ productController.review_params_id req →
       products (handle (productController.addOrUpdateProductReview req) db).2
         !! id = products db !! id)
  ∧ (∀ p, products db !! productController.review_params_id req = Some p →
       ∃ p',
         products
           (handle (productController.addOrUpdateProductReview req) db).2
           !! productController.review_params_id req = Some p'
         ∧ filter (λ r, Review.user r
                        ≠ productController.review_user_id req)
             (Product.reviews p')
           = filter (λ r, Review.user r
                          ≠ productController.review_user_id req)
               (Product.reviews p)
         ∧ Product.disableRating p' = Product.disableRating p
         ∧ Product.disableCommenting p' = Product.disableCommenting p).
Proof.
  destruct (review_outcomes req db)
    as [(-> & _) | (p & u & p2 & Hp & Hu & Hv & -> & Hcase)].
  { split; [done|]. split; [done|]. intros p Hp. by exists p. }
  set (g := productController.review_params_id req) in *.
  set (uid := productController.review_user_id req) in *.
  split; [by rewrite recomputed_users|]. split.
  { intros id Hne. rewrite recomputed_other by done. simpl.
    by rewrite lookup_insert_ne. }
  intros p0 Hp0. assert (p0 = p) as -> by congruence.
  destruct (recomputed_keeps g
              (mkDB (users db) (<[g := p2]> (products db))) g p2) as [q Hq].
  { simpl. by rewrite lookup_insert_eq. }
  exists (Product.set_rating q p2). split; [done|]. simpl.
  destruct Hcase as [(i & Hi & -> & _) | (Hi & -> & _)]; simpl.
  - split; [|done].
    apply Array_findIndex_Some in Hi as (x & Hx & Hux).
    apply (filter_alter_other _ _ _ _ x); [done|by intros H|].
    unfold updatedReview.
    destruct (productController.body_rating req),
      (productController.body_comment req); simpl; by intros H.
  - split; [|done]. rewrite filter_app, filter_cons_False.
    + by rewrite filter_nil, app_nil_r.
    + simpl. by intros H.
Qed.

Lemma forallb_lookup {A} (f : A → bool) (l : list A) (i : nat) (x : A) :
  forallb f l = true → l !! i = Some x → f x = true.
Proof.
  rewrite forallb_forall. intros Hall Hx. apply Hall.
  apply list_elem_of_In. by eapply list_elem_of_lookup_2.
Qed.

(** X13. A rating that is present and is not a
    number passes the range check of the controller, but it is never stored:
    the submission is answered with an error and the database stays as it
    was, whether or not a review of the user is stored. *)
Theorem nan_rating_never_stored (req : productController.ReviewRequest)
    (db : DB) :
  productController.body_rating req = Some NaN →
  (handle (productController.addOrUpdateProductReview req) db).2 = db
  ∧ status (handle (productController.addOrUpdateProductReview req) db).1
    ≠ 200
  ∧ status (handle (productController.addOrUpdateProductReview req) db).1
    ≠ 201.
Proof.
  intros Hnan.
  destruct (review_outcomes req db)
    as [H | (p & u & p2 & Hp & Hu & Hv & _ & Hcase)]; [done|].
  exfalso. unfold Product_validate in Hv.
  apply andb_true_iff in Hv as [_ Hv].
  destruct Hcase as [(i & Hi & -> & _) | (Hi & -> & _)].
  - unfold withUpdatedReview in Hv.
    cbn [Product.reviews Product.set_reviews] in Hv.
    apply Array_findIndex_Some in Hi as (x & Hx & _).
    assert (reviewSchema.validate
              (updatedReview u (productController.body_rating req)
                 (productController.body_comment req) x) = true) as Hbad.
    { apply (forallb_lookup _ _ i _ Hv).
      by rewrite list_lookup_alter_eq, Hx. }
    rewrite Hnan in Hbad. unfold reviewSchema.validate, updatedReview in Hbad.
    destruct (productController.body_comment req); simpl in Hbad;
      by rewrite andb_false_r in Hbad.
  - simpl in Hv.
    rewrite forallb_app, Hnan in Hv. apply andb_true_iff in Hv as [_ Hv].
    simpl in Hv. unfold reviewSchema.validate in Hv. simpl in Hv.
    by rewrite andb_false_r in Hv.
Qed.

Lemma nan_rating_never_stored_witness :
  (handle (productController.addOrUpdateProductReview
             (productController.mkReviewRequest "G" "A" (Some NaN) None))
     Sample.db).2 = Sample.db.
Proof.
  apply (nan_rating_never_stored
           (productController.mkReviewRequest "G" "A" (Some NaN) None)
           Sample.db).
  reflexivity.
Defined.

(** For a player who has the required time and
    whose rating, if any, is in range: a submission that carries a rating is
    denied (403) when rating is disabled for the game, also when it carries
    a comment; a submission that carries a comment is denied (403) when
    commenting is disabled, unless the rating toggle has denied it first.
    Nothing is written in either case. *)
Theorem disabled_toggle_denies (req : productController.ReviewRequest)
    (db : DB) (p : Product.t) (u : User.t) :
  products db !! productController.review_params_id req = Some p →
  users db !! productController.review_user_id req = Some u →
  (60 <= Spec.time_of (productController.review_params_id req) u)%Q →
  (∀ n, productController.body_rating req = Some n →
        ∃ q, n = Num q ∧ (1 <= q <= 5)%Q) →
  (productController.body_rating req ≠ None →
   Product.disableRating p = true →
   handle (productController.addOrUpdateProductReview req) db
   = (mkReply 403 (message
        "Rating is disabled for this product by the administrator."), db))
  ∧ (productController.body_comment req ≠ None →
     Product.disableCommenting p = true →
     productController.body_rating req = None
     ∨ Product.disableRating p = false →
     handle (productController.addOrUpdateProductReview req) db
     = (mkReply 403 (message
          "Commenting is disabled for this product by the administrator."),
        db)).
Proof.
  intros Hp Hu Htime Hrange.
  pose proof (addOrUpdateProductReview_eq req db) as E. cbv zeta in E.
  rewrite E, Hp, Hu. clear E.
  apply Qltb_ge in Htime. rewrite Htime.
  assert (match productController.body_rating req with
          | Some n => JS.lt n (Num 1) || JS.gt n (Num 5)
          | None => false
          end = false) as ->.
  { destruct (productController.body_rating req) as [n|]; [|done].
    destruct (Hrange n eq_refl) as (q & -> & H1 & H5). simpl.
    apply orb_false_intro; apply Qltb_ge; done. }
  split.
  - intros Hr ->.
    rewrite (bool_decide_eq_true_2
               (productController.body_rating req ≠ None)) by done.
    rewrite (bool_decide_eq_false_2
               (productController.body_rating req = None)) by done.
    done.
  - intros Hc -> Hor.
    rewrite (bool_decide_eq_false_2
               (productController.body_comment req = None)) by done.
    rewrite andb_false_r.
    rewrite (bool_decide_eq_true_2
               (productController.body_comment req ≠ None)) by done.
    destruct Hor as [-> | ->]; [done|by rewrite andb_false_r].
Qed.

Lemma disabled_toggle_denies_witness :
  handle (productController.addOrUpdateProductReview Sample2.by_C) locked_db
  = (mkReply 403 (message
       "Rating is disabled for this product by the administrator."),
     locked_db).
Proof.
  refine (proj1 (disabled_toggle_denies Sample2.by_C locked_db
                   (Product.mk "admin" "Cyber Odyssey"
                      "https://example.com/g.png" "Neon Dreams Studio"
                      ["RPG"; "Sci-Fi"] "Explore a vast cyberpunk city."
                      (Product.reviews Sample.G) 0 2 true false ∅)
                   (User.mk "Carol" [PlayTime.mk "G" 60]) _ _ _ _) _ _).
  - reflexivity.
  - reflexivity.
  - by vm_compute.
  - intros n [= <-]. exists 4%Q. split; [done|]. split; by vm_compute.
  - done.
  - reflexivity.
Defined.

(** X14. A first review that carries a rating in [1,5]
    and a non-empty comment, from a player with at least 60 minutes on a
    game with both toggles open, is answered 201: the review is pushed at
    the end of the list with the current name of the user, the reviews
    before it keep their places, and the count becomes the new length. *)
Theorem first_review_stored (productId userId : ObjectId) (q : Q)
    (c : string) (db : DB) (p : Product.t) (u : User.t) :
  products db !! productId = Some p →
  users db !! userId = Some u →
  Array_findIndex (λ r, Review.user r = userId) (Product.reviews p) = None →
  (1 <= q <= 5)%Q → c ≠ "" →
  (60 <= Spec.time_of productId u)%Q →
  Product.disableRating p = false → Product.disableCommenting p = false →
  Product_validate p = true → User.name u ≠ "" →
  (handle (productController.addOrUpdateProductReview
             (productController.mkReviewRequest productId userId
                (Some (Num q)) (Some c))) db).1
  = mkReply 201 (message "Review added")
  ∧ ∃ p',
      products
        (handle (productController.addOrUpdateProductReview
                   (productController.mkReviewRequest productId userId
                      (Some (Num q)) (Some c))) db).2 !! productId = Some p'
      ∧ Product.reviews p'
        = Product.reviews p
          ++ [Review.mk userId (User.name u) (Some (Num q)) (Some c)]
      ∧ Product.numReviews p' = length_num (Product.reviews p').
Proof.
  intros Hp Hu Hi [H1 H5] Hc Htime Hdr Hdc Hv Hname.
  pose proof (addOrUpdateProductReview_eq
                (productController.mkReviewRequest productId userId
                   (Some (Num q)) (Some c)) db) as E.
  cbv zeta in E.
  cbn [productController.body_rating productController.body_comment
       productController.review_params_id productController.review_user_id]
    in E.
  rewrite E, Hp, Hu, Hi, Hdr, Hdc. clear E.
  apply Qltb_ge in Htime. rewrite Htime.
  assert (JS.lt (Num q) (Num 1) || JS.gt (Num q) (Num 5) = false) as ->.
  { apply orb_false_intro; apply Qltb_ge; done. }
  rewrite (bool_decide_eq_false_2 (Some (Num q) = None)) by done.
  rewrite !andb_false_r. cbn [andb].
  assert (Product_validate
            (withNewReview userId u (Some (Num q)) (Some c) p) = true) as ->.
  { unfold Product_validate in *. unfold withNewReview. simpl.
    rewrite !andb_true_iff in Hv. destruct Hv as [Hfields Hrev].
    rewrite !andb_true_iff. split; [exact Hfields|].
    rewrite forallb_app, Hrev. simpl. unfold reviewSchema.validate. simpl.
    rewrite !andb_true_r. apply andb_true_iff.
    split; apply negb_true_iff, String.eqb_neq; done. }
  split; [done|]. cbn [snd].
  destruct (recomputed_keeps productId
              (mkDB (users db)
                 (<[productId := withNewReview userId u (Some (Num q))
                                   (Some c) p]> (products db)))
              productId (withNewReview userId u (Some (Num q)) (Some c) p))
    as [q' Hq'].
  { simpl. by rewrite lookup_insert_eq. }
  eexists. split; [exact Hq'|]. done.
Qed.

Lemma first_review_stored_witness :
  (handle (productController.addOrUpdateProductReview
             (productController.mkReviewRequest "G" "C" (Some (Num 4))
                (Some "Fine"))) Sample2.db).1
  = mkReply 201 (message "Review added").
Proof.
  refine (proj1 (first_review_stored "G" "C" 4 "Fine" Sample2.db Sample.G
                   (User.mk "Carol" [PlayTime.mk "G" 60])
                   _ _ _ _ _ _ _ _ _ _)).
  - reflexivity.
  - reflexivity.
  - reflexivity.
  - split; by vm_compute.
  - done.
  - by vm_compute.
  - reflexivity.
  - reflexivity.
  - reflexivity.
  - done.
Defined.

(** X15. While no review of the user is
    stored for the game, a submission that lacks the rating or the comment
    stores nothing; from a player whom no check of the controller turns
    away it is answered 500, since the document does not pass the schema. *)
Theorem incomplete_first_review_rejected
    (req : productController.ReviewRequest) (db : DB) (p : Product.t)
    (u : User.t) :
  products db !! productController.review_params_id req = Some p →
  users db !! productController.review_user_id req = Some u →
  Array_findIndex (λ r, Review.user r = productController.review_user_id req)
    (Product.reviews p) = None →
  (productController.body_rating req = None
   ∧ productController.body_comment req ≠ None)
  ∨ (productController.body_comment req = None
     ∧ ∃ q, productController.body_rating req = Some (Num q)
            ∧ (1 <= q <= 5)%Q) →
  (handle (productController.addOrUpdateProductReview req) db).2 = db
  ∧ ((60 <= Spec.time_of (productController.review_params_id req) u)%Q →
     Product.disableRating p = false → Product.disableCommenting p = false →
     (handle (productController.addOrUpdateProductReview req) db).1
     = ServerError).
Proof.
  intros Hp Hu Hi Hpartial. split.
  { apply (first_review_needs_both req db p Hp Hi).
    destruct Hpartial as [[? _]|[? _]]; auto. }
  intros Htime Hdr Hdc.
  pose proof (addOrUpdateProductReview_eq req db) as E. cbv zeta in E.
  rewrite E, Hp, Hu, Hi, Hdr, Hdc. clear E.
  apply Qltb_ge in Htime. rewrite Htime. rewrite !andb_false_r.
  rewrite withNewReview_invalid
    by (destruct Hpartial as [[? _]|[? _]]; auto).
  destruct Hpartial as [[-> Hc] | [-> (q & -> & H1 & H5)]].
  - rewrite (bool_decide_eq_false_2
               (productController.body_comment req = None)) by done.
    by rewrite andb_false_r.
  - rewrite (bool_decide_eq_false_2 (Some (Num q) = None)) by done.
    cbn [andb].
    assert (JS.lt (Num q) (Num 1) || JS.gt (Num q) (Num 5) = false) as ->;
      [|done].
    apply orb_false_intro; apply Qltb_ge; done.
Qed.

Lemma incomplete_first_review_rejected_witness :
  (handle (productController.addOrUpdateProductReview Sample2.comment_only)
     Sample2.db).2 = Sample2.db.
Proof.
  refine (proj1 (incomplete_first_review_rejected Sample2.comment_only
                   Sample2.db Sample.G
                   (User.mk "Carol" [PlayTime.mk "G" 60]) _ _ _ _)).
  - reflexivity.
  - reflexivity.
  - reflexivity.
  - left. split; [reflexivity|done].
Defined.

(** X16. Once a review of the user is stored, a
    submission with the rating alone or the comment alone is answered 200:
    the entry keeps its place and its author, takes the fields provided and
    the current name of the user and keeps the field that is not provided,
    every other entry stays as it is, and the count does not change. *)
Theorem stored_review_partial_update (productId userId : ObjectId)
    (rating : option number) (comment : option string) (db : DB)
    (p : Product.t) (u : User.t) (i : nat) (old : Review.t) :
  products db !! productId = Some p →
  users db !! userId = Some u →
  Array_findIndex (λ r, Review.user r = userId) (Product.reviews p) = Some i →
  Product.reviews p !! i = Some old →
  rating ≠ None ∨ comment ≠ None →
  (∀ n, rating = Some n → ∃ q, n = Num q ∧ (1 <= q <= 5)%Q) →
  (∀ c, comment = Some c → c ≠ "") →
  (60 <= Spec.time_of productId u)%Q →
  Product.disableRating p = false → Product.disableCommenting p = false →
  Product_validate p = true → User.name u ≠ "" →
  (handle (productController.addOrUpdateProductReview
             (productController.mkReviewRequest productId userId rating
                comment)) db).1
  = mkReply 200 (message "Review updated")
  ∧ ∃ p',
      products
        (handle (productController.addOrUpdateProductReview
                   (productController.mkReviewRequest productId userId rating
                      comment)) db).2 !! productId = Some p'
      ∧ length (Product.reviews p') = length (Product.reviews p)
      ∧ Product.numReviews p' = Product.numReviews p
      ∧ Product.reviews p' !! i
        = Some (Review.mk userId (User.name u)
                  (from_option Some (Review.rating old) rating)
                  (from_option Some (Review.comment old) comment))
      ∧ ∀ j, j ≠ i → Product.reviews p' !! j = Product.reviews p !! j.
Proof.
  intros Hp Hu Hi Hold Hsome Hr Hc Htime Hdr Hdc Hv Hname.
  pose proof (partial_update_of_stored_review
                (productController.mkReviewRequest productId userId rating
                   comment) db p u i) as H.
  cbv zeta in H.
  cbn [productController.body_rating productController.body_comment
       productController.review_params_id productController.review_user_id]
    in H.
  destruct (H Hp Hu Hi Hsome Hr Hc Htime Hdr Hdc Hv Hname)
    as (Hreply & p' & Hp' & Hrev & Hnum).
  split; [done|]. exists p'. split; [done|]. rewrite Hrev.
  split; [by rewrite length_alter|]. split; [done|]. split.
  - rewrite list_lookup_alter_eq, Hold. simpl. f_equal.
    apply Array_findIndex_Some in Hi as (x & Hx & Hux).
    assert (x = old) as -> by congruence.
    unfold updatedReview. destruct old as [ou on or oc]. simpl in Hux.
    subst ou. by destruct rating, comment.
  - intros j Hj. by rewrite list_lookup_alter_ne.
Qed.

Lemma stored_review_partial_update_witness :
  (handle (productController.addOrUpdateProductReview
             (productController.mkReviewRequest "G" "A" (Some (Num 2)) None))
     Sample.db).1
  = mkReply 200 (message "Review updated").
Proof.
  refine (proj1 (stored_review_partial_update "G" "A" (Some (Num 2)) None
                   Sample.db Sample.G (User.mk "Alice" [PlayTime.mk "G" 120])
                   0 (Review.mk "A" "Alice" (Some (Num 5))
                        (Some "Amazing open world!"))
                   _ _ _ _ _ _ _ _ _ _ _ _)).
  - reflexivity.
  - reflexivity.
  - reflexivity.
  - reflexivity.
  - by left.
  - intros n [= <-]. exists 2%Q. split; [done|]. split; by vm_compute.
  - intros c Hc. discriminate Hc.
  - by vm_compute.
  - reflexivity.
  - reflexivity.
  - reflexivity.
  - done.
Defined.

(** ** The admin handlers *)

Lemma assigned_fields (fields : list productController.OtherField)
    (p : Product.t) :
  Product.user (foldl (λ p f, productController.assign f p) p fields)
  = Product.user p
  ∧ Product.name (foldl (λ p f, productController.assign f p) p fields)
    = Product.name p
  ∧ Product.image (foldl (λ p f, productController.assign f p) p fields)
    = Product.image p
  ∧ Product.brand (foldl (λ p f, productController.assign f p) p fields)
    = Product.brand p
  ∧ Product.category (foldl (λ p f, productController.assign f p) p fields)
    = Product.category p
  ∧ Product.description (foldl (λ p f, productController.assign f p) p fields)
    = Product.description p
  ∧ Product.disableRating
      (foldl (λ p f, productController.assign f p) p fields)
    = Product.disableRating p
  ∧ Product.disableCommenting
      (foldl (λ p f, productController.assign f p) p fields)
    = Product.disableCommenting p.
Proof.
  revert p. induction fields as [|f fields IH]; intros p; [done|]. simpl.
  destruct (IH (productController.assign f p))
    as (-> & -> & -> & -> & -> & -> & -> & ->).
  by destruct f.
Qed.

Lemma assigned_eta (fields : list productController.OtherField)
    (q : Product.t) :
  foldl (λ p f, productController.assign f p) q fields
  = Product.mk (Product.user q) (Product.name q) (Product.image q)
      (Product.brand q) (Product.category q) (Product.description q)
      (Product.reviews q)
      (Product.rating (foldl (λ p f, productController.assign f p) q fields))
      (Product.numReviews
         (foldl (λ p f, productController.assign f p) q fields))
      (Product.disableRating q) (Product.disableCommenting q)
      (Product.extra (foldl (λ p f, productController.assign f p) q fields)).
Proof.
  destruct (assigned_fields fields q) as (H1 & H2 & H3 & H4 & H5 & H6 & H7 & H8).
  pose proof (proj1 (assign_fields_keep fields q)) as H9.
  destruct (foldl _ q fields). simpl in *. by subst.
Qed.

(** [product[key] = value] twice for one key: the later value stays. *)
Lemma assign_absorb (f : productController.OtherField)
    (fields : list productController.OtherField) (q : Product.t) :
  productController.assign f
    (foldl (λ p f, productController.assign f p)
       (productController.assign f q) fields)
  = productController.assign f
      (foldl (λ p f, productController.assign f p) q fields).
Proof.
  revert q. induction fields as [|g fields IH]; intros q; simpl.
  - destruct f, q; simpl; unfold Product.set_extra; simpl; try done.
    by rewrite insert_insert_eq.
  - destruct f as [v|v|k v], g as [w|w|k' w];
      try (rewrite <- (IH (productController.assign _ q)); reflexivity);
      try reflexivity.
    destruct (decide (k = k')) as [<-|Hne].
    + simpl. unfold Product.set_extra at 3. simpl.
      unfold Product.set_extra at 3. simpl. by rewrite insert_insert_eq.
    + rewrite <- (IH (productController.assign
                        (productController.field_extra k' w) q)).
      simpl. unfold Product.set_extra at 3 4 7 8. simpl.
      by rewrite (insert_insert_ne _ k k').
Qed.

Lemma assign_twice (fields : list productController.OtherField)
    (p : Product.t) :
  foldl (λ p f, productController.assign f p)
    (foldl (λ p f, productController.assign f p) p fields) fields
  = foldl (λ p f, productController.assign f p) p fields.
Proof.
  induction fields as [|f fields IH] using rev_ind; [done|].
  rewrite !foldl_app. simpl. rewrite assign_absorb. by rewrite IH.
Qed.

Lemma or_string_twice a b :
  productController.or_string a (productController.or_string a b)
  = productController.or_string a b.
Proof.
  unfold productController.or_string. destruct a as [s|]; [|done].
  by destruct (String.eqb s "").
Qed.

Lemma updatedProduct_fields req p :
  Product.user (updatedProduct req p) = Product.user p
  ∧ Product.name (updatedProduct req p)
    = productController.or_string
        (productController.body_name (productController.product_body req))
        (Product.name p)
  ∧ Product.image (updatedProduct req p)
    = productController.or_string
        (productController.body_image (productController.product_body req))
        (Product.image p)
  ∧ Product.brand (updatedProduct req p)
    = productController.or_string
        (productController.body_brand (productController.product_body req))
        (Product.brand p)
  ∧ Product.category (updatedProduct req p)
    = match productController.body_category
              (productController.product_body req) with
      | productController.category_array l => l
      | _ => Product.category p
      end
  ∧ Product.description (updatedProduct req p)
    = productController.or_string
        (productController.body_description
           (productController.product_body req)) (Product.description p)
  ∧ Product.disableRating (updatedProduct req p)
    = default (Product.disableRating p)
        (productController.body_disableRating
           (productController.product_body req))
  ∧ Product.disableCommenting (updatedProduct req p)
    = default (Product.disableCommenting p)
        (productController.body_disableCommenting
           (productController.product_body req)).
Proof.
  unfold updatedProduct. cbv zeta.
  match goal with
  | |- context [foldl _ ?base ?fields] =>
      destruct (assigned_fields fields base)
        as (-> & -> & -> & -> & -> & -> & -> & ->)
  end.
  done.
Qed.

Lemma updatedProduct_twice req p :
  updatedProduct req (updatedProduct req p) = updatedProduct req p.
Proof.
  pose proof (updatedProduct_fields req p)
    as (H1 & H2 & H3 & H4 & H5 & H6 & H7 & H8).
  unfold updatedProduct at 1. cbv zeta.
  transitivity
    (foldl (λ p f, productController.assign f p) (updatedProduct req p)
       (productController.otherFields (productController.product_body req)));
    [|apply assign_twice].
  f_equal. remember (updatedProduct req p) as U eqn:HU. clear HU.
  rewrite H2, H3, H4, H6, !or_string_twice, <- H2, <- H3, <- H4, <- H6.
  destruct (productController.body_category
              (productController.product_body req));
    destruct (productController.body_disableRating
                (productController.product_body req));
    destruct (productController.body_disableCommenting
                (productController.product_body req));
    simpl in *; rewrite <- ?H5, <- ?H7, <- ?H8; by destruct U.
Qed.

(** X18. The update of a game is idempotent: the
    same request served a second time gives the reply of the first and
    leaves the database as the first left it. *)
Theorem updateProduct_idempotent (req : productController.ProductRequest)
    (db : DB) :
  handle (productController.updateProduct req)
    (handle (productController.updateProduct req) db).2
  = handle (productController.updateProduct req) db.
Proof.
  pose proof (updateProduct_eq req db) as E. cbv zeta in E.
  destruct (negb (bool_decide (productController.product_errors req = [])))
    eqn:Herr; [by rewrite E|].
  destruct (match productController.body_category
                    (productController.product_body req) with
            | productController.category_undefined => false
            | c => productController.invalid_category c
            end) eqn:Hcat; [by rewrite E|].
  destruct (productController.invalid_format _) eqn:Hfmt; [by rewrite E|].
  destruct (products db !! productController.product_params_id req)
    as [p|] eqn:Hp; [|by rewrite E].
  destruct (Product_validate (updatedProduct req p)) eqn:Hv; [|by rewrite E].
  rewrite E. cbn [snd].
  pose proof (updateProduct_eq req
                (mkDB (users db)
                   (<[productController.product_params_id req :=
                        updatedProduct req p]> (products db)))) as E2.
  cbv zeta in E2. rewrite E2, Herr, Hcat, Hfmt. cbn [products users].
  rewrite lookup_insert_eq, updatedProduct_twice, Hv.
  by rewrite insert_insert_eq.
Qed.

(** X20. A creation that is answered 201 stores one new document under
    the new id and changes neither the users nor the documents stored under
    other ids.  The new document holds one to five genres as the body gave
    them and a non-empty name, brand, description and image, and an image
    given as a data URL is a PNG or a JPEG. *)
Theorem created_product_wellformed (req : productController.ProductRequest)
    (db : DB) :
  status (handle (productController.createProduct req) db).1 = 201 →
  ∃ p' genres,
    (handle (productController.createProduct req) db).2
    = mkDB (users db)
        (<[productController.product_new_id req := p']> (products db))
    ∧ productController.body_category (productController.product_body req)
      = productController.category_array genres
    ∧ Product.category p' = genres ∧ 0 < length genres ≤ 5
    ∧ Product.name p' ≠ "" ∧ Product.brand p' ≠ ""
    ∧ Product.description p' ≠ "" ∧ Product.image p' ≠ ""
    ∧ productController.body_image (productController.product_body req)
      = Some (Product.image p')
    ∧ (String.prefix "data:image" (Product.image p') = true →
       String.prefix "data:image/png;base64," (Product.image p') = true
       ∨ String.prefix "data:image/jpeg;base64," (Product.image p') = true
       ∨ String.prefix "data:image/jpg;base64," (Product.image p') = true).
Proof.
  pose proof (createProduct_eq req db) as E. cbv zeta in E. rewrite E. clear E.
  destruct (negb _); [done|].
  destruct (productController.invalid_category _) eqn:Hcat; [done|].
  destruct (productController.invalid_format _) eqn:Hfmt; [done|].
  destruct (String.eqb _ "") eqn:Himg; [done|].
  destruct (Product_validate (newProduct req)) eqn:Hv; [|done].
  intros _.
  destruct (productController.body_category
              (productController.product_body req)) as [| |genres] eqn:Hc;
    try done.
  exists (newProduct req), genres. split; [done|]. split; [done|].
  unfold Product_validate in Hv. rewrite !andb_true_iff in Hv.
  destruct Hv as [[[[[Hn Hi] Hb] Hd] Hl] _].
  apply negb_true_iff, String.eqb_neq in Hn, Hi, Hb, Hd.
  apply bool_decide_eq_true in Hl.
  revert Hn Hi Hb Hd Hl. unfold newProduct. cbv zeta.
  match goal with
  | |- context [foldl _ ?base ?fields] =>
      destruct (assigned_fields fields base)
        as (_ & -> & -> & -> & -> & -> & _)
  end.
  cbn [Product.name Product.image Product.brand Product.category
       Product.description].
  rewrite Hc. intros Hn Hi Hb Hd Hl. repeat (split; [done|]).
  assert (Hsome : productController.body_image
                    (productController.product_body req)
                  = Some (productController.or_string
                            (productController.body_image
                               (productController.product_body req)) "")).
  { unfold productController.or_string in *.
    destruct (productController.body_image _) as [s|]; [|done].
    by destruct (String.eqb s ""). }
  split; [done|]. intros Hpre.
  unfold productController.invalid_format in Hfmt. rewrite Hpre in Hfmt.
  simpl in Hfmt. apply negb_false_iff in Hfmt.
  apply orb_true_iff in Hfmt as [Hfmt|Hfmt]; [|by right; right].
  apply orb_true_iff in Hfmt as [Hfmt|Hfmt]; [by left|by right; left].
Qed.

Lemma created_product_wellformed_witness :
  ∃ p',
    (handle (productController.createProduct Sample2.create_numReviews)
       Sample.db).2
    = mkDB (users Sample.db) (<["N" := p']> (products Sample.db))
    ∧ Product.name p' ≠ "".
Proof.
  destruct (created_product_wellformed Sample2.create_numReviews Sample.db)
    as (p' & genres & H1 & _ & _ & _ & H2 & _).
  - reflexivity.
  - by exists p'.
Defined.

(** ** Deletions *)

Lemma Array_find_filter {A} (P R : A → Prop) `{∀ x, Decision (P x)}
    `{∀ x, Decision (R x)} (l : list A) :
  (∀ x, P x → R x) → Array_find P (filter R l) = Array_find P l.
Proof.
  intros HPR. induction l as [|x l IH]; [done|].
  rewrite filter_cons, (Array_find_cons P x l).
  destruct (decide (R x)) as [HR|HR].
  - rewrite Array_find_cons. by rewrite IH.
  - rewrite decide_False by (intros HP; by apply HR, HPR). done.
Qed.

Lemma gamePlayData_withoutGame productId g u :
  g ≠ productId →
  gamePlayData g (withoutGame productId u) = gamePlayData g u.
Proof.
  intros Hne. unfold gamePlayData, withoutGame. simpl.
  apply Array_find_filter. intros pt ->. done.
Qed.

(** X21. The deletion of a stored game is answered 200
    with the number of users whose ledger held the game.  The game is gone,
    every other game is stored as before, no user is removed or renamed,
    the time of every user for the deleted game is 0 afterwards and the
    time of every user for every other game is what it was. *)
Theorem deleteProduct_cleanup (productId : ObjectId) (db : DB)
    (p : Product.t) :
  products db !! productId = Some p →
  (handle (productController.deleteProduct productId) db).1
  = mkReply 200 (productRemoved
      "Product removed successfully and all associated user data cleaned up"
      (length (filter (λ x, playTime_product productId x.2)
                 (map_to_list (users db)))))
  ∧ products (handle (productController.deleteProduct productId) db).2
      !! productId = None
  ∧ (∀ id, id ≠ productId →
       products (handle (productController.deleteProduct productId) db).2
         !! id = products db !! id)
  ∧ (∀ userId,
       User.name
         <$> users (handle (productController.deleteProduct productId) db).2
               !! userId
       = User.name <$> users db !! userId)
  ∧ (∀ userId,
       (storedTime (handle (productController.deleteProduct productId) db).2
          userId productId == 0)%Q)
  ∧ (∀ userId g, g ≠ productId →
       storedTime (handle (productController.deleteProduct productId) db).2
         userId g
       = storedTime db userId g).
Proof.
  intros Hp.
  destruct (deleteProduct_cleans productId db p Hp)
    as (db' & Hh & Hprod & Husers & Hzero).
  rewrite Hh. cbn [fst snd]. split; [done|]. rewrite Hprod.
  split; [apply lookup_delete_eq|].
  split; [intros id Hne; by apply lookup_delete_ne|].
  split; [|split; [done|]].
  - intros userId. rewrite Husers. by destruct (users db !! userId).
  - intros userId g Hne. unfold storedTime. rewrite Husers.
    destruct (users db !! userId) as [u|]; [|done]. simpl.
    unfold Spec.time_of. by rewrite gamePlayData_withoutGame.
Qed.

Lemma deleteProduct_cleanup_witness :
  (handle (productController.deleteProduct "G") Sample.db).1
  = mkReply 200 (productRemoved
      "Product removed successfully and all associated user data cleaned up"
      (length (filter (λ x, playTime_product "G" x.2)
                 (map_to_list (users Sample.db))))).
Proof.
  apply (deleteProduct_cleanup "G" Sample.db Sample.G). reflexivity.
Defined.

(** X22. The deletion of a stored user, in a database
    whose documents pass the schema, is answered 200.  The user is gone and
    every other user is stored as before.  No game is removed; a game the
    user had not reviewed is stored as before; a game the user had reviewed
    keeps the reviews of the other users in their order, carries their
    number as its count, and has no review of the deleted user. *)
Theorem deleteUser_cleanup (userId : ObjectId) (db : DB) (u : User.t) :
  users db !! userId = Some u →
  documents_valid db →
  (handle (userController.deleteUser userId) db).1
  = mkReply 200 (message
      "User removed successfully and all associated data cleaned up")
  ∧ users (handle (userController.deleteUser userId) db).2
    = delete userId (users db)
  ∧ (∀ id, products (handle (userController.deleteUser userId) db).2 !! id
           = None ↔ products db !! id = None)
  ∧ (∀ id p, products db !! id = Some p →
       ∃ p',
         products (handle (userController.deleteUser userId) db).2 !! id
         = Some p'
         ∧ Product.reviews p'
           = filter (λ r, Review.user r ≠ userId) (Product.reviews p)
         ∧ Forall (λ r, Review.user r ≠ userId) (Product.reviews p')
         ∧ (¬ reviews_user userId p → p' = p)
         ∧ (reviews_user userId p →
            Product.numReviews p' = length_num (Product.reviews p'))).
Proof.
  intros Hu Hvalid.
  destruct (deleteUser_cleans userId db u Hu Hvalid)
    as (db' & Hh & Husers & Hprod).
  rewrite Hh. cbn [fst snd]. split; [done|]. split; [done|]. split.
  - intros id. rewrite Hprod. by destruct (products db !! id).
  - intros id p Hp. rewrite Hprod, Hp. simpl.
    destruct (decide (reviews_user userId p)) as [Hr|Hr].
    + eexists. split; [done|]. simpl. split; [done|].
      split; [|done]. apply Forall_forall. intros r Hin.
      by apply list_elem_of_filter in Hin as [? _].
    + exists p. split; [done|].
      assert (Hall : Forall (λ r, Review.user r ≠ userId) (Product.reviews p)).
      { apply Forall_forall. intros r Hin Heq. apply Hr.
        apply Exists_exists. by exists r. }
      split; [by rewrite filter_keeps_all|]. done.
Qed.

Lemma deleteUser_cleanup_witness :
  users (handle (userController.deleteUser "A") Sample.db).2
  = delete "A" (users Sample.db).
Proof.
  refine (proj1 (proj2 (deleteUser_cleanup "A" Sample.db
                          (User.mk "Alice" [PlayTime.mk "G" 120]) _ _))).
  - reflexivity.
  - intros id p Hp. unfold Sample.db in Hp. simpl in Hp.
    apply lookup_singleton_Some in Hp as [_ <-]. reflexivity.
Defined.

(** X25. [simulateInteraction] always adds the time
    of the call to the ledger and saves the user.  Whether it goes on to
    the review depends on the time of the call alone: below 60 minutes the
    product is not touched, whatever the ledger holds.  With 60 minutes or
    more, a first review that carries the rating without the comment, or
    the comment without the rating, makes the save of the product throw:
    the ledger is written, the product is not. *)
Theorem seeder_interaction_gate (userId productId : ObjectId) (u : User.t)
    (p : Product.t) (time : Q) (rating : option number)
    (comment : option string) (db : DB) :
  ((time < 60)%Q →
   seeder.simulateInteraction (Some (userId, u)) (Some (productId, p)) time
     rating comment db
   = (Done (Some (userId, withPlay productId time u), Some (productId, p)),
      mkDB (<[userId := withPlay productId time u]> (users db))
        (products db)))
  ∧ ((60 <= time)%Q →
     Array_findIndex (λ r, Review.user r = userId) (Product.reviews p)
     = None →
     Product.disableRating p = false → Product.disableCommenting p = false →
     (rating = None ∧ comment ≠ None) ∨ (rating ≠ None ∧ comment = None) →
     seeder.simulateInteraction (Some (userId, u)) (Some (productId, p)) time
       rating comment db
     = (Thrown,
        mkDB (<[userId := withPlay productId time u]> (users db))
          (products db))).
Proof.
  unfold seeder.simulateInteraction, bind, Model.User_save. cbn [fst snd].
  split.
  - intros Hlt.
    assert (Qle_bool 60 time = false) as ->; [|done].
    apply not_true_is_false. intros H. apply Qle_bool_iff in H. lra.
  - intros Hge Hi Hdr Hdc Hone. apply Qle_bool_iff in Hge.
    rewrite Hge, Hi, Hdr, Hdc. cbn [negb]. rewrite !andb_true_r.
    unfold Model.Product_save.
    destruct Hone as [[-> Hc] | [Hr ->]].
    + rewrite (bool_decide_eq_false_2 (None ≠ None)) by (intros H; by apply H).
      rewrite (bool_decide_eq_true_2 (comment ≠ None)) by done. cbn [orb].
      rewrite withNewReview_invalid by by left. done.
    + rewrite (bool_decide_eq_true_2 (rating ≠ None)) by done.
      rewrite (bool_decide_eq_false_2 (None ≠ None))
        by (intros H; by apply H).
      cbn [orb]. rewrite withNewReview_invalid by by right. done.
Qed.

Lemma seeder_interaction_gate_witness :
  seeder.simulateInteraction (Some ("C", User.mk "Carol" [PlayTime.mk "G" 60]))
    (Some ("G", Sample.G)) 65 (Some (Num 3)) None Sample2.db
  = (Thrown,
     mkDB (<["C" := withPlay "G" 65 (User.mk "Carol" [PlayTime.mk "G" 60])]>
             (users Sample2.db)) (products Sample2.db)).
Proof.
  apply (proj2 (seeder_interaction_gate "C" "G"
                  (User.mk "Carol" [PlayTime.mk "G" 60]) Sample.G 65
                  (Some (Num 3)) None Sample2.db)).
  - by vm_compute.
  - reflexivity.
  - reflexivity.
  - reflexivity.
  - right. split; [done|reflexivity].
Defined.

(** ** The statistics of a user *)

Lemma maxPlayTime_acc (l : list PlayTime.t) (m : Q) (g : option ObjectId) :
  (foldl (λ acc game,
            if Qltb acc.1 (PlayTime.time game)
            then (PlayTime.time game, Some (PlayTime.product game))
            else acc) (m, g) l = (m, g)
   ∧ Forall (λ pt, (PlayTime.time pt <= m)%Q) l)
  ∨ ∃ pt,
      pt ∈ l
      ∧ foldl (λ acc game,
                 if Qltb acc.1 (PlayTime.time game)
                 then (PlayTime.time game, Some (PlayTime.product game))
                 else acc) (m, g) l
        = (PlayTime.time pt, Some (PlayTime.product pt))
      ∧ (m < PlayTime.time pt)%Q
      ∧ Forall (λ x, (PlayTime.time x <= PlayTime.time pt)%Q) l.
Proof.
  revert m g. induction l as [|x l IH]; intros m g; [by left|].
  cbn [foldl fst]. destruct (Qltb m (PlayTime.time x)) eqn:Hlt.
  - apply Qltb_lt in Hlt.
    destruct (IH (PlayTime.time x) (Some (PlayTime.product x)))
      as [[Heq Hall] | (pt & Hin & Heq & Hgt & Hall)].
    + right. exists x. split; [by left|]. split; [done|]. split; [done|].
      constructor; [apply Qle_refl|done].
    + right. exists pt. split; [by right|]. split; [done|].
      split; [lra|]. constructor; [lra|done].
  - apply Qltb_ge in Hlt.
    destruct (IH m g) as [[Heq Hall] | (pt & Hin & Heq & Hgt & Hall)].
    + left. split; [done|]. by constructor.
    + right. exists pt. split; [by right|]. split; [done|].
      split; [done|]. constructor; [lra|done].
Qed.

(** The loop with the strict comparison and the stable sort name the same
    entry: the first one that holds the greatest time. *)
Lemma maxPlayTime_sort (l : list PlayTime.t) (m : Q) (g : option ObjectId) :
  foldl (λ acc game,
           if Qltb acc.1 (PlayTime.time game)
           then (PlayTime.time game, Some (PlayTime.product game))
           else acc) (m, g) l
  = match Array_sort (λ a b, (PlayTime.time b - PlayTime.time a)%Q) l with
    | first :: _ =>
        if Qltb m (PlayTime.time first)
        then (PlayTime.time first, Some (PlayTime.product first))
        else (m, g)
    | [] => (m, g)
    end.
Proof.
  revert m g. induction l as [|x l IH]; intros m g; [done|].
  cbn [foldl fst].
  change (Array_sort (λ a b, (PlayTime.time b - PlayTime.time a)%Q) (x :: l))
    with (sort_insert (λ a b, (PlayTime.time b - PlayTime.time a)%Q) x
            (Array_sort (λ a b, (PlayTime.time b - PlayTime.time a)%Q) l)).
  destruct (Qltb m (PlayTime.time x)) eqn:Hlt; rewrite IH;
    destruct (Array_sort _ l) as [|y s]; cbn [sort_insert];
    rewrite ?Hlt; try done;
    destruct (Qle_bool (PlayTime.time y - PlayTime.time x) 0) eqn:Hle;
    rewrite ?Hlt; try done.
  - apply Qle_bool_iff in Hle.
    assert (Qltb (PlayTime.time x) (PlayTime.time y) = false) as ->; [|done].
    apply Qltb_ge. lra.
  - assert (Hgt : (PlayTime.time x < PlayTime.time y)%Q).
    { apply Qnot_le_lt. intros H.
      assert (Qle_bool (PlayTime.time y - PlayTime.time x) 0 = true);
        [|congruence].
      apply Qle_bool_iff. lra. }
    apply Qltb_lt in Hlt.
    assert (Qltb (PlayTime.time x) (PlayTime.time y) = true) as ->
      by by apply Qltb_lt.
    assert (Qltb m (PlayTime.time y) = true) as ->; [|done].
    apply Qltb_lt. lra.
  - apply Qle_bool_iff in Hle. apply Qltb_ge in Hlt.
    assert (Qltb m (PlayTime.time y) = false) as ->; [|done].
    apply Qltb_ge. lra.
Qed.

Lemma getMostPlayedGame_eq (userId : ObjectId) (db : DB) :
  handle_user (userStatistics.getMostPlayedGame userId) db
  = (match users db !! userId with
     | None => mkUserReply 404 (user_message "User not found")
     | Some user =>
         match (userStatistics.maxPlayTime (User.playTime user)).2 with
         | None => mkUserReply 404 (user_message "No games played yet")
         | Some mostPlayedGameId =>
             match products db !! mostPlayedGameId with
             | None => mkUserReply 404 (user_message "Game not found")
             | Some game =>
                 mkUserReply 200
                   (mostPlayedOf
                      (mkGameCard mostPlayedGameId (Product.name game)
                         (Product.image game) (Product.category game)
                         (Product.brand game))
                      (userStatistics.maxPlayTime (User.playTime user)).1)
             end
         end
     end, db).
Proof.
  unfold handle_user, userStatistics.getMostPlayedGame, try_catch, bind,
    Model.User_findById, Model.Product_findById, ret. cbn [fst snd].
  destruct (users db !! userId) as [u|]; [|done].
  destruct (bool_decide (length (User.playTime u) = 0)) eqn:Hlen.
  - apply bool_decide_eq_true in Hlen.
    destruct (User.playTime u); [done|discriminate Hlen].
  - destruct (userStatistics.maxPlayTime (User.playTime u)).2; [|done].
    cbn [fst snd]. by destruct (products db !! _).
Qed.

(** X26. The most played game of a stored user.  When
    no entry of the ledger holds a positive time, the answer is 404 "No
    games played yet".  Otherwise the answer names an entry of the ledger
    whose time is positive and is not exceeded by any entry: with the card
    of its game and that time (200), or 404 "Game not found" when the game
    is not stored.  The database is not changed. *)
Theorem most_played_is_maximal (userId : ObjectId) (db : DB) (u : User.t) :
  users db !! userId = Some u →
  (handle_user (userStatistics.getMostPlayedGame userId) db).2 = db
  ∧ (Forall (λ pt, (PlayTime.time pt <= 0)%Q) (User.playTime u) →
     (handle_user (userStatistics.getMostPlayedGame userId) db).1
     = mkUserReply 404 (user_message "No games played yet"))
  ∧ (Exists (λ pt, (0 < PlayTime.time pt)%Q) (User.playTime u) →
     ∃ best,
       best ∈ User.playTime u
       ∧ (0 < PlayTime.time best)%Q
       ∧ Forall (λ pt, (PlayTime.time pt <= PlayTime.time best)%Q)
           (User.playTime u)
       ∧ (handle_user (userStatistics.getMostPlayedGame userId) db).1
         = match products db !! PlayTime.product best with
           | Some game =>
               mkUserReply 200
                 (mostPlayedOf
                    (mkGameCard (PlayTime.product best) (Product.name game)
                       (Product.image game) (Product.category game)
                       (Product.brand game)) (PlayTime.time best))
           | None => mkUserReply 404 (user_message "Game not found")
           end).
Proof.
  intros Hu. rewrite getMostPlayedGame_eq, Hu. cbn [fst snd].
  split; [done|]. unfold userStatistics.maxPlayTime.
  destruct (maxPlayTime_acc (User.playTime u) 0 None)
    as [[-> Hall] | (pt & Hin & -> & Hgt & Hall)]; cbn [fst snd].
  - split; [done|]. intros Hex. exfalso.
    apply Exists_exists in Hex as (x & Hx & Hpos).
    rewrite Forall_forall in Hall. specialize (Hall x Hx). lra.
  - split.
    + intros Hnone. exfalso. rewrite Forall_forall in Hnone.
      specialize (Hnone pt Hin). lra.
    + intros _. exists pt. split; [done|]. split; [done|]. split; [done|].
      by destruct (products db !! PlayTime.product pt).
Qed.

Lemma most_played_is_maximal_witness :
  (handle_user (userStatistics.getMostPlayedGame "A") Sample.db).2
  = Sample.db.
Proof.
  refine (proj1 (most_played_is_maximal "A" Sample.db
                   (User.mk "Alice" [PlayTime.mk "G" 120]) _)).
  reflexivity.
Defined.

Lemma comments_of_read_only (userId : ObjectId) (l : list PlayTime.t)
    (acc : list UserComment) (db : DB) :
  ∃ cs,
    userStatistics.comments_of userId l acc db = (Done (acc ++ cs), db)
    ∧ Forall (comment_from db userId l) cs.
Proof.
  revert acc. induction l as [|pt l IH]; intros acc.
  - exists []. by rewrite app_nil_r.
  - cbn [userStatistics.comments_of]. unfold bind at 1.
    unfold Model.Product_findById. cbn [fst snd].
    assert (Hweak : ∀ cs : list UserComment,
              Forall (comment_from db userId l) cs →
              Forall (comment_from db userId (pt :: l)) cs).
    { intros cs H. eapply Forall_impl; [exact H|].
      intros c (pt0 & game & review & Hin & H').
      exists pt0, game, review. split; [by right|done]. }
    destruct (products db !! PlayTime.product pt) as [game|] eqn:Hg.
    2:{ destruct (IH acc) as (cs & -> & Hcs). exists cs. split; [done|].
        by apply Hweak. }
    destruct (Array_find _ (Product.reviews game)) as [review|] eqn:Hr.
    2:{ destruct (IH acc) as (cs & -> & Hcs). exists cs. split; [done|].
        by apply Hweak. }
    destruct (Review.comment review) as [c|] eqn:Hc.
    2:{ destruct (IH acc) as (cs & -> & Hcs). exists cs. split; [done|].
        by apply Hweak. }
    destruct (String.eqb c "") eqn:Hempty.
    { destruct (IH acc) as (cs & -> & Hcs). exists cs. split; [done|].
      by apply Hweak. }
    destruct (IH (acc ++ [mkUserComment (PlayTime.product pt)
                            (Product.name game) (Product.image game)
                            (Product.category game) c (PlayTime.time pt)
                            (Review.rating review)]))
      as (cs & -> & Hcs).
    eexists (_ :: cs). split; [by rewrite <- app_assoc|].
    constructor; [|by apply Hweak].
    exists pt, game, review. split; [by left|]. split; [done|].
    split; [done|]. split; [done|]. split; [|done].
    simpl. by apply String.eqb_neq.
Qed.

Lemma getUserStats_eq (userId : ObjectId) (db : DB) :
  handle_user (userStatistics.getUserStats userId) db
  = (match users db !! userId with
     | None => mkUserReply 404 (user_message "User not found")
     | Some user =>
         mkUserReply 200
           (statsOf (userStatistics.totalPlayTime (User.playTime user))
              (userStatistics.average
                 (userStatistics.ratings userId
                    (filter (λ x, reviews_user userId x.2)
                       (map_to_list (products db)))))
              (userStatistics.ratings userId
                 (filter (λ x, reviews_user userId x.2)
                    (map_to_list (products db)))).2)
     end, db).
Proof.
  unfold handle_user, userStatistics.getUserStats, try_catch, bind,
    Model.User_findById, Model.Product_find, ret. cbn [fst snd].
  by destruct (users db !! userId).
Qed.

(** X27. The user page of a stored user is
    answered 200 and changes nothing.  Its total playtime and average
    rating are those of the statistics endpoint, and its most played game
    is the one of the most-played endpoint, with the same time: the stable
    sort of the page and the loop of the endpoint name the same entry.
    Where the endpoint answers 404 the page holds no most played game. *)
Theorem page_agrees_with_endpoints (userId : ObjectId) (db : DB)
    (u : User.t) :
  users db !! userId = Some u →
  ∃ total average count comments,
    handle_user (userStatistics.getUserStats userId) db
    = (mkUserReply 200 (statsOf total average count), db)
    ∧ handle_user (userStatistics.getUserPage userId) db
      = (mkUserReply 200
           (pageOf (User.name u) average total
              match user_body
                      (handle_user (userStatistics.getMostPlayedGame userId)
                         db).1 with
              | mostPlayedOf card playTime =>
                  Some (mkPageGame (card_id card) (card_name card)
                          (card_image card) (card_category card) playTime)
              | _ => None
              end comments), db).
Proof.
  intros Hu. rewrite getUserStats_eq, getMostPlayedGame_eq, Hu.
  do 3 eexists. cbn [fst].
  unfold handle_user, userStatistics.getUserPage, try_catch.
  unfold bind at 1. unfold Model.User_findById. cbn [fst snd]. rewrite Hu.
  unfold bind at 1. unfold Model.Product_find. cbn [fst snd].
  destruct (comments_of_read_only userId (User.playTime u) [] db)
    as (cs & Hcs & _).
  eexists. split; [reflexivity|].
  unfold userStatistics.maxPlayTime.
  rewrite (maxPlayTime_sort (User.playTime u) 0 None).
  destruct (Array_sort _ (User.playTime u)) as [|first rest].
  - unfold bind, ret. cbn [fst snd]. rewrite Hcs. cbn [fst snd]. done.
  - destruct (Qltb 0 (PlayTime.time first)).
    + unfold bind, ret, Model.Product_findById. cbn [fst snd].
      rewrite Hcs. cbn [fst snd].
      by destruct (products db !! PlayTime.product first).
    + unfold bind, ret. cbn [fst snd]. rewrite Hcs. done.
Qed.

Lemma page_agrees_with_endpoints_witness :
  ∃ total average count,
    handle_user (userStatistics.getUserStats "A") Sample.db
    = (mkUserReply 200 (statsOf total average count), Sample.db).
Proof.
  destruct (page_agrees_with_endpoints "A" Sample.db
              (User.mk "Alice" [PlayTime.mk "G" 120]))
    as (total & average & count & comments & H & _).
  - reflexivity.
  - by exists total, average, count.
Defined.

Lemma getUserPage_comments (userId : ObjectId) (db : DB) (u : User.t) :
  users db !! userId = Some u →
  ∃ average total mostPlayedGame cs,
    handle_user (userStatistics.getUserPage userId) db
    = (mkUserReply 200
         (pageOf (User.name u) average total mostPlayedGame
            (Array_sort (λ a b, (comment_playTime b - comment_playTime a)%Q)
               cs)), db)
    ∧ Forall (comment_from db userId (User.playTime u)) cs.
Proof.
  intros Hu.
  unfold handle_user, userStatistics.getUserPage, try_catch.
  unfold bind at 1. unfold Model.User_findById. cbn [fst snd]. rewrite Hu.
  unfold bind at 1. unfold Model.Product_find. cbn [fst snd].
  destruct (comments_of_read_only userId (User.playTime u) [] db)
    as (cs & Hcs & Hall).
  do 2 eexists.
  exists (match Array_sort (λ a b, (PlayTime.time b - PlayTime.time a)%Q)
                  (User.playTime u) with
          | first :: _ =>
              if Qltb 0 (PlayTime.time first)
              then (λ game,
                      mkPageGame (PlayTime.product first) (Product.name game)
                        (Product.image game) (Product.category game)
                        (PlayTime.time first))
                   <$> products db !! PlayTime.product first
              else None
          | [] => None
          end), cs.
  split; [|exact Hall].
  destruct (Array_sort _ (User.playTime u)) as [|first rest].
  - unfold bind, ret. cbn [fst snd]. rewrite Hcs. cbn [fst snd]. done.
  - destruct (Qltb 0 (PlayTime.time first)).
    + unfold bind, ret, Model.Product_findById. cbn [fst snd].
      rewrite Hcs. cbn [fst snd]. reflexivity.
    + unfold bind, ret. cbn [fst snd]. rewrite Hcs. done.
Qed.

(** X28. The comments of the user page of a stored
    user stand in the order of their playtime, longest first, and each of
    them comes from an entry of the ledger: the game of the entry is
    stored, its first review with the id of the user holds the text, which
    is not empty, and the comment carries the time of that entry. *)
Theorem page_comments_sorted (userId : ObjectId) (db : DB) (u : User.t) :
  users db !! userId = Some u →
  ∃ average total mostPlayedGame comments,
    handle_user (userStatistics.getUserPage userId) db
    = (mkUserReply 200
         (pageOf (User.name u) average total mostPlayedGame comments), db)
    ∧ StronglySorted
        (λ a b, (comment_playTime b <= comment_playTime a)%Q) comments
    ∧ Forall (comment_from db userId (User.playTime u)) comments.
Proof.
  intros Hu.
  destruct (getUserPage_comments userId db u Hu)
    as (average & total & mp & cs & Hh & Hall).
  exists average, total, mp. eexists. split; [exact Hh|]. split.
  - apply (Array_sort_sorted comment_playTime). intros a b. reflexivity.
  - apply Forall_forall. intros c Hin. rewrite Array_sort_perm in Hin.
    rewrite Forall_forall in Hall. by apply Hall.
Qed.

Lemma page_comments_sorted_witness :
  ∃ average total mostPlayedGame comments,
    handle_user (userStatistics.getUserPage "A") Sample.db
    = (mkUserReply 200
         (pageOf "Alice" average total mostPlayedGame comments), Sample.db)
    ∧ StronglySorted
        (λ a b, (comment_playTime b <= comment_playTime a)%Q) comments.
Proof.
  destruct (page_comments_sorted "A" Sample.db
              (User.mk "Alice" [PlayTime.mk "G" 120]))
    as (average & total & mp & comments & H1 & H2 & _).
  - reflexivity.
  - by exists average, total, mp, comments.
Defined.

Lemma inject_nat_S (n : nat) :
  (inject_Z (Z.of_nat (S n)) == inject_Z (Z.of_nat n) + 1)%Q.
Proof. rewrite Nat2Z.inj_succ. unfold Z.succ. by rewrite inject_Z_plus. Qed.

Lemma ratings_bounds (userId : ObjectId) (l : list (ObjectId * Product.t))
    (a : Q) (n : nat) :
  Forall (λ doc, ratings_1_5 (Product.reviews doc.2)) l →
  (inject_Z (Z.of_nat n) <= a <= 5 * inject_Z (Z.of_nat n))%Q →
  (inject_Z
     (Z.of_nat
        (foldl (λ acc product,
                  match Array_find (λ review, Review.user review = userId)
                          (Product.reviews product.2) with
                  | Some userReview =>
                      match userStatistics.rated userReview with
                      | Some q => ((acc.1 + q)%Q, S acc.2)
                      | None => acc
                      end
                  | None => acc
                  end) (a, n) l).2)
   <= (foldl (λ acc product,
                match Array_find (λ review, Review.user review = userId)
                        (Product.reviews product.2) with
                | Some userReview =>
                    match userStatistics.rated userReview with
                    | Some q => ((acc.1 + q)%Q, S acc.2)
                    | None => acc
                    end
                | None => acc
                end) (a, n) l).1
   <= 5 * inject_Z
            (Z.of_nat
               (foldl (λ acc product,
                         match Array_find
                                 (λ review, Review.user review = userId)
                                 (Product.reviews product.2) with
                         | Some userReview =>
                             match userStatistics.rated userReview with
                             | Some q => ((acc.1 + q)%Q, S acc.2)
                             | None => acc
                             end
                         | None => acc
                         end) (a, n) l).2))%Q.
Proof.
  revert a n. induction l as [|doc l IH]; intros a n Hall Hb; [done|].
  apply Forall_cons in Hall as [Hdoc Hall]. cbn [foldl fst snd].
  destruct (Array_find _ (Product.reviews doc.2)) as [r|] eqn:Hr;
    [|by apply IH].
  destruct (userStatistics.rated r) as [q|] eqn:Hq; [|by apply IH].
  apply IH; [done|].
  apply Array_find_Some_P in Hr as [_ Hin].
  unfold userStatistics.rated in Hq.
  destruct (Review.rating r) as [[|q']|] eqn:Hrat; try done.
  destruct (JS.not (Num q')); [done|]. injection Hq as ->.
  destruct (Hdoc r q Hin Hrat) as [H1 H5].
  rewrite inject_nat_S. lra.
Qed.

(** X29. The statistics of a stored user, in a
    database whose stored ratings lie in [1,5]: the answer is 200 and
    changes nothing; the average rating is 0 when the user has rated
    nothing and lies in [1,5] otherwise. *)
Theorem average_rating_in_range (userId : ObjectId) (db : DB) (u : User.t) :
  users db !! userId = Some u →
  ratings_in_range db →
  ∃ total average count,
    handle_user (userStatistics.getUserStats userId) db
    = (mkUserReply 200 (statsOf total average count), db)
    ∧ (count = 0 → average = 0%Q)
    ∧ (0 < count → (1 <= average <= 5)%Q).
Proof.
  intros Hu Hrange. rewrite getUserStats_eq, Hu.
  do 3 eexists. split; [reflexivity|].
  set (docs := filter _ (map_to_list (products db))).
  assert (Hall : Forall (λ doc, ratings_1_5 (Product.reviews doc.2)) docs).
  { apply Forall_forall. intros [id p] Hin.
    apply list_elem_of_filter in Hin as [_ Hin].
    apply elem_of_map_to_list in Hin. by apply (Hrange id). }
  pose proof (ratings_bounds userId docs 0 0 Hall) as Hb.
  fold (userStatistics.ratings userId docs) in Hb.
  unfold userStatistics.average.
  destruct (userStatistics.ratings userId docs) as [s n]. cbn [fst snd] in *.
  split.
  - intros ->. done.
  - intros Hpos. rewrite bool_decide_eq_true_2 by done.
    assert (Hn : (0 < inject_Z (Z.of_nat n))%Q).
    { change 0%Q with (inject_Z 0). rewrite <- Zlt_Qlt. lia. }
    destruct Hb as [H1 H5]; [split; by vm_compute|]. split.
    + apply Qle_shift_div_l; [done|]. lra.
    + apply Qle_shift_div_r; [done|]. lra.
Qed.

Lemma average_rating_in_range_witness :
  ∃ total average count,
    handle_user (userStatistics.getUserStats "A") Sample.db
    = (mkUserReply 200 (statsOf total average count), Sample.db)
    ∧ (0 < count → (1 <= average <= 5)%Q).
Proof.
  destruct (average_rating_in_range "A" Sample.db
              (User.mk "Alice" [PlayTime.mk "G" 120]))
    as (total & average & count & H1 & _ & H2).
  - reflexivity.
  - intros id p Hp r q Hin Hr. unfold Sample.db in Hp. simpl in Hp.
    apply lookup_singleton_Some in Hp as [_ <-]. simpl in Hin.
    apply elem_of_cons in Hin as [->|Hin].
    + injection Hr as <-. split; by vm_compute.
    + apply list_elem_of_singleton in Hin as ->. injection Hr as <-.
      split; by vm_compute.
  - by exists total, average, count.
Defined.

(** A review submission that is stored has passed the range check. *)
Lemma review_accepted_range (req : productController.ReviewRequest)
    (db : DB) (q : Q) :
  status (handle (productController.addOrUpdateProductReview req) db).1 = 200
  ∨ status (handle (productController.addOrUpdateProductReview req) db).1
    = 201 →
  productController.body_rating req = Some (Num q) →
  (1 <= q <= 5)%Q.
Proof.
  pose proof (addOrUpdateProductReview_eq req db) as E. cbv zeta in E.
  rewrite E. clear E. intros Hst Hr. rewrite Hr in Hst.
  destruct (bool_decide _ && bool_decide _);
    [by destruct Hst as [Hst|Hst]; discriminate Hst|].
  destruct (JS.lt (Num q) (Num 1) || JS.gt (Num q) (Num 5)) eqn:Hrange;
    [by destruct Hst as [Hst|Hst]; discriminate Hst|].
  apply orb_false_elim in Hrange as [H1 H5].
  apply Qltb_ge in H1, H5. done.
Qed.

Lemma step_ratings_in_range (r : Request) (db : DB) :
  documents_valid db → ratings_in_range db →
  ratings_in_range (handle (router r) db).2.
Proof.
  intros Hvalid Hrange id p' Hp'.
  assert (Hsub : ∀ p (l : list Review.t),
            products db !! id = Some p →
            (∀ x, x ∈ l → x ∈ Product.reviews p) → ratings_1_5 l).
  { intros p l Hp Hl x q Hin. apply (Hrange id p Hp). by apply Hl. }
  destruct r as [| | |req| | | | |];
    try (destruct (reviews_after _ db id p' Hvalid Hp')
           as [_ [-> | (p & Hp & [-> | [(uid & [= <-] & ->)
                | [(? & ? & ? & ? & _) | (? & ? & ? & _)]]])]];
         [by intros x q Hin; apply elem_of_nil in Hin
         |by apply (Hrange id p)
         |apply (Hsub p); [done|];
          intros x Hin; by apply list_elem_of_filter in Hin as [_ ?]
         |done|done]);
    try (destruct (reviews_after _ db id p' Hvalid Hp')
           as [_ [-> | (p & Hp & [-> | [(uid & ? & _)
                | [(? & ? & ? & ? & _) | (? & ? & ? & _)]]])]];
         [by intros x q Hin; apply elem_of_nil in Hin
         |by apply (Hrange id p)|done|done|done]).
  cbn [router] in Hp'.
  destruct (review_outcomes req db)
    as [(Hsame & _) | (p & u & p2 & Hp & Hu & Hv & Hdb & Hcase)].
  { rewrite Hsame in Hp'. by apply (Hrange id p'). }
  assert (Hst : status (handle (productController.addOrUpdateProductReview
                                  req) db).1 = 200
                ∨ status (handle (productController.addOrUpdateProductReview
                                    req) db).1 = 201).
  { destruct Hcase as [(i & _ & _ & ->) | (_ & _ & ->)]; auto. }
  rewrite Hdb in Hp'. apply recomputed_lookup in Hp' as (p1 & q1 & Hp1 & ->).
  cbn [products] in Hp1. cbn [Product.reviews Product.set_rating].
  destruct (decide (id = productController.review_params_id req))
    as [->|Hne].
  2:{ rewrite lookup_insert_ne in Hp1 by done. by apply (Hrange id p1). }
  rewrite lookup_insert_eq in Hp1. injection Hp1 as <-.
  pose proof (Hrange _ p Hp) as Hold.
  destruct Hcase as [(i & Hi & -> & _) | (Hi & -> & _)]; intros x q Hin Hx.
  - unfold withUpdatedReview in Hin. cbn [Product.reviews Product.set_reviews]
      in Hin.
    apply list_elem_of_lookup in Hin as [j Hj].
    destruct (decide (i = j)) as [<-|Hij].
    + rewrite list_lookup_alter_eq in Hj.
      destruct (Product.reviews p !! i) as [y|] eqn:Hy; [|done].
      injection Hj as <-. unfold updatedReview in Hx.
      destruct (productController.body_rating req) as [n|] eqn:Hn.
      * assert (n = Num q) as ->.
        { destruct (productController.body_comment req); simpl in Hx;
            congruence. }
        by apply (review_accepted_range req db q).
      * apply (Hold y q); [by eapply list_elem_of_lookup_2|].
        destruct (productController.body_comment req); simpl in Hx; done.
    + rewrite list_lookup_alter_ne in Hj by done.
      apply (Hold x q); [by eapply list_elem_of_lookup_2|done].
  - unfold withNewReview in Hin. simpl in Hin.
    apply elem_of_app in Hin as [Hin|Hin]; [by apply (Hold x q)|].
    apply list_elem_of_singleton in Hin as ->. simpl in Hx.
    by apply (review_accepted_range req db q).
Qed.

(** X30. Whatever requests other than admin writes ([createProduct],
    [updateProduct]) are served, in a database whose documents pass the
    schema and whose stored review ratings lie in [1,5], every stored
    review rating still lies in [1,5] afterwards. *)
Theorem serve_keeps_ratings_in_range (requests : list Request) (db : DB) :
  Forall (λ r, ¬ admin_write r) requests →
  documents_valid db → ratings_in_range db →
  ratings_in_range (serve requests db).
Proof.
  intros _ Hv Hr.
  by apply (serve_keeps ratings_in_range step_ratings_in_range requests db).
Qed.

Lemma serve_keeps_ratings_in_range_witness :
  ratings_in_range (serve sample_requests Sample2.db).
Proof.
  apply (serve_keeps_ratings_in_range sample_requests Sample2.db).
  - repeat constructor; simpl; tauto.
  - change (map_Forall (λ _ p, Product_validate p = true)
              (products Sample2.db)).
    apply (bool_decide_unpack _). vm_compute. exact I.
  - intros id p Hp r q Hin Hr. unfold Sample2.db, Sample.db in Hp.
    cbn [products] in Hp. apply lookup_singleton_Some in Hp as [_ <-].
    simpl in Hin. apply elem_of_cons in Hin as [->|Hin].
    + injection Hr as <-. split; by vm_compute.
    + apply list_elem_of_singleton in Hin as ->. injection Hr as <-.
      split; by vm_compute.
Defined.

(** * The computed values in double precision *)

(** ** Rounding to double precision *)

Lemma pow2_pos (e : Z) : (0 < binary64.pow2 e)%Q.
Proof. unfold binary64.pow2. apply Qpower_0_lt. reflexivity. Qed.

Lemma pow2_plus (a b : Z) :
  (binary64.pow2 (a + b) == binary64.pow2 a * binary64.pow2 b)%Q.
Proof. unfold binary64.pow2. apply Qpower_plus. discriminate. Qed.

Lemma pow2_int (n : Z) :
  (0 <= n)%Z → (binary64.pow2 n == inject_Z (2 ^ n))%Q.
Proof.
  intros Hn. unfold binary64.pow2. symmetry.
  apply (Zpower_Qpower 2 n Hn).
Qed.

Lemma pow2_opp (n : Z) :
  (binary64.pow2 n * binary64.pow2 (- n) == 1)%Q.
Proof.
  rewrite <- pow2_plus. replace (n + - n)%Z with 0%Z by lia. reflexivity.
Qed.

Global Instance nearest_even_proper : Proper (Qeq ==> eq) binary64.nearest_even.
Proof.
  intros x y Hxy. unfold binary64.nearest_even.
  rewrite (Qfloor_comp x y Hxy).
  assert (Qcompare (x - inject_Z (Qfloor y)) (1 # 2)
          = Qcompare (y - inject_Z (Qfloor y)) (1 # 2)) as ->; [|done].
  apply Qcompare_comp; [by rewrite Hxy|reflexivity].
Qed.

Lemma nearest_even_int (k : Z) : binary64.nearest_even (inject_Z k) = k.
Proof.
  unfold binary64.nearest_even. rewrite Qfloor_Z.
  assert (Qcompare (inject_Z k - inject_Z k) (1 # 2) = Lt) as ->; [|done].
  rewrite <- Qlt_alt. ring_simplify. reflexivity.
Qed.



Global Instance round_proper : Proper (Qeq ==> eq) binary64.round.
Proof.
  intros x y Hxy. unfold binary64.round.
  by rewrite (Qred_complete x y Hxy).
Qed.

Lemma exponent_le (a : Q) :
  (binary64.exponent a
   <= Z.log2 (Qnum a) - Z.log2 (Zpos (Qden a)))%Z.
Proof. unfold binary64.exponent. destruct (Qle_bool _ a); lia. Qed.

(** A value on the grid of its own binade is left as it is. *)
Lemma round_on_grid (q : Q) (k : Z) :
  (q == inject_Z k * binary64.ulp (Qred q))%Q → (binary64.round q == q)%Q.
Proof.
  intros Hk. unfold binary64.round. cbv zeta.
  destruct (Qeq_bool (Qred q) 0) eqn:H0.
  - apply Qeq_bool_eq in H0. rewrite Qred_correct in H0. by rewrite H0.
  - assert (Hu : (0 < binary64.ulp (Qred q))%Q) by apply pow2_pos.
    set (u := binary64.ulp (Qred q)) in *.
    assert (Qred q / u == inject_Z k)%Q as ->.
    { rewrite Qred_correct, Hk. field. lra. }
    by rewrite nearest_even_int.
Qed.

Lemma round_0 : binary64.round 0 = 0%Q.
Proof. reflexivity. Qed.

(** Every integer up to [2^53] is a double. *)
Lemma round_integer (z : Z) :
  (Z.abs z <= 2 ^ 53)%Z → (binary64.round (inject_Z z) == inject_Z z)%Q.
Proof.
  intros Hz.
  destruct (decide (Z.abs z = 2 ^ 53)%Z) as [Heq|Hne].
  { assert (z = 2 ^ 53 ∨ z = - 2 ^ 53)%Z as [-> | ->] by lia;
      by vm_compute. }
  assert (Hred : Qred (inject_Z z) = inject_Z z).
  { unfold Qred, inject_Z.
    pose proof (Z.ggcd_correct_divisors z 1) as Hd.
    pose proof (Z.ggcd_gcd z 1) as Hg. rewrite Z.gcd_1_r in Hg.
    destruct (Z.ggcd z 1) as [g [aa bb]]. simpl in Hg. subst g.
    destruct Hd as [Ha Hb]. cbn [snd].
    replace aa with z by lia. by replace bb with 1%Z by lia. }
  set (e := (Z.max (binary64.exponent (Qabs (inject_Z z))) (-1022) - 52)%Z).
  assert (He : (e <= 0)%Z).
  { subst e. pose proof (exponent_le (Qabs (inject_Z z))) as H.
    simpl in H. change (Z.log2 1) with 0%Z in H.
    assert (Z.log2 (Z.abs z) < 53)%Z;
      [|change (Qabs (inject_Z z)) with (Z.abs z # 1); lia].
    destruct (decide (Z.abs z = 0%Z)) as [->|Hnz]; [done|].
    apply Z.log2_lt_pow2; lia. }
  apply (round_on_grid _ (z * 2 ^ (- e))).
  rewrite Hred. unfold binary64.ulp. fold e.
  rewrite inject_Z_mult, <- pow2_int by lia.
  rewrite <- Qmult_assoc, (Qmult_comm (binary64.pow2 (- e))), pow2_opp. ring.
Qed.



Lemma add_whole (a b : Q) (x y : Z) :
  (a == inject_Z x)%Q → (b == inject_Z y)%Q → (Z.abs (x + y) <= 2 ^ 53)%Z →
  (binary64.add a b == inject_Z (x + y))%Q.
Proof.
  intros Ha Hb Hxy. unfold binary64.add.
  rewrite (round_proper (a + b)%Q (inject_Z (x + y))).
  - by apply round_integer.
  - rewrite Ha, Hb. by rewrite inject_Z_plus.
Qed.

Lemma mul_whole (a b : Q) (x y : Z) :
  (a == inject_Z x)%Q → (b == inject_Z y)%Q → (Z.abs (x * y) <= 2 ^ 53)%Z →
  (binary64.mul a b == inject_Z (x * y))%Q.
Proof.
  intros Ha Hb Hxy. unfold binary64.mul.
  rewrite (round_proper (a * b)%Q (inject_Z (x * y))).
  - by apply round_integer.
  - rewrite Ha, Hb. by rewrite inject_Z_mult.
Qed.

(** ** The stored data read directly, and the lookups of the code *)

Lemma ledger_time_gamePlayData productId u :
  Spec.time_of productId u = Ledger.time productId (User.playTime u).
Proof.
  unfold Spec.time_of, gamePlayData. induction (User.playTime u) as [|pt l IH].
  - done.
  - rewrite Array_find_cons. simpl.
    destruct (decide (PlayTime.product pt = productId)) as [Heq|Hne].
    + apply String.eqb_eq in Heq. by rewrite Heq.
    + apply String.eqb_neq in Hne. by rewrite Hne.
Qed.


Lemma ledger_played_playTime_product productId u :
  Ledger.played productId (User.playTime u) = true
  ↔ playTime_product productId u.
Proof.
  unfold playTime_product. induction (User.playTime u) as [|pt l IH].
  - simpl. split; [done|]. by intros H%Exists_nil.
  - simpl. rewrite Exists_cons, orb_true_iff, IH, String.eqb_eq. done.
Qed.

Lemma players_usersWhoPlayed productId db :
  Average.players productId db = usersWhoPlayed productId db.
Proof.
  unfold Average.players, usersWhoPlayed.
  induction (map_to_list (users db)) as [|x l IH]; [done|].
  rewrite !filter_cons, IH.
  destruct (decide (Ledger.played productId (User.playTime x.2) = true))
    as [H|H]; destruct (decide (playTime_product productId x.2)) as [H'|H'];
    try done; exfalso.
  - by apply H', ledger_played_playTime_product.
  - by apply H, ledger_played_playTime_product.
Qed.

Lemma rating_u_rating_of reviews userId t :
  Average.rating_u reviews userId t = Spec.rating_of reviews userId t.
Proof.
  unfold Spec.rating_of. induction reviews as [|r l IH].
  - done.
  - rewrite Array_find_cons. simpl.
    destruct (decide (Review.user r = userId)) as [Heq|Hne].
    + apply String.eqb_eq in Heq. rewrite Heq.
      destruct (Review.rating r) as [[|q]|]; try done.
      destruct (Qlt_le_dec 0 t) as [Ht|Ht].
      * apply Qltb_lt in Ht. rewrite Ht. simpl.
        destruct (Qlt_le_dec 0 q) as [Hq|Hq].
        -- apply Qltb_lt in Hq. by rewrite Hq.
        -- apply Qltb_ge in Hq. by rewrite Hq.
      * apply Qltb_ge in Ht. by rewrite Ht.
    + apply String.eqb_neq in Hne. by rewrite Hne.
Qed.

Lemma average_total_spec productId db :
  Average.total productId db = Spec.totalPlayTime productId db.
Proof.
  unfold Average.total, Spec.totalPlayTime.
  rewrite players_usersWhoPlayed. f_equal. apply map_ext.
  intros x. symmetry. apply ledger_time_gamePlayData.
Qed.

Lemma average_weighted_spec productId db reviews :
  Average.weighted productId db reviews = Spec.weighted productId db reviews.
Proof.
  unfold Average.weighted, Spec.weighted.
  rewrite players_usersWhoPlayed. f_equal. apply map_ext.
  intros x. by rewrite rating_u_rating_of, ledger_time_gamePlayData.
Qed.

(** ** The rating helpers in double precision *)

Lemma doubles_userController_update_eq productId db :
  Doubles.userController.updateWeightedProductRating productId db =
  (Done tt,
   match products db !! productId with
   | Some product =>
       if Product_validate product
       then mkDB (users db)
              (<[productId :=
                   Product.set_rating (Doubles.userRating productId db product)
                     product]> (products db))
       else db
   | None => db
   end).
Proof.
  unfold Doubles.userController.updateWeightedProductRating, try_catch, bind,
    Model.Product_findById, Model.User_find, Model.Product_save, ret,
    Doubles.userRating, usersWhoPlayed; simpl.
  destruct (products db !! productId) as [product|]; [|done]. simpl.
  destruct (filter _ _) as [|u us]; simpl.
  - rewrite validate_set_rating. by destruct (Product_validate product).
  - rewrite validate_set_rating.
    destruct (Product.reviews product) eqn:Hr;
      destruct (Product_validate product); try done.
Qed.

Lemma doubles_productController_update_eq productId db :
  Doubles.productController.updateWeightedProductRating productId db =
  (Done tt,
   match products db !! productId with
   | Some product =>
       match Doubles.productRating productId db product with
       | Some q =>
           if Product_validate product
           then mkDB (users db)
                  (<[productId := Product.set_rating q product]> (products db))
           else db
       | None => db
       end
   | None => db
   end).
Proof.
  unfold Doubles.productController.updateWeightedProductRating, try_catch,
    bind, Model.Product_findById, Model.User_find, Model.Product_save, ret,
    throw, productController.populate, Doubles.productRating, usersWhoPlayed,
    populated; simpl.
  destruct (products db !! productId) as [product|]; [|done]. simpl.
  destruct (filter _ _) as [|u us]; simpl.
  - rewrite validate_set_rating. by destruct (Product_validate product).
  - destruct (Doubles.productController.weightedSum _ _ _ _); [|done].
    rewrite validate_set_rating. by destruct (Product_validate product).
Qed.

Lemma doubles_weightedSum_foldl productId db played reviews a :
  authors_stored db reviews →
  Doubles.productController.weightedSum productId played
    (populated db reviews) a
  = Done (foldl (λ sum review,
                   match Array_find (λ u, u.1 = Review.user review) played with
                   | Some reviewingUser =>
                       match Doubles.counts
                               (gamePlayData productId reviewingUser.2)
                               review with
                       | Some c => binary64.add sum c
                       | None => sum
                       end
                   | None => sum
                   end) a reviews).
Proof.
  intros Hst. revert a.
  induction Hst as [|r rs [u Hu] _ IH]; intros a; simpl; [done|].
  rewrite Hu. simpl.
  destruct (Array_find _ played) as [ru|]; [|apply IH].
  destruct (Doubles.counts _ r); apply IH.
Qed.

(** With every author stored the two copies assign the same value. *)
Lemma doubles_productRating_userRating productId db p :
  authors_stored db (Product.reviews p) →
  Doubles.productRating productId db p
  = Some (Doubles.userRating productId db p).
Proof.
  intros Hst. unfold Doubles.productRating, Doubles.userRating.
  destruct (usersWhoPlayed productId db) as [|u us]; [done|].
  by rewrite (doubles_weightedSum_foldl _ _ _ _ _ Hst).
Qed.

Lemma doubles_recomputed_users productId db :
  users (Doubles.recomputed productId db) = users db.
Proof.
  unfold Doubles.recomputed. rewrite doubles_productController_update_eq.
  simpl. destruct (products db !! productId) as [p|]; [|done].
  destruct (Doubles.productRating productId db p); [|done].
  by destruct (Product_validate p).
Qed.

Lemma doubles_recomputed_keeps productId db id p :
  products db !! id = Some p →
  ∃ q, products (Doubles.recomputed productId db) !! id
       = Some (Product.set_rating q p).
Proof.
  intros Hp. unfold Doubles.recomputed.
  rewrite doubles_productController_update_eq. simpl.
  destruct (products db !! productId) as [p0|] eqn:Hp0;
    [|by exists (Product.rating p); rewrite set_rating_same].
  destruct (Doubles.productRating productId db p0) as [q|];
    [|by exists (Product.rating p); rewrite set_rating_same].
  destruct (Product_validate p0);
    [|by exists (Product.rating p); rewrite set_rating_same].
  simpl. destruct (decide (id = productId)) as [->|Hne].
  - rewrite lookup_insert_eq. exists q. congruence.
  - rewrite lookup_insert_ne by done.
    exists (Product.rating p). by rewrite set_rating_same.
Qed.

(** ** Whole numbers are added and multiplied exactly *)

Lemma Qsum_cons (x : Q) (l : list Q) :
  Spec.Qsum (x :: l) = (x + Spec.Qsum l)%Q.
Proof. reflexivity. Qed.

Lemma contribution_nonneg productId played r :
  (0 <= contribution productId played r)%Q.
Proof.
  unfold contribution, counts.
  destruct (Array_find _ played) as [u|]; [|done].
  destruct (gamePlayData productId u.2) as [pt|]; [|done].
  destruct (Review.rating r) as [[|q]|]; try done.
  destruct (Qltb 0 (PlayTime.time pt)) eqn:Ht; [|done].
  destruct (Qltb 0 q) eqn:Hq; [|done]. simpl.
  apply Qltb_lt in Ht, Hq. apply Qmult_le_0_compat; lra.
Qed.

Lemma Qsum_nonneg {A} (f : A → Q) (l : list A) :
  Forall (λ x, 0 <= f x)%Q l → (0 <= Spec.Qsum (map f l))%Q.
Proof.
  induction 1 as [|x l Hx _ IH]; simpl; [done|]. lra.
Qed.

Lemma doubles_totalPlayTime_whole productId (l : list (ObjectId * User.t))
    (a : Q) (n : Z) :
  (a == inject_Z n)%Q → (0 ≤ n)%Z →
  Forall (λ u, ∃ k : Z, (0 ≤ k)%Z
                        ∧ (Spec.time_of productId u.2 == inject_Z k)%Q) l →
  (a + Spec.Qsum (map (λ u, Spec.time_of productId u.2) l)
   <= inject_Z (2 ^ 53))%Q →
  (foldl (λ total u,
            match gamePlayData productId u.2 with
            | Some pt => binary64.add total (PlayTime.time pt)
            | None => total
            end) a l
   == a + Spec.Qsum (map (λ u, Spec.time_of productId u.2) l))%Q.
Proof.
  intros Ha Hn Hall. revert a n Ha Hn.
  induction Hall as [|u l (k & Hk & Hu) Hall IH]; intros a n Ha Hn Hb.
  { simpl. ring. }
  cbn [foldl map] in Hb |- *. rewrite Qsum_cons in Hb |- *.
  assert (Hrest : (0 <= Spec.Qsum (map (λ u, Spec.time_of productId u.2) l))%Q).
  { apply Qsum_nonneg. eapply Forall_impl; [exact Hall|].
    intros x (k' & Hk' & Hx). rewrite Hx.
    change 0%Q with (inject_Z 0). by rewrite <- Zle_Qle. }
  unfold Spec.time_of in Hu. unfold Spec.time_of at 1 in Hb.
  unfold Spec.time_of at 1.
  destruct (gamePlayData productId u.2) as [pt|].
  - assert (Hsum : (binary64.add a (PlayTime.time pt) == inject_Z (n + k))%Q).
    { apply add_whole; [done..|].
      assert (inject_Z (n + k) <= inject_Z (2 ^ 53))%Q.
      { rewrite inject_Z_plus, <- Ha, <- Hu. lra. }
      rewrite <- Zle_Qle in H. lia. }
    rewrite (IH _ (n + k)%Z Hsum); [|lia|].
    + rewrite Hsum, inject_Z_plus, Ha, Hu. ring.
    + rewrite Hsum, inject_Z_plus, <- Ha, <- Hu. lra.
  - rewrite (IH a n Ha Hn); [ring|lra].
Qed.

Lemma doubles_weightedSum_whole productId played (reviews : list Review.t)
    (a : Q) (n : Z) :
  (a == inject_Z n)%Q → (0 ≤ n)%Z →
  (∀ u pt, u ∈ played → gamePlayData productId u.2 = Some pt →
     ∃ k : Z, (0 ≤ k)%Z ∧ (PlayTime.time pt == inject_Z k)%Q) →
  whole_ratings reviews →
  (a + Spec.Qsum (map (contribution productId played) reviews)
   <= inject_Z (2 ^ 53))%Q →
  (foldl (λ sum review,
            match Array_find (λ u, u.1 = Review.user review) played with
            | Some reviewingUser =>
                match Doubles.counts (gamePlayData productId reviewingUser.2)
                        review with
                | Some c => binary64.add sum c
                | None => sum
                end
            | None => sum
            end) a reviews
   == a + Spec.Qsum (map (contribution productId played) reviews))%Q.
Proof.
  intros Ha Hn Ht. revert a n Ha Hn.
  induction reviews as [|r rs IH]; intros a n Ha Hn Hq Hb.
  { simpl. ring. }
  cbn [foldl map] in Hb |- *. rewrite Qsum_cons in Hb |- *.
  assert (Hrest : (0 <= Spec.Qsum (map (contribution productId played) rs))%Q).
  { apply Qsum_nonneg, Forall_forall. intros x _. apply contribution_nonneg. }
  assert (Hq' : whole_ratings rs).
  { intros x q Hin. apply Hq. by right. }
  pose proof (contribution_nonneg productId played r) as Hc0.
  unfold contribution in Hc0. unfold contribution at 1 in Hb.
  unfold contribution at 1.
  destruct (Array_find _ played) as [ru|] eqn:Hru;
    [|rewrite (IH a n Ha Hn Hq'); [ring|lra]].
  apply Array_find_Some_P in Hru as [_ Hin].
  unfold counts, Doubles.counts in *.
  destruct (gamePlayData productId ru.2) as [pt|] eqn:Hpt;
    [|rewrite (IH a n Ha Hn Hq'); [ring|lra]].
  destruct (Review.rating r) as [[|q]|] eqn:Hr;
    try (rewrite (IH a n Ha Hn Hq'); [ring|lra]).
  destruct (Qltb 0 (PlayTime.time pt) && Qltb 0 q);
    [|rewrite (IH a n Ha Hn Hq'); [ring|lra]].
  destruct (Ht ru pt Hin Hpt) as (kt & Hkt & Htime).
  destruct (Hq r q (list_elem_of_here _ _) Hr) as (kq & Hkq & Hrat).
  assert (Hprod : (PlayTime.time pt * q == inject_Z (kt * kq))%Q)
    by (by rewrite inject_Z_mult, Htime, Hrat).
  assert (Hmul : (binary64.mul (PlayTime.time pt) q == inject_Z (kt * kq))%Q).
  { apply mul_whole; [done..|].
    assert (inject_Z (kt * kq) <= inject_Z (2 ^ 53))%Q.
    { rewrite <- Hprod. assert (0 <= a)%Q; [|lra].
      rewrite Ha. change 0%Q with (inject_Z 0). by rewrite <- Zle_Qle. }
    rewrite <- Zle_Qle in H. nia. }
  assert (Hsum : (binary64.add a (binary64.mul (PlayTime.time pt) q)
                  == inject_Z (n + kt * kq))%Q).
  { apply add_whole; [done..|].
    assert (inject_Z (n + kt * kq) <= inject_Z (2 ^ 53))%Q.
    { rewrite inject_Z_plus, <- Ha, <- Hprod. lra. }
    rewrite <- Zle_Qle in H. nia. }
  rewrite (IH _ (n + kt * kq)%Z Hsum); [|nia|done|].
  - rewrite Hsum, inject_Z_plus, <- Hprod, Ha. ring.
  - rewrite Hsum, inject_Z_plus, <- Hprod, <- Ha. lra.
Qed.

(** ** C1 and C6: the rating that the update stores *)

Lemma whole_minutes_played productId db :
  whole_minutes productId db →
  Forall (λ u, ∃ k : Z, (0 ≤ k)%Z
                        ∧ (Spec.time_of productId u.2 == inject_Z k)%Q)
    (usersWhoPlayed productId db).
Proof.
  intros Hm. apply Forall_forall. intros [id u] Hin.
  apply list_elem_of_filter in Hin as [_ Hin].
  apply elem_of_map_to_list in Hin. simpl.
  rewrite ledger_time_gamePlayData. by apply (Hm id).
Qed.

Lemma doubles_totalPlayTime_spec productId db :
  whole_minutes productId db →
  (Average.total productId db <= inject_Z (2 ^ 53))%Q →
  (Doubles.totalPlayTime productId (usersWhoPlayed productId db)
   == Spec.totalPlayTime productId db)%Q.
Proof.
  intros Hm Ht. rewrite average_total_spec in Ht.
  unfold Doubles.totalPlayTime.
  rewrite (doubles_totalPlayTime_whole productId _ 0 0%Z).
  - unfold Spec.totalPlayTime. ring.
  - reflexivity.
  - done.
  - by apply whole_minutes_played.
  - rewrite Qplus_0_l. exact Ht.
Qed.

Lemma doubles_weightedSum_spec productId db reviews :
  one_review_per_user reviews →
  whole_minutes productId db → whole_ratings reviews →
  (Average.weighted productId db reviews <= inject_Z (2 ^ 53))%Q →
  (Doubles.userController.weightedSum productId (usersWhoPlayed productId db)
     reviews
   == Spec.weighted productId db reviews)%Q.
Proof.
  intros Hnd Hm Hr Hw. rewrite average_weighted_spec in Hw.
  pose proof (weightedSum_exchange productId (usersWhoPlayed productId db)
                reviews (usersWhoPlayed_NoDup productId db) Hnd) as Hex.
  fold (Spec.weighted productId db reviews) in Hex.
  unfold Doubles.userController.weightedSum.
  rewrite (doubles_weightedSum_whole productId _ _ 0 0%Z).
  - rewrite Qplus_0_l. exact Hex.
  - reflexivity.
  - done.
  - intros u pt Hin Hpt.
    pose proof (whole_minutes_played productId db Hm) as Hall.
    rewrite Forall_forall in Hall. destruct (Hall u Hin) as (k & Hk & Hu).
    unfold Spec.time_of in Hu. rewrite Hpt in Hu. by exists k.
  - done.
  - rewrite Qplus_0_l, Hex. exact Hw.
Qed.

(** With whole minutes and whole ratings, and sums up to [2^53], the value
    that the update assigns is the quotient of the two exact sums, rounded
    once. *)
Lemma doubles_userRating_rounded productId db p :
  one_review_per_user (Product.reviews p) →
  whole_minutes productId db →
  whole_ratings (Product.reviews p) →
  sums_within_2_53 productId db (Product.reviews p) →
  Doubles.userRating productId db p
  = Average.rounded productId db (Product.reviews p).
Proof.
  intros Hnd Hm Hr [Ht Hw].
  unfold Average.rounded. rewrite average_total_spec, average_weighted_spec.
  unfold Doubles.userRating.
  destruct (usersWhoPlayed productId db) as [|u0 us] eqn:Hus.
  - unfold Spec.totalPlayTime. rewrite Hus. simpl.
    destruct (Qlt_le_dec 0 0) as [H|H]; [by apply Qlt_irrefl in H|done].
  - rewrite <- Hus.
    pose proof (doubles_totalPlayTime_spec productId db Hm Ht) as HT.
    pose proof (doubles_weightedSum_spec productId db _ Hnd Hm Hr Hw) as HW.
    destruct (Qlt_le_dec 0 (Spec.totalPlayTime productId db)) as [H|H].
    + rewrite (proj2 (Qltb_lt _ _)) by (by rewrite HT).
      unfold binary64.div. apply round_proper. by rewrite HT, HW.
    + by rewrite (proj2 (Qltb_ge _ _)) by (by rewrite HT).
Qed.

Lemma average_rounded_zero productId db reviews :
  Average.players productId db = []
  ∨ (Average.total productId db == 0)%Q →
  Average.rounded productId db reviews = 0%Q.
Proof.
  intros H. unfold Average.rounded.
  destruct (Qlt_le_dec 0 (Average.total productId db)) as [Hlt|Hle]; [|done].
  exfalso. destruct H as [H|H].
  - unfold Average.total in Hlt. rewrite H in Hlt. by apply Qlt_irrefl in Hlt.
  - rewrite H in Hlt. by apply Qlt_irrefl in Hlt.
Qed.


(** C1. For a stored game whose document satisfies its schema, with at most
    one review per user and every review author stored: when the times of
    the game are whole minutes, the ratings whole numbers, and the two sums
    at most [2^53], the rating update of either controller writes the game
    back with its rating set to the double nearest to
    [Σ(time_u * rating_u) / Σ(time_u)], the sums taken over the users who
    have a playtime entry for the game, [rating_u] being 0 unless
    [time_u > 0] and the user has a review with a positive rating; the
    rating is 0 when nobody has played or the total playtime is 0. *)
Theorem recompute_rounds_weighted_average (productId : ObjectId) (db : DB)
    (product : Product.t) :
  products db !! productId = Some product →
  Product_validate product = true →
  one_review_per_user (Product.reviews product) →
  authors_stored db (Product.reviews product) →
  whole_minutes productId db →
  whole_ratings (Product.reviews product) →
  sums_within_2_53 productId db (Product.reviews product) →
  (Doubles.productController.updateWeightedProductRating productId db).2
  = mkDB (users db)
      (<[productId :=
           Product.set_rating
             (Average.rounded productId db (Product.reviews product))
             product]> (products db))
  ∧ (Doubles.userController.updateWeightedProductRating productId db).2
    = mkDB (users db)
        (<[productId :=
             Product.set_rating
               (Average.rounded productId db (Product.reviews product))
               product]> (products db))
  ∧ (Average.players productId db = []
     ∨ (Average.total productId db == 0)%Q →
     Average.rounded productId db (Product.reviews product) = 0%Q).
Proof.
  intros Hp Hv Hnd Hst Hm Hr Hs.
  rewrite doubles_productController_update_eq,
    doubles_userController_update_eq. simpl.
  rewrite Hp, (doubles_productRating_userRating _ _ _ Hst), Hv.
  rewrite (doubles_userRating_rounded _ _ _ Hnd Hm Hr Hs).
  split; [done|]. split; [done|]. apply average_rounded_zero.
Qed.

Lemma sample_whole_minutes : whole_minutes "G" Sample.db.
Proof.
  intros id u Hu.
  destruct (decide (id = "A")) as [->|];
    [|destruct (decide (id = "B")) as [->|]].
  - vm_compute in Hu. injection Hu as <-. exists 120%Z. by vm_compute.
  - vm_compute in Hu. injection Hu as <-. exists 80%Z. by vm_compute.
  - unfold Sample.db in Hu. cbn [users] in Hu.
    rewrite lookup_insert_ne in Hu by done.
    rewrite lookup_singleton_ne in Hu by done. done.
Qed.

Lemma sample_whole_ratings : whole_ratings (Product.reviews Sample.G).
Proof.
  intros r q Hin Hq. simpl in Hin. apply elem_of_cons in Hin as [->|Hin].
  - injection Hq as <-. exists 5%Z. by vm_compute.
  - apply list_elem_of_singleton in Hin as ->. injection Hq as <-.
    exists 3%Z. by vm_compute.
Qed.

Lemma recompute_rounds_weighted_average_witness :
  (Doubles.productController.updateWeightedProductRating "G" Sample.db).2
  = mkDB (users Sample.db)
      (<["G" :=
           Product.set_rating
             (Average.rounded "G" Sample.db (Product.reviews Sample.G))
             Sample.G]> (products Sample.db))
  ∧ (Doubles.userController.updateWeightedProductRating "G" Sample.db).2
    = mkDB (users Sample.db)
        (<["G" :=
             Product.set_rating
               (Average.rounded "G" Sample.db (Product.reviews Sample.G))
               Sample.G]> (products Sample.db))
  ∧ (Average.players "G" Sample.db = []
     ∨ (Average.total "G" Sample.db == 0)%Q →
     Average.rounded "G" Sample.db (Product.reviews Sample.G) = 0%Q).
Proof.
  apply (recompute_rounds_weighted_average "G" Sample.db Sample.G).
  - reflexivity.
  - reflexivity.
  - unfold one_review_per_user. compute_done.
  - repeat constructor; eexists; reflexivity.
  - apply sample_whole_minutes.
  - apply sample_whole_ratings.
  - split; by vm_compute.
Defined.

(** The update does not leave the playtime-weighted average itself: with
    times of 60.1 and 64.1 minutes, as doubles, and both ratings 5, the
    average is 5 and the rating stored is [5 + 2^-50]. *)
Lemma average_as_specified_fails : ¬ average_as_specified.
Proof.
  intros H.
  destruct (H "G" Sample64.db Sample64.G) as (p & Hp & Hq).
  - reflexivity.
  - reflexivity.
  - unfold one_review_per_user. compute_done.
  - repeat constructor; eexists; reflexivity.
  - vm_compute in Hp. injection Hp as <-. vm_compute in Hq. discriminate.
Qed.

(** The scenario of the specification in double precision:
    [(120*5 + 80*3)/(120+80)] is stored as the double nearest to 4.2. *)
Example sample_rating_rounded :
  Average.rounded "G" Sample.db (Product.reviews Sample.G)
  = binary64.round (42 # 10)
  ∧ (Average.exact "G" Sample64.db (Product.reviews Sample64.G) == 5)%Q
  ∧ ∃ p, products (Doubles.recomputed "G" Sample64.db) !! "G" = Some p
         ∧ (Product.rating p == 5 + 1 / inject_Z (2 ^ 50))%Q.
Proof.
  split; [by vm_compute|]. split; [by vm_compute|].
  eexists. split; [by vm_compute|]. by vm_compute.
Qed.




(** ** C4: the playtime ledger in double precision *)

Lemma ledger_time_after_play productId minutes (l : list PlayTime.t) :
  Ledger.time productId
    (match Array_findIndex (λ pt, PlayTime.product pt = productId) l with
     | Some playTimeIndex =>
         alter (λ pt, PlayTime.mk (PlayTime.product pt)
                        (binary64.add (PlayTime.time pt) minutes))
           playTimeIndex l
     | None => l ++ [PlayTime.mk productId minutes]
     end)
  = if Ledger.played productId l
    then binary64.add (Ledger.time productId l) minutes
    else minutes.
Proof.
  induction l as [|pt l IH].
  - simpl. by rewrite String.eqb_refl.
  - rewrite Array_findIndex_cons.
    destruct (decide (PlayTime.product pt = productId)) as [Heq|Hne].
    + simpl. apply String.eqb_eq in Heq. by rewrite Heq.
    + apply String.eqb_neq in Hne.
      destruct (Array_findIndex _ l) as [j|]; simpl in *; by rewrite Hne.
Qed.


Lemma doubles_withPlay_time productId minutes u :
  Ledger.time productId (User.playTime (Doubles.withPlay productId minutes u))
  = if Ledger.played productId (User.playTime u)
    then binary64.add (Ledger.time productId (User.playTime u)) minutes
    else minutes.
Proof.
  rewrite <- (ledger_time_after_play productId minutes (User.playTime u)).
  unfold Doubles.withPlay.
  by destruct (Array_findIndex _ (User.playTime u)).
Qed.













(** The sample calls: 120 + 30 minutes for the first pair, 45 for the
    second. *)
Example sample_calls_rounded :
  whole_calls "A" "G" sample_calls
  ∧ (ledgerTime sample_db2 "A" "G" == 120)%Q
  ∧ (ledgerTime (Doubles.play_calls sample_calls sample_db2).2 "A" "G"
     == 150)%Q
  ∧ (ledgerTime (Doubles.play_calls sample_calls sample_db2).2 "A" "H"
     == 45)%Q.
Proof.
  split; [|by vm_compute].
  repeat constructor; intros _; [by exists 30%Z | by exists 45%Z].
Qed.


(** ** C10: the order of the read projections *)






(** ** A play call followed by a review submission *)

Lemma doubles_update_done productId db :
  Doubles.productController.updateWeightedProductRating productId db
  = (Done tt, Doubles.recomputed productId db).
Proof.
  unfold Doubles.recomputed. by rewrite doubles_productController_update_eq.
Qed.

Lemma ledger_played_gamePlayData productId u :
  Ledger.played productId (User.playTime u) = true →
  is_Some (gamePlayData productId u).
Proof.
  unfold gamePlayData. induction (User.playTime u) as [|pt l IH]; [done|].
  rewrite Array_find_cons. simpl.
  destruct (decide (PlayTime.product pt = productId)) as [Heq|Hne]; [done|].
  apply String.eqb_neq in Hne. rewrite Hne. exact IH.
Qed.

Lemma doubles_withPlay_played productId minutes u :
  Ledger.played productId
    (User.playTime (Doubles.withPlay productId minutes u)) = true.
Proof.
  unfold Doubles.withPlay.
  destruct (Array_findIndex _ (User.playTime u)) as [i|] eqn:Hi; simpl.
  - revert i Hi. induction (User.playTime u) as [|pt l IH]; intros i; [done|].
    rewrite Array_findIndex_cons.
    destruct (decide (PlayTime.product pt = productId)) as [Heq|Hne].
    + intros [= <-]. simpl. apply String.eqb_eq in Heq. by rewrite Heq.
    + intros (j & Hj & ->)%fmap_Some. simpl.
      destruct (String.eqb (PlayTime.product pt) productId); [done|].
      by apply IH.
  - clear Hi. induction (User.playTime u) as [|pt l IH]; simpl.
    + by rewrite String.eqb_refl.
    + destruct (String.eqb (PlayTime.product pt) productId); [done|].
      exact IH.
Qed.

Lemma doubles_playGame_eq (req : productController.PlayRequest) (db : DB) :
  let productId := productController.play_params_id req in
  let userId := productController.play_user_id req in
  handle (Doubles.productController.playGame req) db =
  match productController.play_time req with
  | NaN => (mkReply 400 (message "Valid playtime value is required"), db)
  | Num minutes =>
      if Qle_bool minutes 0 then
        (mkReply 400 (message "Valid playtime value is required"), db)
      else
      match products db !! productId, users db !! userId with
      | None, _ => (mkReply 404 (message "Game not found"), db)
      | Some _, None => (mkReply 404 (message "User not found"), db)
      | Some _, Some u =>
          (mkReply 200 (playTimeUpdated "Playtime updated successfully"
                          (Ledger.time productId
                             (User.playTime
                                (Doubles.withPlay productId minutes u)))),
           Doubles.recomputed productId
             (mkDB (<[userId := Doubles.withPlay productId minutes u]>
                      (users db))
                (products db)))
      end
  end.
Proof.
  destruct req as [g uid t errs]. simpl.
  destruct t as [|minutes]; [done|].
  destruct (Qle_bool minutes 0) eqn:Hle.
  { unfold handle, Doubles.productController.playGame, try_catch. simpl.
    by rewrite Hle, orb_true_r. }
  assert (Hne : Qeq_bool minutes 0 = false).
  { apply not_true_is_false. intros H. apply Qeq_bool_iff in H.
    assert (Qle_bool minutes 0 = true); [|congruence].
    apply Qle_bool_iff. rewrite H. apply Qle_refl. }
  unfold handle, Doubles.productController.playGame, try_catch, bind,
    Model.Product_findById, Model.User_findById, Model.User_save, ret, throw,
    background. simpl. rewrite Hne, Hle. simpl.
  destruct (products db !! g) as [p|]; [|done]. simpl.
  destruct (users db !! uid) as [u|] eqn:Hu; [|done].
  fold (Doubles.withPlay g minutes u).
  rewrite doubles_update_done.
  pose proof (ledger_time_gamePlayData g (Doubles.withPlay g minutes u)) as Hl.
  unfold Spec.time_of in Hl.
  destruct (ledger_played_gamePlayData g (Doubles.withPlay g minutes u)
              (doubles_withPlay_played g minutes u)) as [pt' Hpt'].
  rewrite Hpt' in Hl |- *. by rewrite Hl.
Qed.

(** X17. A successful play call followed by a review submission of the
    same user for the same game: the submission is turned away for lack of
    playtime exactly when the time that the call has stored is below 60,
    that time being the sum, in double precision, of the time stored
    before and the minutes of the call, or the minutes of the call when
    the ledger had no entry of the game. *)
Theorem play_unlocks_review (productId userId : ObjectId) (minutes : Q)
    (errs : list string) (rating : option number) (comment : option string)
    (db : DB) (p : Product.t) (u : User.t) :
  products db !! productId = Some p →
  users db !! userId = Some u →
  (0 < minutes)%Q →
  rating ≠ None ∨ comment ≠ None →
  (∀ n, rating = Some n → ∃ q, n = Num q ∧ (1 <= q <= 5)%Q) →
  (handle (productController.addOrUpdateProductReview
             (productController.mkReviewRequest productId userId rating
                comment))
     (handle (Doubles.productController.playGame
                (productController.mkPlayRequest productId userId
                   (Num minutes) errs)) db).2).1
  = insufficient_playtime
  ↔ ((if Ledger.played productId (User.playTime u)
      then binary64.add (Ledger.time productId (User.playTime u)) minutes
      else minutes) < 60)%Q.
Proof.
  intros Hp Hu Hpos Hsome Hrange.
  pose proof (doubles_playGame_eq
                (productController.mkPlayRequest productId userId
                   (Num minutes) errs) db) as E.
  cbv zeta in E.
  cbn [productController.play_time productController.play_params_id
       productController.play_user_id] in E.
  rewrite E, Hp, Hu. clear E.
  assert (Qle_bool minutes 0 = false) as ->.
  { apply not_true_is_false. intros H. apply Qle_bool_iff in H. lra. }
  cbn [snd].
  set (db1 := Doubles.recomputed productId _).
  destruct (doubles_recomputed_keeps productId
              (mkDB (<[userId := Doubles.withPlay productId minutes u]>
                       (users db))
                 (products db)) productId p Hp) as [q' Hp1].
  fold db1 in Hp1.
  assert (Hu1 : users db1 !! userId
                = Some (Doubles.withPlay productId minutes u)).
  { unfold db1. rewrite doubles_recomputed_users. simpl.
    by rewrite lookup_insert_eq. }
  pose proof (addOrUpdateProductReview_eq
                (productController.mkReviewRequest productId userId rating
                   comment) db1) as E.
  cbv zeta in E.
  cbn [productController.body_rating productController.body_comment
       productController.review_params_id productController.review_user_id]
    in E.
  rewrite E, Hp1, Hu1. clear E.
  assert (bool_decide (rating = None) && bool_decide (comment = None)
          = false) as ->.
  { destruct Hsome.
    - by rewrite (bool_decide_eq_false_2 (rating = None)).
    - rewrite (bool_decide_eq_false_2 (comment = None)) by done.
      apply andb_false_r. }
  assert (match rating with
          | Some n => JS.lt n (Num 1) || JS.gt n (Num 5)
          | None => false
          end = false) as ->.
  { destruct rating as [n|]; [|done].
    destruct (Hrange n eq_refl) as (q & -> & H1 & H5). simpl.
    apply orb_false_intro; apply Qltb_ge; done. }
  rewrite ledger_time_gamePlayData, doubles_withPlay_time.
  set (t := if Ledger.played productId (User.playTime u) then _ else _).
  destruct (Qltb t 60) eqn:Hlt.
  - apply Qltb_lt in Hlt. by split.
  - apply Qltb_ge in Hlt. split.
    + intros Hreply. exfalso.
      repeat match type of Hreply with
             | context [if ?b then _ else _] => destruct b
             | context [match ?o with Some _ => _ | None => _ end] =>
                 destruct o
             end; discriminate Hreply.
    + intros Hless. lra.
Qed.

Lemma play_unlocks_review_witness :
  (handle (productController.addOrUpdateProductReview
             (productController.mkReviewRequest "G" "D" (Some (Num 4))
                (Some "Fine")))
     (handle (Doubles.productController.playGame
                (productController.mkPlayRequest "G" "D" (Num (1 # 2)) []))
        Sample2.db).2).1
  = insufficient_playtime.
Proof.
  apply (play_unlocks_review "G" "D" (1 # 2) [] (Some (Num 4)) (Some "Fine")
           Sample2.db Sample.G (User.mk "Dan" [PlayTime.mk "G" 59])).
  - reflexivity.
  - reflexivity.
  - by vm_compute.
  - by left.
  - intros n [= <-]. exists 4%Q. split; [done|]. split; by vm_compute.
  - by vm_compute.
Defined.
